(* ===== verification/_CoqProject ===== *)
-Q . S2P
Prelude.v
Grid.v
History.v
ColorHistory.v
Brush.v
Connectivity.v
Bresenham.v
FloodFill.v
Editor.v
Session.v
Viewport.v
Renderer.v
View.v
PngExport.v
