(* ===== verification/Prelude.v ===== *)
(** * Pixlet: a verification development of the pixel-art editing engine

    Pixlet (src/src/App.vue, a Vue 3 single-file component) is a raster
    pixel-art editor.  All of its logic lives in the <script setup> block of
    App.vue as module-level reactive refs (the state) and arrow functions
    (the operations); the <template> block wires DOM events and buttons to
    those functions.  This development models that script as a shallow
    embedding: every ref becomes a field of an explicit state record, every
    function a Rocq function on that state, every closure stored in a ref a
    constructor of a defunctionalised type, and the page's events a
    transition system whose reachable states the invariants describe.

    ** The program's parts, and where each is modelled

    - Grid model ([grid], [gridWidth], [gridHeight], [initializeGrid]'s
      construction, [clearGrid]'s loop): [Grid.v], [Module Grid].  [get]
      and [set] are the guarded [grid.value[row][col]] read and write,
      [makeGrid] the [Array(h).fill(null).map(...)] construction, [clearLoop]
      the double loop, [wf] the shape invariant (h rows of w cells).
    - History manager ([history], [historyIndex], [saveState], [undo],
      [redo], [MAX_HISTORY]): [History.v], generic over the snapshot type in
      a Section.  An abstract zipper ([Zipper]: past, present, future) is
      the contract; [abs] maps the index-based state onto it.
    - Colour history ([colorHistory], [addToColorHistory]): [ColorHistory.v].
    - Brush ([drawPixel]'s pencil and eraser loops): [Brush.v]; [brushLoop]
      is generic over the per-cell action, [stamp] is the grid write.
    - 4-connectivity of cells ([Connectivity.v]): regions as stdpp
      [propset]s, paths, components and closed regions; the graph theory
      behind the flood fill's contract.
    - Stroke interpolator ([drawLine], Bresenham): [Bresenham.v]; the
      [while (true)] loop [lineLoop] is generic over the per-cell action and
      takes fuel, [lineCells] is its trace.
    - Flood fill ([floodFill]): [FloodFill.v]; the recursion with a fuel
      bounding its depth.
    - Editor session ([Editor.v], [Module Editor]): [EditorState] holds
      every editor ref; [drawPixel] (four tool branches), [drawLine],
      [startDrawing], [stopDrawing], the canvas mouse handlers, [undo],
      [redo], [initializeGrid], the confirmed branch of [clearGrid]
      ([clearGrid]) and the accepted branch of [resizeGrid] ([resizeTo],
      [resizeWith]); [Event], [handle] and [reachable] are the editor's
      transition system, [gesture] one mouse gesture.
    - Dialogs, resize prompt and keyboard ([Session.v], [Module Session]):
      the dialog refs and [showDialog], [closeDialog], [confirmDialog],
      [cancelDialog]; the clear and resize closures as [Callback] with
      [runCallback] their bodies; JavaScript's [parseInt] ([jsSign],
      [jsRadix], [digits]); the [keydown] listener ([keyAction]); [Session]
      pairs the editor and the dialog and [step] is the page's transition
      function.
    - Viewport ([Viewport.v], [Module Viewport]): [CANVAS_SIZE],
      [pixelSize], [getCanvasCoordinates] with its clamping, and the zoom
      functions ([zoomIn], [zoomOut], [resetZoom], [handleWheel]) over exact
      rationals [Q].
    - Renderer and PNG export ([Renderer.v], [Module Renderer]): each
      drawing function is the list of [CanvasRenderingContext2D] calls it
      makes ([Cmd]): [renderCanvas], [drawGridLines], [renderSinglePixel],
      [renderHoverPreview], the canvas calls of [drawPixel]
      ([drawPixelCmds]) and the drawing loop of [exportAsPNG].  An
      interpreter [exec] gives the calls a meaning cell by cell (a stack of
      fill colours per cell), and [wt_cmd] says which calls are well typed
      on a canvas.
    - Template bindings ([View.v], [Module View]): [view] is the
      <template>'s render function, one field per data binding (active
      tool and brush buttons, the keyed palette, the zoom controls'
      [:disabled] and [Math.round] percentage, the cursor, the size line,
      the dialog box with its [v-if] branches); the event bindings are
      [Editor.handle], [Session.step] and [Viewport.zoomStep].
    - PNG export ([PngExport.v], [Module PngExport]): the whole of
      [exportAsPNG] as a trace of browser calls ([DomCall]): the detached
      canvas and its drawing, [toBlob], and the callback's object URL,
      anchor, click and revoke; the browser's answers are parameters, and
      [snapshot], [downloads] and [leaked] read a trace.

    Components interact only through the editor state: the mouse handlers
    call [drawPixel] directly or through [drawLine]; [drawPixel] writes the
    grid, records colours and, for the fill tool, a snapshot; [stopDrawing]
    records the snapshot of a gesture; the dialog callbacks call
    [clearGrid]'s loop or [initializeGrid]; the renderer reads the editor
    state and [drawPixel]'s result and draws them.

    ** What the theorems show

    - Flood fill: with more fuel than target-coloured cells the fill returns
      and repaints exactly the 4-connected component of the start cell
      ([FloodFill.floodFill_correct]); the grid-size fuel always suffices
      ([floodFill_terminates]); the same-colour no-op and the uniform grid.
    - History: [saveState], [undo] and [redo] refine the zipper operations,
      eviction included ([saveState_refines], [undo_refines],
      [redo_refines]); undoing every save and redoing them is a round trip
      ([undo_redo_all]); after a reset and any number of saves the stack
      is exactly the newest 50 snapshots at most, the cursor on the newest
      ([saveAll_keeps_newest]); from every valid state repeated undo reaches
      the oldest snapshot within [historyIndex] clicks and then stops
      ([Editor.undo_reaches_oldest]).
    - Brush and line: a stamp writes exactly the cells of the square
      [row - brushSize/2 ..< row - brushSize/2 + brushSize] (and likewise
      for columns) inside the grid, stated without the loop's own range
      ([Brush.stamp_spec]); the line loop terminates within |dx|+|dy|+1
      iterations and visits an 8-connected path of exactly
      max(|dx|,|dy|)+1 cells between the end points, inside their box
      ([Bresenham.lineCells_spec]).
    - Session: every reachable state of the editor and of the whole page
      keeps the grid at a size in 8..64, the history well formed, non-empty
      and of the grid's shape, the colour history duplicate-free and at most
      20 long, the brush in 1..5 ([Editor.reachable_inv],
      [Session.session_inv]); a brush gesture records one snapshot; a drag
      paints the footprints along the Bresenham line; an accepted resize
      leaves an all-white n x n grid with a one-entry history
      ([Session.resize_accepted]); a confirmed clear whitens every cell and
      records one snapshot, a cancelled one changes nothing
      ([clear_dialog]); the keydown listener's undo and redo conditions, for
      every key event ([keyAction_spec]).
    - Behaviours where the code and the specification part: a fill click
      records two snapshots, an eyedropper click one, a drag after an
      eyedropper pick paints; the resize error alerts are closed as soon as
      they open; [parseInt] reads the leading digits and ignores the rest,
      so "20px" is 20 ([parseInt_decimal]), and is [NaN] exactly when no
      digit follows the white space and sign ([parseInt_nan]); Ctrl+Shift+Z
      never redoes, although the listener's comment says it does.
    - Viewport: the mapper always returns a cell of the grid
      ([getCanvasCoordinates_in_grid]), the centre of every cell maps back
      to it ([cell_centre_roundtrip]).
    - Template: in every reachable state exactly one tool and one brush
      button are active, the palette's keys are distinct, and a visible
      dialog always offers Cancel, so the alert variant of the dialog box
      never renders ([View.view_consistent]); after any zoom sequence the
      level stays in 25%..400%, the percentage shown in 25..400, and each
      zoom button is disabled exactly at its bound ([View.zoom_view]).
    - Renderer: a full redraw shows the grid cell by cell
      ([Renderer.renderCanvas_shows]); the incremental redraws of
      [drawPixel] keep the canvas in step with the grid, i.e. agree with a
      full redraw ([drawPixel_redraw]); the hover preview covers exactly
      the brush footprint ([hover_preview_footprint]); every frame's command list is well typed
      on the 640 x 640 canvas ([frame_cmds_wt]); the last grid line falls
      outside the canvas ([last_grid_line_outside]).
    - Export: the bitmap [toBlob] encodes is a 1:1 image of the grid,
      exactly one [pixel-art.png] is saved when a blob arrives (none
      otherwise), and the object URL never leaks
      ([PngExport.exportAsPNG_download]).

    ** Modelling choices, bounds and fuel

    - Colours are the [string]s the code compares with [===] (case-
      sensitive); coordinates and sizes are [Z], which is exact here: the
      code's numbers only hold small integers.
    - [floodFill] takes a [nat] fuel, the bound on its recursion depth;
      [fillFuel h w = h*w + 1] is enough because every call that recurses
      paints one target cell.  [lineLoop] takes a fuel, one unit per
      iteration; [lineFuel = |dx|+|dy|+1] is enough because each iteration
      shrinks |dx - kc| + |dy - kr|.  [None] means fuel exhausted, which the
      termination theorems rule out.
    - Deep copies ([map(row => [...row])]) are the identity on immutable
      values: the code copies at every boundary between the live grid and
      the history, so no aliasing is observable.
    - Editor events carry the cell [getCanvasCoordinates] returns, which
      [Viewport.v] shows is always in the grid.  The mapper and the zoom
      compute in [Q]: exact where doubles round, so a pointer exactly on a
      cell border and [NaN] for an empty rectangle are outside the model.
    - [parseInt] treats only ASCII white space and does not round long
      digit runs to doubles (the caller rejects every value above 64).
    - The canvas is observed cell by cell: a [fillRect] that covers exactly
      one cell of side [pixelSize] is recorded on that cell; strokes (the
      grid-line overlay) are not, since they only tint the cell borders.
      Colour blending of the translucent preview and the grid lines, and
      anti-aliasing at fractional cell sizes, are outside the model.

    ** Not modelled

    PNG encoding and the file system behind the download; the element
    structure and static markup of the <template> (its bindings are
    modelled) and the <style> block, CSS with no behaviour; the imports
    of Vue and of the icon assets (lines 1-9 of App.vue); the Vue
    reactivity runtime, whose computed [pixelSize] is recomputed on read;
    the README (src/unnamed), which is prose.

    ** Files, in dependency order

    [Prelude.v] (this file: [pixlet_scope], integer ranges [a ..< b] for
    [for] loops, the [case_zb] tactic, the [pixlet] hint databases, shared
    list lemmas), [Grid.v], [History.v], [ColorHistory.v], [Brush.v],
    [Connectivity.v], [Bresenham.v], [FloodFill.v], [Editor.v],
    [Session.v], [Viewport.v], [Renderer.v], [View.v], [PngExport.v]. *)

From stdpp Require Export base list strings propset.
From Stdlib Require Export ZArith Lia.

Declare Scope pixlet_scope.
Delimit Scope pixlet_scope with px.
Open Scope Z_scope.

(** ** Integer ranges: [for (let i = a; i < b; i++)] *)

Definition zrange (a b : Z) : list Z :=
  map (fun n => a + Z.of_nat n) (seq 0 (Z.to_nat (b - a))).

Notation "a ..< b" := (zrange a b) (at level 65, no associativity) : pixlet_scope.
Open Scope pixlet_scope.

Create HintDb pixlet discriminated.
Create Rewrite HintDb pixlet_rw.

(** [case_zb] splits every integer comparison of the goal and the context
    into its two propositional cases. *)
Ltac case_zb :=
  repeat match goal with
  | |- context [Z.ltb ?a ?b] => destruct (Z.ltb_spec a b)
  | |- context [Z.leb ?a ?b] => destruct (Z.leb_spec a b)
  | |- context [Z.eqb ?a ?b] => destruct (Z.eqb_spec a b)
  | |- context [Z.gtb ?a ?b] => rewrite (Z.gtb_ltb a b)
  | |- context [Z.geb ?a ?b] => rewrite (Z.geb_leb a b)
  | H : context [Z.ltb ?a ?b] |- _ => destruct (Z.ltb_spec a b)
  | H : context [Z.leb ?a ?b] |- _ => destruct (Z.leb_spec a b)
  | H : context [Z.eqb ?a ?b] |- _ => destruct (Z.eqb_spec a b)
  | H : context [Z.gtb ?a ?b] |- _ => rewrite (Z.gtb_ltb a b) in H
  | H : context [Z.geb ?a ?b] |- _ => rewrite (Z.geb_leb a b) in H
  end; cbn [andb orb negb] in *.

Lemma in_zrange (a b x : Z) : In x (a ..< b) <-> a <= x < b.
Proof.
  unfold zrange. rewrite in_map_iff. split.
  - intros (n & <- & Hn). apply in_seq in Hn. lia.
  - intros Hx. exists (Z.to_nat (x - a)). rewrite in_seq. lia.
Qed.

Lemma length_zrange (a b : Z) : length (a ..< b) = Z.to_nat (b - a).
Proof. unfold zrange. by rewrite length_map, length_seq. Qed.

Lemma NoDup_zrange (a b : Z) : List.NoDup (a ..< b).
Proof.
  unfold zrange. apply NoDup_map_NoDup_ForallPairs; [|apply seq_NoDup].
  intros x y _ _. lia.
Qed.

Lemma zrange_empty (a b : Z) : b <= a -> a ..< b = [].
Proof. intros H. unfold zrange. by replace (Z.to_nat (b - a)) with 0%nat by lia. Qed.

Lemma zrange_cons (a b : Z) : a < b -> a ..< b = a :: ((a + 1) ..< b).
Proof.
  intros H. unfold zrange.
  replace (Z.to_nat (b - a)) with (S (Z.to_nat (b - (a + 1)))) by lia.
  simpl. f_equal; [lia|]. rewrite <- seq_shift, map_map. apply map_ext. lia.
Qed.

#[export] Hint Rewrite length_zrange : pixlet_rw.

(** ** Counting with boolean filters *)

Lemma filter_length_mono {A} (f g : A -> bool) (l : list A) :
  (forall x, In x l -> f x = true -> g x = true) ->
  (length (List.filter f l) <= length (List.filter g l))%nat.
Proof.
  induction l as [|x l IH]; intros H; simpl; [done|].
  destruct (f x) eqn:Ef; [rewrite (H x (or_introl eq_refl) Ef)|destruct (g x)];
    simpl; specialize (IH (fun y Hy => H y (or_intror Hy))); lia.
Qed.

Lemma filter_length_strict {A} (f g : A -> bool) (l : list A) (y : A) :
  (forall x, In x l -> f x = true -> g x = true) ->
  In y l -> g y = true -> f y = false ->
  (length (List.filter f l) < length (List.filter g l))%nat.
Proof.
  induction l as [|x l IH]; intros H Hy Hg Hf; simpl; [done|].
  pose proof (filter_length_mono f g l (fun z Hz => H z (or_intror Hz))) as Hm.
  destruct Hy as [<-|Hy].
  - rewrite Hf, Hg. simpl. lia.
  - specialize (IH (fun z Hz => H z (or_intror Hz)) Hy Hg Hf).
    destruct (f x) eqn:Ef; [rewrite (H x (or_introl eq_refl) Ef)|destruct (g x)];
      simpl; lia.
Qed.

Lemma filter_length_le {A} (f : A -> bool) (l : list A) :
  (length (List.filter f l) <= length l)%nat.
Proof. induction l as [|x l IH]; simpl; [done|]. destruct (f x); simpl; lia. Qed.

(** ** Folds over a loop body that only acts on some iterations *)

Lemma fold_left_ext_in {A B} (f g : A -> B -> A) (l : list B) (a : A) :
  (forall acc x, In x l -> f acc x = g acc x) ->
  fold_left f l a = fold_left g l a.
Proof.
  revert a. induction l as [|x l IH]; intros a H; simpl; [done|].
  rewrite H by (left; done). apply IH. intros acc y Hy. apply H. by right.
Qed.
