(* ===== verification/Grid.v ===== *)
(** * Grid model

    The editor's picture: App.vue's [grid] ref, a row-major [string[][]] of
    hex colour strings, with its dimensions [gridHeight] and [gridWidth]
    kept in separate refs.  This file models the guarded cell read
    [grid.value[row][col]] ([get]), the cell write ([set]), the grid built by
    [initializeGrid] ([makeGrid]), the double loop of [clearGrid]
    ([clearLoop]), the bounds test the code writes before every access
    ([inBounds]), the enumeration of all cells in the code's row-major loop
    order ([cells]), and the shape invariant [wf]: [gridHeight] rows of
    [gridWidth] cells.  The lemmas give [get] after [set] and after a loop
    of writes, and grid extensionality. *)

From S2P Require Import Prelude.

Module Grid.

(** Colours are the strings the code compares with [===]. *)
Abbreviation color := string.

(** The background colour written by [initializeGrid], the eraser and
    [clearGrid]. *)
Definition BACKGROUND : color := "#FFFFFF".

Abbreviation grid := (list (list color)).

(** [newRow >= 0 && newRow < gridHeight.value && newCol >= 0 &&
    newCol < gridWidth.value], the guard of every brush write. *)
Definition inBounds (h w row col : Z) : bool :=
  (row >=? 0) && (row <? h) && (col >=? 0) && (col <? w).

(** [grid.value[row][col]]: [None] where the JavaScript read yields
    [undefined].  Every read of the code is preceded by a bounds test, so
    the negative-index case (a property lookup in JavaScript) never occurs. *)
Definition get (g : grid) (row col : Z) : option color :=
  if (0 <=? row) && (0 <=? col)
  then g !! Z.to_nat row ≫= (fun r => r !! Z.to_nat col)
  else None.

(** [grid.value[row][col] = color]; only ever executed in bounds. *)
Definition set (g : grid) (row col : Z) (v : color) : grid :=
  if (0 <=? row) && (0 <=? col)
  then alter (fun r => <[Z.to_nat col := v]> r) (Z.to_nat row) g
  else g.

(** [Array(gridHeight.value).fill(null).map(() =>
    Array(gridWidth.value).fill('#FFFFFF'))]: each row is a fresh array. *)
Definition makeGrid (h w : Z) : grid :=
  replicate (Z.to_nat h) (replicate (Z.to_nat w) BACKGROUND).

(** The confirmed branch of [clearGrid]: [for row, for col:
    grid.value[row][col] = '#FFFFFF']. *)
Definition clearLoop (h w : Z) (g : grid) : grid :=
  fold_left (fun g row =>
    fold_left (fun g col => set g row col BACKGROUND) (0 ..< w) g) (0 ..< h) g.

(** All cells in the row-major order of the code's double loops. *)
Definition cells (h w : Z) : list (Z * Z) :=
  flat_map (fun row => map (fun col => (row, col)) (0 ..< w)) (0 ..< h).

(** Writing one colour to a list of cells, one after the other. *)
Definition paintCells (g : grid) (qs : list (Z * Z)) (v : color) : grid :=
  fold_left (fun g q => set g q.1 q.2 v) qs g.

(** The shape invariant: [gridHeight] rows of [gridWidth] cells. *)
Definition wf (h w : Z) (g : grid) : Prop :=
  length g = Z.to_nat h /\ Forall (fun r => length r = Z.to_nat w) g.

(** ** Lemmas *)

Lemma inBounds_spec h w row col :
  inBounds h w row col = true <-> 0 <= row < h /\ 0 <= col < w.
Proof. unfold inBounds. case_zb; split; intros; try lia; try done. Qed.

Lemma get_Some_bounds g h w row col v :
  wf h w g -> get g row col = Some v -> 0 <= row < h /\ 0 <= col < w.
Proof.
  intros [Hl Hf] Hg. unfold get in Hg. case_zb; try done.
  destruct (g !! Z.to_nat row) as [r|] eqn:Er; simpl in Hg; [|done].
  pose proof (lookup_lt_Some _ _ _ Er). pose proof (lookup_lt_Some _ _ _ Hg).
  rewrite Forall_lookup in Hf. specialize (Hf _ _ Er). lia.
Qed.

Lemma get_in_bounds g h w row col :
  wf h w g -> 0 <= row < h -> 0 <= col < w -> exists v, get g row col = Some v.
Proof.
  intros [Hl Hf] Hr Hc. unfold get. case_zb; try lia.
  destruct (lookup_lt_is_Some_2 g (Z.to_nat row)) as [r Er]; [lia|].
  rewrite Er. simpl. rewrite Forall_lookup in Hf. specialize (Hf _ _ Er).
  apply lookup_lt_is_Some_2. lia.
Qed.

Lemma get_out_of_bounds g h w row col :
  wf h w g -> inBounds h w row col = false -> get g row col = None.
Proof.
  intros Hwf Hb. destruct (get g row col) eqn:E; [|done].
  apply (get_Some_bounds g h w) in E; [|done]. apply inBounds_spec in E. congruence.
Qed.

Lemma get_set_eq g row col v :
  get (set g row col v) row col = (fun _ => v) <$> get g row col.
Proof.
  unfold get, set. case_zb; try done.
  rewrite list_lookup_alter. rewrite decide_True by done.
  destruct (g !! Z.to_nat row) as [r|]; simpl; [|done].
  destruct (decide (Z.to_nat col < length r)%nat).
  - rewrite list_lookup_insert_eq by done.
    destruct (r !! Z.to_nat col) eqn:E; [done|]. apply lookup_ge_None in E. lia.
  - rewrite list_insert_ge by lia. rewrite lookup_ge_None_2; [done|lia].
Qed.

Lemma get_set_ne g row col row' col' v :
  (row, col) <> (row', col') -> get (set g row col v) row' col' = get g row' col'.
Proof.
  intros Hne. unfold get, set.
  destruct ((0 <=? row) && (0 <=? col)) eqn:E1; [|done].
  destruct ((0 <=? row') && (0 <=? col')) eqn:E2; [|done].
  apply andb_true_iff in E1 as [E1 E1']. apply andb_true_iff in E2 as [E2 E2'].
  apply Z.leb_le in E1, E1', E2, E2'.
  rewrite list_lookup_alter. case_decide as Hr.
  - assert (row = row') by lia. subst row'.
    destruct (g !! Z.to_nat row) as [r|]; simpl; [|done].
    rewrite list_lookup_insert_ne; [done|]. intros Hc. apply Hne. f_equal. lia.
  - done.
Qed.

(** [get] after [set], in one statement. *)
Lemma get_set g row col row' col' v :
  get (set g row col v) row' col' =
  if decide ((row, col) = (row', col')) then (fun _ => v) <$> get g row' col'
  else get g row' col'.
Proof.
  case_decide as E.
  - injection E as <- <-. apply get_set_eq.
  - by apply get_set_ne.
Qed.

Lemma wf_set h w g row col v : wf h w g -> wf h w (set g row col v).
Proof.
  intros [Hl Hf]. unfold set. destruct (_ && _); [|by split].
  split; [by rewrite length_alter|].
  apply Forall_lookup. intros i r Hi. rewrite list_lookup_alter in Hi.
  rewrite Forall_lookup in Hf. case_decide.
  - subst i. destruct (g !! Z.to_nat row) as [r0|] eqn:E; simpl in Hi; [|done].
    injection Hi as <-. rewrite length_insert. by apply (Hf _ _ E).
  - by apply (Hf i).
Qed.

Lemma wf_makeGrid h w : wf h w (makeGrid h w).
Proof.
  unfold makeGrid, wf. split; [by rewrite length_replicate|].
  apply Forall_replicate. by rewrite length_replicate.
Qed.

Lemma lookup_replicate_dec {A} (n : nat) (x : A) (i : nat) :
  replicate n x !! i = if decide (i < n)%nat then Some x else None.
Proof.
  case_decide; [by apply lookup_replicate_2|]. apply lookup_replicate_None. lia.
Qed.

Lemma get_makeGrid h w row col :
  get (makeGrid h w) row col =
  if inBounds h w row col then Some BACKGROUND else None.
Proof.
  unfold get, makeGrid, inBounds. rewrite !lookup_replicate_dec.
  case_zb; repeat case_decide; simpl; try rewrite lookup_replicate_dec;
    repeat case_decide; try done; lia.
Qed.

(** Two grids of the same shape with the same cells are equal. *)
Lemma grid_ext h w g1 g2 :
  wf h w g1 -> wf h w g2 ->
  (forall row col, get g1 row col = get g2 row col) -> g1 = g2.
Proof.
  intros [Hl1 Hf1] [Hl2 Hf2] H. apply list_eq. intros i.
  rewrite Forall_lookup in Hf1, Hf2.
  destruct (g1 !! i) as [r1|] eqn:E1; destruct (g2 !! i) as [r2|] eqn:E2.
  - f_equal. apply list_eq. intros j.
    specialize (H (Z.of_nat i) (Z.of_nat j)). unfold get in H.
    case_zb; try lia. rewrite !Nat2Z.id, E1, E2 in H. exact H.
  - apply lookup_lt_Some in E1. apply lookup_ge_None in E2. lia.
  - apply lookup_lt_Some in E2. apply lookup_ge_None in E1. lia.
  - done.
Qed.

Lemma in_cells h w row col :
  In (row, col) (cells h w) <-> 0 <= row < h /\ 0 <= col < w.
Proof.
  unfold cells. rewrite in_flat_map. split.
  - intros (r & Hr & Hin). apply in_map_iff in Hin as (c & Hc & Hin).
    injection Hc as <- <-. rewrite in_zrange in Hr, Hin. lia.
  - intros [Hr Hc]. exists row. rewrite in_zrange. split; [lia|].
    apply in_map_iff. exists col. rewrite in_zrange. split; [done|lia].
Qed.

Lemma length_cells h w : length (cells h w) = (Z.to_nat h * Z.to_nat w)%nat.
Proof.
  unfold cells. rewrite (flat_map_constant_length (c := Z.to_nat w)).
  - rewrite length_zrange. f_equal. lia.
  - intros r _. rewrite length_map, length_zrange. f_equal. lia.
Qed.

Lemma wf_paintCells h w g qs v : wf h w g -> wf h w (paintCells g qs v).
Proof.
  unfold paintCells. revert g. induction qs as [|q qs IH]; intros g Hg; simpl; [done|].
  apply IH. by apply wf_set.
Qed.

(** A loop of writes paints exactly the listed cells that exist. *)
Lemma get_paintCells g qs v row col :
  get (paintCells g qs v) row col =
  if decide ((row, col) ∈ qs) then (fun _ => v) <$> get g row col
  else get g row col.
Proof.
  unfold paintCells. revert g. induction qs as [|q qs IH]; intros g; simpl.
  - done.
  - rewrite IH, get_set. destruct q as [r c]. simpl.
    repeat case_decide; simplify_eq; rewrite ?elem_of_cons in *; try done; try tauto.
    all: destruct (get g row col); simpl; try done.
    match goal with H : _ = _ \/ _ ∈ _ |- _ => destruct H; [congruence|done] end.
Qed.

Lemma paintCells_app g qs1 qs2 v :
  paintCells (paintCells g qs1 v) qs2 v = paintCells g (qs1 ++ qs2) v.
Proof. unfold paintCells. by rewrite fold_left_app. Qed.

Lemma fold_left_flat_map {A B C} (f : A -> C -> A) (k : B -> list C) (l : list B) a :
  fold_left f (flat_map k l) a = fold_left (fun a b => fold_left f (k b) a) l a.
Proof.
  revert a. induction l as [|b l IH]; intros a; simpl; [done|].
  by rewrite fold_left_app, IH.
Qed.

Lemma fold_left_map' {A B C} (f : A -> C -> A) (k : B -> C) (l : list B) a :
  fold_left f (map k l) a = fold_left (fun a b => f a (k b)) l a.
Proof. revert a. induction l; intros; simpl; auto. Qed.

Lemma clearLoop_paint h w g : clearLoop h w g = paintCells g (cells h w) BACKGROUND.
Proof.
  unfold clearLoop, paintCells, cells. rewrite fold_left_flat_map.
  apply fold_left_ext_in. intros acc r _. by rewrite fold_left_map'.
Qed.

End Grid.

#[export] Hint Resolve Grid.wf_set Grid.wf_makeGrid Grid.wf_paintCells : pixlet.
