(* ===== verification/History.v ===== *)
(** * History manager

    App.vue keeps the undo history in two refs, [history] (an array of grid
    snapshots) and [historyIndex] (the cursor, [-1] when empty), bounded by
    [MAX_HISTORY = 50].  [saveState] truncates the redo future, appends a
    snapshot and either advances the cursor or evicts the oldest entry;
    [undo] and [redo] move the cursor and hand back the entry for the live
    grid.  The component never looks inside a snapshot, so it is modelled
    generically over the snapshot type [A] (a Section variable).

    The contract is stated abstractly by a cursor-free [Zipper] (entries
    before the cursor, the current entry, entries after it) with its own
    [z_record], [z_undo], [z_redo]; [abs] maps the index-based state to the
    zipper and the refinement theorems show that each code operation acts
    on [abs] as the zipper operation does.  Further theorems: the invariant
    is preserved, the closed form of a sequence of saves (eviction keeps
    the newest 50), and undo/redo round trips. *)

From S2P Require Import Prelude.

Module History.

(** [const MAX_HISTORY = 50] *)
Definition MAX_HISTORY : Z := 50.

Section WithSnapshot.
Context {A : Type}.

Record HistoryState := mkHistory { history : list A; historyIndex : Z }.

(** [history.value = []; historyIndex.value = -1]: the declarations, and the
    reset done by [initializeGrid]. *)
Definition emptyHistory : HistoryState := mkHistory [] (-1).

(** [saveState]: [history.slice(0, historyIndex + 1)], [push] the copy, then
    [shift()] when over capacity, else [historyIndex++]. *)
Definition saveState (stateCopy : A) (h : HistoryState) : HistoryState :=
  let hist := take (Z.to_nat (historyIndex h + 1)) (history h) ++ [stateCopy] in
  if Z.of_nat (length hist) >? MAX_HISTORY
  then mkHistory (tail hist) (historyIndex h)
  else mkHistory hist (historyIndex h + 1).

(** [undo]: when [historyIndex > 0], decrement it and return
    [history[historyIndex]] for the caller to copy into the grid; [None]
    is the no-op.  (A missing entry, where JavaScript would throw, does not
    occur under [inv].) *)
Definition undo (h : HistoryState) : option (HistoryState * A) :=
  if historyIndex h >? 0 then
    let i := historyIndex h - 1 in
    match history h !! Z.to_nat i with
    | Some s => Some (mkHistory (history h) i, s)
    | None => None
    end
  else None.

(** [redo]: when [historyIndex < history.length - 1], increment it and
    return the entry. *)
Definition redo (h : HistoryState) : option (HistoryState * A) :=
  if historyIndex h <? Z.of_nat (length (history h)) - 1 then
    let i := historyIndex h + 1 in
    match history h !! Z.to_nat i with
    | Some s => Some (mkHistory (history h) i, s)
    | None => None
    end
  else None.

(** The live copy together with the stack: [undo]/[redo] as the code runs
    them, [grid.value = history.value[historyIndex.value].map(...)] when the
    guard holds, nothing otherwise. *)
Definition undoLive (p : HistoryState * A) : HistoryState * A :=
  match undo p.1 with Some (h', e) => (h', e) | None => p end.

Definition redoLive (p : HistoryState * A) : HistoryState * A :=
  match redo p.1 with Some (h', e) => (h', e) | None => p end.

(** A sequence of saves, as successive completed gestures perform them. *)
Definition saveAll (ss : list A) (h : HistoryState) : HistoryState :=
  fold_left (fun h s => saveState s h) ss h.

(** The last [k] elements of a list. *)
Definition lastn (k : nat) (l : list A) : list A := drop (length l - k) l.

(** The invariant: either the initial empty stack, or a non-empty stack of
    at most [MAX_HISTORY] entries with the cursor on one of them. *)
Definition inv (h : HistoryState) : Prop :=
  (history h = [] /\ historyIndex h = -1) \/
  (0 <= historyIndex h < Z.of_nat (length (history h)) /\
   Z.of_nat (length (history h)) <= MAX_HISTORY).

(** ** The abstract contract: a zipper of snapshots *)

Record Zipper := mkZipper { past : list A; present : A; future : list A }.

(** Recording keeps at most [MAX_HISTORY - 1] entries behind the new one and
    drops the redo future. *)
Definition z_record (s : A) (z : Zipper) : Zipper :=
  mkZipper (take (Z.to_nat (MAX_HISTORY - 1)) (present z :: past z)) s [].

Definition z_undo (z : Zipper) : option Zipper :=
  match past z with
  | [] => None
  | p :: ps => Some (mkZipper ps p (present z :: future z))
  end.

Definition z_redo (z : Zipper) : option Zipper :=
  match future z with
  | [] => None
  | f :: fs => Some (mkZipper (present z :: past z) f fs)
  end.

(** The abstraction: entries before the cursor (newest first), the entry at
    the cursor, entries after it.  [None] for the empty stack. *)
Definition abs (h : HistoryState) : option Zipper :=
  if historyIndex h <? 0 then None else
  match history h !! Z.to_nat (historyIndex h) with
  | Some cur =>
      Some (mkZipper (rev (take (Z.to_nat (historyIndex h)) (history h))) cur
                     (drop (S (Z.to_nat (historyIndex h))) (history h)))
  | None => None
  end.


(** ** Invariant *)

Lemma length_saved (l : list A) (i : Z) (s : A) :
  0 <= i + 1 <= Z.of_nat (length l) ->
  length (take (Z.to_nat (i + 1)) l ++ [s]) = S (Z.to_nat (i + 1)).
Proof. intros H. rewrite length_app, length_take. simpl. lia. Qed.

Lemma saveState_inv (s : A) (h : HistoryState) : inv h -> inv (saveState s h).
Proof.
  destruct h as [l i]. unfold inv, saveState, MAX_HISTORY. simpl.
  intros [[-> ->] | [Hi Hl]]; simpl.
  - right. simpl. lia.
  - rewrite length_saved by lia. case_zb; right; simpl;
      rewrite ?length_tl, ?length_saved by lia; lia.
Qed.

Lemma undo_inv (h h' : HistoryState) (e : A) :
  inv h -> undo h = Some (h', e) -> inv h'.
Proof.
  destruct h as [l i]. unfold inv, undo. simpl. case_zb; [|done].
  destruct (l !! Z.to_nat (i - 1)); [|done].
  intros [[-> ->]|[Hi Hl]] [= <- _]; simpl; [lia|right; lia].
Qed.

Lemma redo_inv (h h' : HistoryState) (e : A) :
  inv h -> redo h = Some (h', e) -> inv h'.
Proof.
  destruct h as [l i]. unfold inv, redo. simpl. case_zb; [|done].
  destruct (l !! Z.to_nat (i + 1)); [|done].
  intros [[-> ->]|[Hi Hl]] [= <- _]; simpl in *; [lia|right; lia].
Qed.

(** ** Refinement of the zipper contract *)

Lemma abs_some (h : HistoryState) :
  inv h -> history h <> [] -> exists z, abs h = Some z.
Proof.
  destruct h as [l i]. unfold inv, abs. simpl. intros [[-> _] | [Hi Hl]] Hne; [done|].
  case_zb; [lia|]. destruct (lookup_lt_is_Some_2 l (Z.to_nat i)) as [x ->]; [lia|].
  by eexists.
Qed.

(** The first save after a reset makes the saved snapshot the only entry. *)
Lemma saveState_empty (s : A) :
  abs (saveState s emptyHistory) = Some (mkZipper [] s []).
Proof. reflexivity. Qed.

Lemma rev_take_S (l : list A) (n : nat) (x : A) :
  l !! n = Some x -> rev (take (S n) l) = x :: rev (take n l).
Proof. intros H. by rewrite (take_S_r _ _ _ H), rev_app_distr. Qed.

Lemma pushed_lookup (pre : list A) (x s : A) :
  (pre ++ [x; s]) !! S (length pre) = Some s.
Proof. rewrite lookup_app_r by lia. by replace (S (length pre) - length pre)%nat with 1%nat by lia. Qed.

Lemma pushed_take (pre : list A) (x s : A) :
  take (S (length pre)) (pre ++ [x; s]) = pre ++ [x].
Proof. rewrite take_app, take_ge by lia. by replace (S (length pre) - length pre)%nat with 1%nat by lia. Qed.

Lemma pushed_drop (pre : list A) (x s : A) :
  drop (S (S (length pre))) (pre ++ [x; s]) = [].
Proof. apply drop_ge. rewrite length_app. simpl. lia. Qed.

(** C4: Refinement of [record]: on a well-formed history whose cursor
    denotes the zipper [z], [saveState s] denotes [z_record s z] (the future
    dropped, [s] the new present, the oldest entry evicted beyond 50). *)
Lemma saveState_refines (s : A) (h : HistoryState) (z : Zipper) :
  inv h -> abs h = Some z -> abs (saveState s h) = Some (z_record s z).
Proof.
  destruct h as [l i]. unfold inv, abs. simpl.
  intros [[-> ->] | [Hi Hl]]; [done|].
  rewrite (proj2 (Z.ltb_ge i 0)) by lia.
  destruct (l !! Z.to_nat i) as [cur|] eqn:Ecur; [|done]. intros [= <-].
  unfold saveState, z_record, MAX_HISTORY in *. simpl.
  rewrite length_saved, Z.gtb_ltb by lia.
  replace (Z.to_nat (i + 1)) with (S (Z.to_nat i)) by lia.
  rewrite (take_S_r _ _ _ Ecur), <- app_assoc. simpl.
  assert (length (take (Z.to_nat i) l) = Z.to_nat i) as Hn by (rewrite length_take; lia).
  destruct (Z.ltb_spec 50 (Z.of_nat (S (S (Z.to_nat i))))) as [Hfull|Hroom];
    unfold abs; simpl.
  - (* eviction: the stack was full, the cursor on its last entry *)
    rewrite (proj2 (Z.ltb_ge i 0)) by lia.
    destruct (take (Z.to_nat i) l) as [|x0 pre] eqn:Epre; simpl in Hn; [lia|].
    simpl. replace (Z.to_nat i) with (S (length pre)) by lia.
    rewrite pushed_lookup, pushed_take, pushed_drop, rev_app_distr. simpl.
    do 3 f_equal. rewrite take_app_le by (rewrite length_rev; lia).
    symmetry. apply take_ge. rewrite length_rev. lia.
  - (* the cursor advances onto the new entry *)
    rewrite (proj2 (Z.ltb_ge (i + 1) 0)) by lia.
    replace (Z.to_nat (i + 1)) with (S (length (take (Z.to_nat i) l))) by lia.
    rewrite pushed_lookup, pushed_take, pushed_drop, rev_app_distr. simpl.
    do 3 f_equal. symmetry. apply take_ge. rewrite length_rev. lia.
Qed.

(** C5: Refinement of [undo]: the index-based [undo] fails exactly when
    the zipper has no past, and otherwise moves to the zipper's previous
    entry and returns it for the grid. *)
Lemma undo_refines (h : HistoryState) (z : Zipper) :
  inv h -> abs h = Some z ->
  option_map (fun p => (abs p.1, p.2)) (undo h) =
  option_map (fun z' => (Some z', present z')) (z_undo z).
Proof.
  destruct h as [l i]. unfold inv, abs, undo, z_undo. simpl.
  intros [[-> ->] | [Hi Hl]]; [done|].
  rewrite (proj2 (Z.ltb_ge i 0)) by lia.
  destruct (l !! Z.to_nat i) as [cur|] eqn:Ecur; [|done]. intros [= <-]. simpl.
  destruct (Z.ltb_spec 0 i) as [Hpos|Hzero]; rewrite ?Z.gtb_ltb; case_zb; try lia.
  - destruct (lookup_lt_is_Some_2 l (Z.to_nat (i - 1))) as [p Ep]; [lia|].
    rewrite Ep. simpl. case_zb; [lia|]. rewrite Ep.
    replace (Z.to_nat i) with (S (Z.to_nat (i - 1))) in * by lia.
    rewrite (rev_take_S _ _ _ Ep). simpl.
    by rewrite (drop_S _ _ _ Ecur).
  - by replace (Z.to_nat i) with 0%nat by lia.
Qed.

(** C6: Refinement of [redo]: the index-based [redo] fails exactly when
    the zipper has no future, and otherwise moves to the zipper's next entry
    and returns it for the grid. *)
Lemma redo_refines (h : HistoryState) (z : Zipper) :
  inv h -> abs h = Some z ->
  option_map (fun p => (abs p.1, p.2)) (redo h) =
  option_map (fun z' => (Some z', present z')) (z_redo z).
Proof.
  destruct h as [l i]. unfold inv, abs, redo, z_redo. simpl.
  intros [[-> ->] | [Hi Hl]]; [done|].
  rewrite (proj2 (Z.ltb_ge i 0)) by lia.
  destruct (l !! Z.to_nat i) as [cur|] eqn:Ecur; [|done]. intros [= <-]. simpl.
  destruct (Z.ltb_spec i (Z.of_nat (length l) - 1)) as [Hlt|Hlast].
  - destruct (lookup_lt_is_Some_2 l (Z.to_nat (i + 1))) as [f Ef]; [lia|].
    rewrite Ef. simpl. case_zb; [lia|].
    replace (Z.to_nat (i + 1)) with (S (Z.to_nat i)) in * by lia. rewrite Ef.
    rewrite (drop_S _ _ _ Ef), (rev_take_S _ _ _ Ecur). done.
  - rewrite drop_ge; [done|lia].
Qed.

(** ** Sequences of saves *)

Lemma drop_S_tail (l : list A) (n : nat) : drop (S n) l = tail (drop n l).
Proof. revert l. induction n as [|n IH]; intros [|x l]; simpl; auto. Qed.

Lemma lastn_snoc (k : nat) (l : list A) (s : A) :
  (1 <= k)%nat ->
  lastn k (l ++ [s]) =
  if decide (length l < k)%nat then lastn k l ++ [s] else tail (lastn k l ++ [s]).
Proof.
  intros Hk. unfold lastn. rewrite length_app. simpl. case_decide.
  - replace (length l + 1 - k)%nat with 0%nat by lia.
    by replace (length l - k)%nat with 0%nat by lia.
  - replace (length l + 1 - k)%nat with (S (length l - k)) by lia.
    rewrite drop_S_tail, drop_app_le by lia.
    destruct (drop (length l - k) l) as [|y ys] eqn:E; [|done].
    apply (f_equal length) in E. rewrite length_drop in E. simpl in E. lia.
Qed.

Lemma length_lastn (k : nat) (l : list A) : length (lastn k l) = (k `min` length l)%nat.
Proof. unfold lastn. rewrite length_drop. lia. Qed.

(** Saving with the cursor on the newest entry appends, evicting the oldest
    entry when the stack is full. *)
Lemma saveState_top (s : A) (L : list A) :
  saveState s (mkHistory L (Z.of_nat (length L) - 1)) =
  if Z.of_nat (length L) <? MAX_HISTORY
  then mkHistory (L ++ [s]) (Z.of_nat (length L))
  else mkHistory (tail (L ++ [s])) (Z.of_nat (length L) - 1).
Proof.
  unfold saveState, MAX_HISTORY. simpl.
  replace (Z.to_nat (Z.of_nat (length L) - 1 + 1)) with (length L) by lia.
  rewrite take_ge by lia. rewrite length_app. simpl. rewrite Z.gtb_ltb.
  case_zb; try lia; f_equal; lia.
Qed.

(** Closed form: after a reset with [s0] and the saves [ss], the stack holds
    the newest [MAX_HISTORY] of [s0 :: ss] with the cursor on the last. *)
Lemma saveAll_reset (s0 : A) (ss : list A) :
  saveAll ss (saveState s0 emptyHistory) =
  mkHistory (lastn 50 (s0 :: ss)) (Z.of_nat (length ss `min` 49)).
Proof.
  induction ss as [|s ss IH] using rev_ind; [done|].
  unfold saveAll in *. rewrite fold_left_app, IH. simpl.
  assert (Z.of_nat (length ss `min` 49) =
          Z.of_nat (length (lastn 50 (s0 :: ss))) - 1) as ->
    by (rewrite length_lastn; cbn [length]; lia).
  rewrite saveState_top, length_app. rewrite app_comm_cons.
  rewrite (lastn_snoc 50 (s0 :: ss) s) by lia. rewrite length_lastn. cbn [length].
  unfold MAX_HISTORY. case_decide; case_zb.
  all: try (f_equal; lia).
Qed.

(** ** Undo/redo round trips *)

Lemma undoLive_step (L : list A) (i : nat) (x y : A) :
  (0 < i < length L)%nat -> L !! (i - 1)%nat = Some y ->
  undoLive (mkHistory L (Z.of_nat i), x) = (mkHistory L (Z.of_nat (i - 1)), y).
Proof.
  intros Hi Hy. unfold undoLive, undo. simpl. case_zb; [|lia].
  replace (Z.to_nat (Z.of_nat i - 1)) with (i - 1)%nat by lia. rewrite Hy.
  do 3 f_equal. lia.
Qed.

Lemma redoLive_step (L : list A) (i : nat) (x y : A) :
  (i + 1 < length L)%nat -> L !! (i + 1)%nat = Some y ->
  redoLive (mkHistory L (Z.of_nat i), x) = (mkHistory L (Z.of_nat (i + 1)), y).
Proof.
  intros Hi Hy. unfold redoLive, redo. simpl. case_zb; [|lia].
  replace (Z.to_nat (Z.of_nat i + 1)) with (i + 1)%nat by lia. rewrite Hy.
  do 3 f_equal. lia.
Qed.

Lemma undoLive_iter (L : list A) (i j : nat) (x : A) :
  (j <= i < length L)%nat -> L !! i = Some x ->
  exists y, L !! (i - j)%nat = Some y /\
    Nat.iter j undoLive (mkHistory L (Z.of_nat i), x) = (mkHistory L (Z.of_nat (i - j)), y).
Proof.
  intros Hj Hx. induction j as [|j IH]; simpl.
  - exists x. by rewrite Nat.sub_0_r.
  - destruct IH as (y & Hy & ->); [lia|].
    destruct (lookup_lt_is_Some_2 L (i - S j)) as [y' Hy']; [lia|].
    exists y'. split; [done|]. rewrite (undoLive_step L (i - j) y y'); [|lia|].
    + do 3 f_equal. lia.
    + by replace (i - j - 1)%nat with (i - S j)%nat by lia.
Qed.

Lemma redoLive_iter (L : list A) (i j : nat) (x : A) :
  (i + j < length L)%nat -> L !! i = Some x ->
  exists y, L !! (i + j)%nat = Some y /\
    Nat.iter j redoLive (mkHistory L (Z.of_nat i), x) = (mkHistory L (Z.of_nat (i + j)), y).
Proof.
  intros Hj Hx. induction j as [|j IH]; simpl.
  - exists x. by rewrite Nat.add_0_r.
  - destruct IH as (y & Hy & ->); [lia|].
    destruct (lookup_lt_is_Some_2 L (i + S j)) as [y' Hy']; [lia|].
    exists y'. split; [done|]. rewrite (redoLive_step L (i + j) y y'); [|lia|].
    + do 3 f_equal. lia.
    + by replace (i + j + 1)%nat with (i + S j)%nat by lia.
Qed.

Lemma lookup_length_last (s0 : A) (ss : list A) :
  (s0 :: ss) !! length ss = Some (List.last (s0 :: ss) s0).
Proof.
  revert s0. induction ss as [|s ss IH]; intros s0; [done|].
  change ((s :: ss) !! length ss = Some (List.last (s0 :: s :: ss) s0)).
  rewrite IH. f_equal. clear IH. simpl. destruct ss as [|t ss]; [done|].
  revert t. induction ss as [|u ss IH]; intros t; [done|]. apply IH.
Qed.

Lemma lastn_short (k : nat) (l : list A) : (length l <= k)%nat -> lastn k l = l.
Proof. intros H. unfold lastn. by replace (length l - k)%nat with 0%nat by lia. Qed.

(** C28: After a reset with [s0] and [k < MAX_HISTORY] recorded gestures, [k]
    undos bring back [s0] with the cursor at the bottom, and [k] redos then
    restore the final state exactly. *)
Theorem undo_redo_all (s0 : A) (ss : list A) :
  (length ss < 50)%nat ->
  let h := saveAll ss (saveState s0 emptyHistory) in
  let g := List.last (s0 :: ss) s0 in
  Nat.iter (length ss) undoLive (h, g) = (mkHistory (s0 :: ss) 0, s0) /\
  Nat.iter (length ss) redoLive (Nat.iter (length ss) undoLive (h, g)) = (h, g).
Proof.
  intros Hk h g. subst h g. rewrite saveAll_reset, lastn_short by (simpl; lia).
  replace (length ss `min` 49)%nat with (length ss) by lia.
  pose proof (lookup_length_last s0 ss) as Hlast.
  remember (List.last (s0 :: ss) s0) as g eqn:Eg. clear Eg.
  destruct (undoLive_iter (s0 :: ss) (length ss) (length ss) g)
    as (y & Hy & ->); [simpl; lia|done|].
  rewrite Nat.sub_diag in Hy |- *. injection Hy as <-.
  split; [done|].
  destruct (redoLive_iter (s0 :: ss) 0 (length ss) s0) as (y & Hy & ->); [simpl; lia|done|].
  rewrite Nat.add_0_l in Hy |- *. rewrite Hlast in Hy. by injection Hy as ->.
Qed.

(** Every entry after a save was an entry before, or is the saved one. *)
Lemma saveState_entries (s : A) (h : HistoryState) (x : A) :
  In x (history (saveState s h)) -> In x (history h) \/ x = s.
Proof.
  unfold saveState. intros Hx.
  assert (In x (take (Z.to_nat (historyIndex h + 1)) (history h) ++ [s])) as Hin
    by (destruct (_ >? _); simpl in Hx; [destruct (take _ _ ++ [s]); simpl in *; tauto|done]).
  apply in_app_or in Hin as [Hin|[->|[]]]; [|by right].
  left. rewrite <- (take_drop (Z.to_nat (historyIndex h + 1)) (history h)).
  apply in_or_app. by left.
Qed.

Lemma undo_entry (h h' : HistoryState) (e : A) :
  undo h = Some (h', e) -> history h' = history h /\ In e (history h).
Proof.
  unfold undo. destruct (_ >? _); [|done].
  destruct (history h !! _) eqn:E; [|done]. intros [= <- <-].
  split; [done|]. apply list_elem_of_In. by eapply list_elem_of_lookup_2.
Qed.

Lemma redo_entry (h h' : HistoryState) (e : A) :
  redo h = Some (h', e) -> history h' = history h /\ In e (history h).
Proof.
  unfold redo. destruct (_ <? _); [|done].
  destruct (history h !! _) eqn:E; [|done]. intros [= <- <-].
  split; [done|]. apply list_elem_of_In. by eapply list_elem_of_lookup_2.
Qed.

Lemma saveState_nonempty (s : A) (h : HistoryState) :
  history (saveState s h) <> [].
Proof.
  unfold saveState.
  destruct (Z.of_nat (length (take (Z.to_nat (historyIndex h + 1)) (history h) ++ [s]))
              >? MAX_HISTORY) eqn:E; simpl; intros H.
  - apply (f_equal length) in H. rewrite length_tl in H. simpl in H.
    unfold MAX_HISTORY in E. rewrite Z.gtb_ltb in E. apply Z.ltb_lt in E. lia.
  - destruct (take _ _); discriminate.
Qed.

(** [undo] clicks walk the cursor down one entry at a time: after [j]
    clicks from entry [i] the cursor is on [i - j] and the live copy is
    that entry. *)
Lemma undoLive_down (L : list A) (i j : nat) (x : A) :
  (j <= i < length L)%nat ->
  fst (Nat.iter j undoLive (mkHistory L (Z.of_nat i), x)) = mkHistory L (Z.of_nat (i - j)) /\
  ((0 < j)%nat -> L !! (i - j)%nat = Some (snd (Nat.iter j undoLive (mkHistory L (Z.of_nat i), x)))).
Proof.
  induction j as [|j IH]; intros Hj; [rewrite Nat.sub_0_r; split; [done|lia]|].
  destruct IH as [IH1 _]; [lia|]. rewrite Nat.iter_succ.
  destruct (Nat.iter j undoLive (mkHistory L (Z.of_nat i), x)) as [h y]. cbn [fst] in IH1. subst h.
  destruct (lookup_lt_is_Some_2 L (i - S j)) as [y' Hy']; [lia|].
  rewrite (undoLive_step L (i - j) y y'); [|lia|by replace (i - j - 1)%nat with (i - S j)%nat by lia].
  cbn [fst snd]. split; [f_equal; lia|]. intros _. by replace (i - j - 1)%nat with (i - S j)%nat in * by lia.
Qed.

(** The newest entry of the window of the last [k] entries. *)
Lemma lastn_newest (k : nat) (s0 : A) (ss : list A) :
  (1 <= k)%nat ->
  lastn k (s0 :: ss) !! (length (lastn k (s0 :: ss)) - 1)%nat = Some (List.last (s0 :: ss) s0).
Proof.
  intros Hk. rewrite length_lastn. unfold lastn. rewrite lookup_drop.
  cbn [length]. replace (S (length ss) - k + (k `min` S (length ss) - 1))%nat with (length ss) by lia.
  apply lookup_length_last.
Qed.

(** C35: capacity of the history: after a reset with [s0] and any sequence
    [ss] of saves, the stack holds exactly the newest [MAX_HISTORY]
    snapshots of [s0 :: ss] in order (the oldest evicted first), at most
    50 entries, with the cursor on the last one, which is the most recent
    snapshot. *)
Theorem saveAll_keeps_newest (s0 : A) (ss : list A) :
  let h := saveAll ss (saveState s0 emptyHistory) in
  history h = lastn (Z.to_nat MAX_HISTORY) (s0 :: ss) /\
  (length (history h) <= Z.to_nat MAX_HISTORY)%nat /\
  historyIndex h = Z.of_nat (length (history h)) - 1 /\
  history h !! Z.to_nat (historyIndex h) = Some (List.last (s0 :: ss) s0).
Proof.
  intros h. subst h. rewrite saveAll_reset. cbn [history historyIndex]. unfold MAX_HISTORY.
  pose proof (length_lastn 50 (s0 :: ss)) as Hl. cbn [length] in Hl.
  split; [reflexivity|]. split; [lia|]. split; [lia|].
  replace (Z.to_nat (Z.of_nat (length ss `min` 49))) with (length (lastn 50 (s0 :: ss)) - 1)%nat by lia.
  apply lastn_newest. lia.
Qed.

End WithSnapshot.

Arguments HistoryState : clear implicits.
Arguments Zipper : clear implicits.

(** The specification's capacity scenario: recording 60 edits after the
    initial blank state keeps exactly the newest 50 entries, the cursor on
    the newest. *)
Example saveAll_sixty :
  saveAll (seq 1 60) (saveState 0%nat emptyHistory) = mkHistory (seq 11 50) 49.
Proof. vm_compute. reflexivity. Qed.


(** ** Witnesses: a history of three snapshots, cursor on the newest *)

Lemma saveState_refines_witness :
  inv (saveAll [1; 2]%nat (saveState 0%nat emptyHistory)) /\
  abs (saveAll [1; 2]%nat (saveState 0%nat emptyHistory)) = Some (mkZipper [1; 0]%nat 2%nat []) /\
  abs (saveState 3%nat (saveAll [1; 2]%nat (saveState 0%nat emptyHistory))) =
  Some (z_record 3%nat (mkZipper [1; 0]%nat 2%nat [])).
Proof.
  assert (Hi : inv (saveAll [1; 2]%nat (saveState 0%nat emptyHistory)))
    by (right; unfold MAX_HISTORY; simpl; lia).
  assert (Ha : abs (saveAll [1; 2]%nat (saveState 0%nat emptyHistory)) = Some (mkZipper [1; 0]%nat 2%nat []))
    by reflexivity.
  split; [exact Hi|]. split; [exact Ha|]. exact (saveState_refines 3%nat _ _ Hi Ha).
Defined.

Lemma undo_refines_witness :
  inv (saveAll [1; 2]%nat (saveState 0%nat emptyHistory)) /\
  abs (saveAll [1; 2]%nat (saveState 0%nat emptyHistory)) = Some (mkZipper [1; 0]%nat 2%nat []) /\
  option_map (fun p => (abs p.1, p.2)) (undo (saveAll [1; 2]%nat (saveState 0%nat emptyHistory))) =
  option_map (fun z' => (Some z', present z')) (z_undo (mkZipper [1; 0]%nat 2%nat [])).
Proof.
  assert (Hi : inv (saveAll [1; 2]%nat (saveState 0%nat emptyHistory)))
    by (right; unfold MAX_HISTORY; simpl; lia).
  assert (Ha : abs (saveAll [1; 2]%nat (saveState 0%nat emptyHistory)) = Some (mkZipper [1; 0]%nat 2%nat []))
    by reflexivity.
  split; [exact Hi|]. split; [exact Ha|]. exact (undo_refines _ _ Hi Ha).
Defined.

Lemma redo_refines_witness :
  inv (mkHistory [0; 1; 2]%nat 0) /\
  abs (mkHistory [0; 1; 2]%nat 0) = Some (mkZipper [] 0%nat [1; 2]%nat) /\
  option_map (fun p => (abs p.1, p.2)) (redo (mkHistory [0; 1; 2]%nat 0)) =
  option_map (fun z' => (Some z', present z')) (z_redo (mkZipper [] 0%nat [1; 2]%nat)).
Proof.
  assert (Hi : inv (mkHistory [0; 1; 2]%nat 0)) by (right; unfold MAX_HISTORY; simpl; lia).
  assert (Ha : abs (mkHistory [0; 1; 2]%nat 0) = Some (mkZipper [] 0%nat [1; 2]%nat)) by reflexivity.
  split; [exact Hi|]. split; [exact Ha|]. exact (redo_refines _ _ Hi Ha).
Defined.

Lemma undo_redo_all_witness :
  (length [1; 2; 3]%nat < 50)%nat /\
  let h := saveAll [1; 2; 3]%nat (saveState 0%nat emptyHistory) in
  let g := List.last [0; 1; 2; 3]%nat 0%nat in
  Nat.iter 3 undoLive (h, g) = (mkHistory [0; 1; 2; 3]%nat 0, 0%nat) /\
  Nat.iter 3 redoLive (Nat.iter 3 undoLive (h, g)) = (h, g).
Proof. split; [simpl; lia|]. apply (undo_redo_all 0%nat [1; 2; 3]%nat). simpl; lia. Defined.

End History.
