(* ===== verification/ColorHistory.v ===== *)
(** * Colour history

    App.vue's [colorHistory] ref, initially [['#000000', '#FFFFFF']], and
    [addToColorHistory], which filters the colour out, puts it at the front
    and keeps the first 20 entries.  Theorems: the list stays duplicate-free
    and at most 20 long, the added colour is at the front, adding twice is
    adding once, and a new colour on a full list evicts exactly the least
    recently used one. *)

From S2P Require Import Prelude Grid.

Module ColorHistory.
Import Grid.

(** [const colorHistory = ref<string[]>(['#000000', '#FFFFFF'])] *)
Definition initialColorHistory : list color := ["#000000"; "#FFFFFF"].

(** [Keep last 20 colors] *)
Definition CAPACITY : nat := 20.

(** [colorHistory.value.filter(c => c !== color)], then
    [[color, ...filtered].slice(0, 20)]. *)
Definition addToColorHistory (c : color) (ch : list color) : list color :=
  take CAPACITY (c :: List.filter (fun x => negb (String.eqb x c)) ch).

(** The invariant: no duplicates, at most [CAPACITY] entries. *)
Definition inv (ch : list color) : Prop := List.NoDup ch /\ (length ch <= CAPACITY)%nat.

Lemma in_filter_ne (c x : color) (ch : list color) :
  In x (List.filter (fun y => negb (String.eqb y c)) ch) <-> In x ch /\ x <> c.
Proof.
  rewrite filter_In. destruct (String.eqb_spec x c); simpl; intuition congruence.
Qed.

Lemma NoDup_filter_ne (c : color) (ch : list color) :
  List.NoDup ch -> List.NoDup (List.filter (fun y => negb (String.eqb y c)) ch).
Proof. apply List.NoDup_filter. Qed.

Lemma filter_ne_notin (c : color) (ch : list color) :
  ~ In c ch -> List.filter (fun y => negb (String.eqb y c)) ch = ch.
Proof.
  induction ch as [|x ch IH]; intros Hn; simpl; [done|].
  destruct (String.eqb_spec x c) as [->|]; simpl; [exfalso; apply Hn; by left|].
  f_equal. apply IH. intros H. apply Hn. by right.
Qed.

Lemma filter_ne_idem (c : color) (ch : list color) :
  List.filter (fun y => negb (String.eqb y c))
    (List.filter (fun y => negb (String.eqb y c)) ch) =
  List.filter (fun y => negb (String.eqb y c)) ch.
Proof. apply filter_ne_notin. rewrite in_filter_ne. tauto. Qed.

Lemma NoDup_take {A} (n : nat) (l : list A) : List.NoDup l -> List.NoDup (take n l).
Proof.
  revert l. induction n as [|n IH]; intros [|x l] Hl; simpl; [constructor..|].
  inversion Hl as [|? ? Hx Hl']; subst. constructor; [|by apply IH].
  intros Hin. apply Hx. rewrite <- (take_drop n l). apply in_or_app. by left.
Qed.

Lemma in_take_in {A} (n : nat) (l : list A) (x : A) : In x (take n l) -> In x l.
Proof. intros H. rewrite <- (take_drop n l). apply in_or_app. by left. Qed.

#[export] Hint Resolve NoDup_filter_ne NoDup_take : pixlet.

Lemma initial_inv : inv initialColorHistory.
Proof.
  split; [|unfold CAPACITY; simpl; lia]. repeat constructor; simpl; intuition discriminate.
Qed.

(** The list stays free of duplicates and within its capacity. *)
Lemma addToColorHistory_inv (c : color) (ch : list color) :
  inv ch -> inv (addToColorHistory c ch).
Proof.
  intros [Hnd _]. unfold addToColorHistory. split.
  - apply NoDup_take. constructor; [|by apply NoDup_filter_ne].
    rewrite in_filter_ne. tauto.
  - rewrite length_take. lia.
Qed.

(** Adding the colour that was just added changes nothing. *)
Lemma addToColorHistory_idem (c : color) (ch : list color) :
  addToColorHistory c (addToColorHistory c ch) = addToColorHistory c ch.
Proof.
  unfold addToColorHistory, CAPACITY. cbn [take List.filter].
  rewrite String.eqb_refl. cbn [negb].
  rewrite (filter_ne_notin c (take 19 _)).
  - cbn [take]. by rewrite take_take.
  - intros Hin. apply in_take_in, in_filter_ne in Hin. tauto.
Qed.

(** C34: Re-using a colour already in the list moves it to the front and
    keeps the other colours in their order: nothing is evicted. *)
Lemma addToColorHistory_present (c : color) (ch : list color) :
  inv ch -> In c ch ->
  exists pre post, ch = pre ++ c :: post /\ addToColorHistory c ch = c :: pre ++ post.
Proof.
  intros [Hnd Hlen] Hin. destruct (in_split c ch Hin) as (pre & post & ->).
  pose proof (List.NoDup_remove_2 _ _ _ Hnd) as Hn. rewrite in_app_iff in Hn.
  exists pre, post. split; [done|]. unfold addToColorHistory, CAPACITY in *.
  rewrite List.filter_app. cbn [List.filter]. rewrite String.eqb_refl. cbn [negb].
  rewrite !filter_ne_notin by tauto.
  rewrite take_ge; [done|]. cbn [length]. rewrite length_app in *. cbn [length] in Hlen. lia.
Qed.

Lemma take_pred_removelast {A} (l : list A) :
  take (length l - 1) l = removelast l.
Proof.
  destruct l as [|x l] using rev_ind; [done|].
  rewrite removelast_last, length_app. simpl.
  replace (length l + 1 - 1)%nat with (length l) by lia. apply take_app_length.
Qed.

(** C33: A new colour on a full list goes to the front and evicts the least
    recently used colour, the last one. *)
Lemma addToColorHistory_evicts (c : color) (ch : list color) :
  ~ In c ch -> length ch = CAPACITY ->
  addToColorHistory c ch = c :: removelast ch.
Proof.
  intros Hn Hlen. unfold addToColorHistory.
  rewrite filter_ne_notin by done. unfold CAPACITY in *. cbn [take].
  rewrite <- take_pred_removelast, Hlen. done.
Qed.


(** ** Witnesses *)

Lemma addToColorHistory_present_witness :
  inv initialColorHistory /\ In "#FFFFFF" initialColorHistory /\
  exists pre post, initialColorHistory = pre ++ "#FFFFFF" :: post /\
    addToColorHistory "#FFFFFF" initialColorHistory = "#FFFFFF" :: pre ++ post.
Proof.
  assert (Hin : In "#FFFFFF" initialColorHistory) by (simpl; tauto).
  split; [apply initial_inv|]. split; [exact Hin|].
  apply addToColorHistory_present; [apply initial_inv|exact Hin].
Defined.

Lemma addToColorHistory_evicts_witness :
  ~ In "#FF0000" ["#000000"; "#000001"; "#000002"; "#000003"; "#000004"; "#000005"; "#000006"; "#000007"; "#000008"; "#000009"; "#000010"; "#000011"; "#000012"; "#000013"; "#000014"; "#000015"; "#000016"; "#000017"; "#000018"; "#000019"] /\
  length ["#000000"; "#000001"; "#000002"; "#000003"; "#000004"; "#000005"; "#000006"; "#000007"; "#000008"; "#000009"; "#000010"; "#000011"; "#000012"; "#000013"; "#000014"; "#000015"; "#000016"; "#000017"; "#000018"; "#000019"] = CAPACITY /\
  addToColorHistory "#FF0000" ["#000000"; "#000001"; "#000002"; "#000003"; "#000004"; "#000005"; "#000006"; "#000007"; "#000008"; "#000009"; "#000010"; "#000011"; "#000012"; "#000013"; "#000014"; "#000015"; "#000016"; "#000017"; "#000018"; "#000019"] = "#FF0000" :: removelast ["#000000"; "#000001"; "#000002"; "#000003"; "#000004"; "#000005"; "#000006"; "#000007"; "#000008"; "#000009"; "#000010"; "#000011"; "#000012"; "#000013"; "#000014"; "#000015"; "#000016"; "#000017"; "#000018"; "#000019"].
Proof.
  assert (Hn : ~ In "#FF0000" ["#000000"; "#000001"; "#000002"; "#000003"; "#000004"; "#000005"; "#000006"; "#000007"; "#000008"; "#000009"; "#000010"; "#000011"; "#000012"; "#000013"; "#000014"; "#000015"; "#000016"; "#000017"; "#000018"; "#000019"]) by (simpl; intuition discriminate).
  assert (Hl : length ["#000000"; "#000001"; "#000002"; "#000003"; "#000004"; "#000005"; "#000006"; "#000007"; "#000008"; "#000009"; "#000010"; "#000011"; "#000012"; "#000013"; "#000014"; "#000015"; "#000016"; "#000017"; "#000018"; "#000019"] = CAPACITY) by reflexivity.
  split; [exact Hn|]. split; [exact Hl|]. exact (addToColorHistory_evicts _ _ Hn Hl).
Defined.

End ColorHistory.
