(* ===== verification/Brush.v ===== *)
(** * Brush footprint

    The square brush of [drawPixel]'s pencil and eraser branches and of
    [renderHoverPreview]: with [offset = Math.floor(brushSize / 2)] the code
    runs [for (let r = -offset; r < brushSize - offset; r++)] and the same
    loop over [c], and acts on [(row + r, col + c)] when it passes the
    bounds test.  [brushLoop] is that loop, generic over the action per cell
    (a grid write, a redraw, a preview rectangle); [brushCells] lists the
    cells it acts on.  Theorems: the loop is a fold over [brushCells], the
    footprint is the square [row - offset .. row - offset + brushSize - 1]
    (clipped to the grid), and a stamp writes exactly those cells. *)

From S2P Require Import Prelude Grid.

Module Brush.
Import Grid.

(** [Math.floor(brushSize.value / 2)]; [Z.div] rounds towards minus
    infinity, as [Math.floor] does. *)
Definition brushOffset (brushSize : Z) : Z := brushSize / 2.

(** The loop's offsets: [-offset .. brushSize - offset - 1]. *)
Definition brushRange (brushSize : Z) : list Z :=
  (- brushOffset brushSize) ..< (brushSize - brushOffset brushSize).

Section Loop.
Context {S : Type} (paint : S -> Z -> Z -> S).

(** The double loop with its bounds test, acting by [paint]. *)
Definition brushLoop (h w row col brushSize : Z) (st : S) : S :=
  fold_left (fun st r =>
    fold_left (fun st c =>
      let newRow := row + r in
      let newCol := col + c in
      if inBounds h w newRow newCol then paint st newRow newCol else st)
      (brushRange brushSize) st)
    (brushRange brushSize) st.

End Loop.

(** The cells the loop acts on, in loop order. *)
Definition brushCells (h w row col brushSize : Z) : list (Z * Z) :=
  List.filter (fun q => inBounds h w q.1 q.2)
    (flat_map (fun r => map (fun c => (row + r, col + c)) (brushRange brushSize))
       (brushRange brushSize)).

(** The pencil/eraser effect on the grid: every footprint cell gets [v]. *)
Definition stamp (h w : Z) (g : grid) (row col brushSize : Z) (v : color) : grid :=
  brushLoop (fun g r c => set g r c v) h w row col brushSize g.

(** ** Lemmas *)

Lemma fold_left_filter {A B} (f : A -> B -> A) (p : B -> bool) (l : list B) a :
  fold_left f (List.filter p l) a =
  fold_left (fun a b => if p b then f a b else a) l a.
Proof.
  revert a. induction l as [|b l IH]; intros a; simpl; [done|].
  destruct (p b); simpl; apply IH.
Qed.

(** The loop is a fold of the action over [brushCells]. *)
Lemma brushLoop_cells {S} (paint : S -> Z -> Z -> S) h w row col brushSize st :
  brushLoop paint h w row col brushSize st =
  fold_left (fun st q => paint st q.1 q.2) (brushCells h w row col brushSize) st.
Proof.
  unfold brushLoop, brushCells. rewrite fold_left_filter, fold_left_flat_map.
  apply fold_left_ext_in. intros acc r _. rewrite fold_left_map'. done.
Qed.

Lemma in_brushRange (brushSize x : Z) :
  In x (brushRange brushSize) <->
  - brushOffset brushSize <= x < brushSize - brushOffset brushSize.
Proof. apply in_zrange. Qed.

(** The footprint: the [brushSize] x [brushSize] square whose top-left cell
    is [(row - offset, col - offset)], clipped to the grid. *)
Lemma in_brushCells h w row col brushSize r c :
  In (r, c) (brushCells h w row col brushSize) <->
  row - brushOffset brushSize <= r < row - brushOffset brushSize + brushSize /\
  col - brushOffset brushSize <= c < col - brushOffset brushSize + brushSize /\
  0 <= r < h /\ 0 <= c < w.
Proof.
  unfold brushCells. rewrite filter_In, in_flat_map. simpl. rewrite inBounds_spec.
  split.
  - intros [(dr & Hdr & Hin) Hb]. apply in_map_iff in Hin as (dc & Hq & Hdc).
    injection Hq as <- <-. rewrite in_brushRange in Hdr, Hdc. lia.
  - intros (Hr & Hc & Hb). split; [|lia]. exists (r - row).
    rewrite in_brushRange. split; [lia|]. apply in_map_iff. exists (c - col).
    rewrite in_brushRange. split; [f_equal; lia|lia].
Qed.

Lemma stamp_paint h w g row col brushSize v :
  stamp h w g row col brushSize v = paintCells g (brushCells h w row col brushSize) v.
Proof. unfold stamp. by rewrite brushLoop_cells. Qed.

(** C11: A stamp keeps the grid's shape and writes [v] to exactly the cells
    of the [brushSize] x [brushSize] square whose top-left corner is
    [(row - brushSize / 2, col - brushSize / 2)] (integer division, so an
    even brush leans towards lower indices), clipped to the grid; every
    other cell keeps its colour. *)
Theorem stamp_spec h w g row col brushSize v :
  wf h w g ->
  wf h w (stamp h w g row col brushSize v) /\
  forall r c,
    get (stamp h w g row col brushSize v) r c =
    if decide (row - brushSize / 2 <= r < row - brushSize / 2 + brushSize /\
               col - brushSize / 2 <= c < col - brushSize / 2 + brushSize /\
               0 <= r < h /\ 0 <= c < w)
    then Some v else get g r c.
Proof.
  intros Hwf. rewrite stamp_paint. split; [by apply wf_paintCells|].
  intros r c. rewrite get_paintCells.
  pose proof (in_brushCells h w row col brushSize r c) as Hiff. unfold brushOffset in Hiff.
  case_decide as H1; case_decide as H2.
  - by destruct (get_in_bounds g h w r c Hwf ltac:(lia) ltac:(lia)) as [x ->].
  - apply list_elem_of_In, Hiff in H1. by exfalso.
  - exfalso. apply H1, list_elem_of_In, Hiff, H2.
  - done.
Qed.

(** The cases the specification lists: a 3x3 brush at (5,5) covers rows and
    columns 4..6; at the corner (0,0) only the 4 in-bounds cells; an even
    2x2 brush at (5,5) is biased towards lower indices (rows 4..5). *)
Example brushCells_cases :
  brushCells 32 32 5 5 3 = [(4,4); (4,5); (4,6); (5,4); (5,5); (5,6); (6,4); (6,5); (6,6)] /\
  brushCells 32 32 0 0 3 = [(0,0); (0,1); (1,0); (1,1)] /\
  brushCells 32 32 5 5 2 = [(4,4); (4,5); (5,4); (5,5)].
Proof. vm_compute. auto. Qed.


Lemma stamp_spec_witness :
  wf 4 4 (makeGrid 4 4) /\
  wf 4 4 (stamp 4 4 (makeGrid 4 4) 0 3 3 "#000000") /\
  forall r c,
    get (stamp 4 4 (makeGrid 4 4) 0 3 3 "#000000") r c =
    if decide (0 - 3 / 2 <= r < 0 - 3 / 2 + 3 /\ 3 - 3 / 2 <= c < 3 - 3 / 2 + 3 /\
               0 <= r < 4 /\ 0 <= c < 4)
    then Some "#000000" else get (makeGrid 4 4) r c.
Proof. split; [apply wf_makeGrid|]. apply stamp_spec. apply wf_makeGrid. Defined.

End Brush.
