(* ===== verification/Connectivity.v ===== *)
(** * 4-connectivity of grid cells

    The graph theory behind [floodFill]'s contract: regions are stdpp
    [propset]s of cells, [conn S p q] is a path of 4-adjacent cells of [S]
    from [p] to [q], [comp S p] the component of [p] in [S], and [closed S U]
    says that no 4-step leaves [U] inside [S] (a union of components).
    The lemmas say how components behave when a cell or a union of
    components is removed from the region: this is what makes the
    depth-first fill, which paints a neighbour's component in the region
    left over by the previous neighbours, paint exactly one component.
    [conn] respects region equivalence ([Proper] instance), so regions
    computed from grids can be rewritten with [≡]. *)

From S2P Require Import Prelude.

Module Connectivity.

Abbreviation region := (propset (Z * Z)).

(** Two cells sharing an edge. *)
Definition adj4 (p q : Z * Z) : Prop := Z.abs (p.1 - q.1) + Z.abs (p.2 - q.2) = 1.

(** The four neighbours, in the order [floodFill] visits them: up, down,
    left, right. *)
Definition neighbours (p : Z * Z) : list (Z * Z) :=
  [(p.1 - 1, p.2); (p.1 + 1, p.2); (p.1, p.2 - 1); (p.1, p.2 + 1)].

(** A path of 4-adjacent cells of [S]. *)
Inductive conn (S : region) : Z * Z -> Z * Z -> Prop :=
  | conn_refl p : p ∈ S -> conn S p p
  | conn_step p q r : p ∈ S -> adj4 p q -> conn S q r -> conn S p r.

Definition comp (S : region) (p : Z * Z) : region := {[ q | conn S p q ]}.

(** No 4-step leaves [U] into the rest of [S]. *)
Definition closed (S U : region) : Prop :=
  forall y z, y ∈ U -> z ∈ S -> adj4 y z -> z ∈ U.

#[export] Hint Constructors conn : pixlet.

(** ** Lemmas *)

Lemma adj4_sym p q : adj4 p q -> adj4 q p.
Proof. unfold adj4. lia. Qed.

Lemma adj4_neighbours p n : adj4 p n <-> n ∈ neighbours p.
Proof.
  destruct p as [r c], n as [r' c']. unfold adj4, neighbours. simpl.
  rewrite !elem_of_cons, elem_of_nil. split.
  - intros H.
    assert ((r' = r - 1 /\ c' = c) \/ (r' = r + 1 /\ c' = c) \/
            (r' = r /\ c' = c - 1) \/ (r' = r /\ c' = c + 1)) as Hc by lia.
    destruct Hc as [[-> ->]|[[-> ->]|[[-> ->]|[-> ->]]]];
      [left|right; left|right; right; left|right; right; right; left]; reflexivity.
  - intros [H|[H|[H|[H|[]]]]]; injection H as -> ->; lia.
Qed.

Lemma conn_in_l S p q : conn S p q -> p ∈ S.
Proof. by destruct 1. Qed.

Lemma conn_in_r S p q : conn S p q -> q ∈ S.
Proof. induction 1; auto. Qed.

Lemma conn_mono S S' p q : S ⊆ S' -> conn S p q -> conn S' p q.
Proof. intros Hsub. induction 1; eauto with pixlet. Qed.

Lemma conn_trans S p q r : conn S p q -> conn S q r -> conn S p r.
Proof. induction 1; eauto with pixlet. Qed.

Lemma conn_sym S p q : conn S p q -> conn S q p.
Proof.
  induction 1 as [p Hp|p q r Hp Hpq Hqr IH]; [by constructor|].
  eapply conn_trans; [exact IH|]. apply (conn_step S q p p); [|by apply adj4_sym|by constructor].
  by apply conn_in_l in Hqr.
Qed.

#[export] Instance conn_proper : Proper ((≡) ==> (=) ==> (=) ==> iff) conn.
Proof.
  intros S S' HS p ? <- q ? <-. split; apply conn_mono; set_solver.
Qed.

#[export] Instance comp_proper : Proper ((≡) ==> (=) ==> (≡)) comp.
Proof. intros S S' HS p ? <- q. unfold comp. rewrite !elem_of_PropSet. by rewrite HS. Qed.

#[export] Instance closed_proper : Proper ((≡) ==> (≡) ==> iff) closed.
Proof. intros S S' HS U U' HU. unfold closed. split; intros H y z; set_solver. Qed.

Lemma closed_empty S : closed S ∅.
Proof. intros y z Hy. set_solver. Qed.

Lemma comp_closed S n : closed S (comp S n).
Proof.
  intros y z Hy Hz Hyz. unfold comp in *. rewrite elem_of_PropSet in *.
  eapply conn_trans; [exact Hy|]. econstructor; [by eapply conn_in_r|exact Hyz|by constructor].
Qed.

Lemma closed_conn S U a b : closed S U -> conn S a b -> a ∈ U -> b ∈ U.
Proof.
  intros Hcl. induction 1 as [p Hp|p q r Hp Hpq Hqr IH]; intros HpU; [done|].
  apply IH. apply (Hcl p q HpU); [by apply conn_in_l in Hqr|done].
Qed.

(** A path that starts outside a closed [U] never enters it. *)
Lemma conn_avoid S U a b : closed S U -> conn S a b -> a ∉ U -> conn (S ∖ U) a b.
Proof.
  intros Hcl. induction 1 as [p Hp|p q r Hp Hpq Hqr IH]; intros HpU.
  - constructor. set_solver.
  - assert (q ∉ U).
    { intros HqU. apply HpU. apply (Hcl q p HqU Hp). by apply adj4_sym. }
    econstructor; [set_solver|exact Hpq|by apply IH].
Qed.

(** Membership in a painted region is decidable by looking at the grid;
    the lemmas take that decision as a hypothesis. *)
Definition decided (U : region) : Prop := forall x, x ∈ U \/ x ∉ U.

Lemma closed_union S U V : decided U -> closed S U -> closed (S ∖ U) V -> closed S (U ∪ V).
Proof.
  intros Hdec HU HV y z Hy Hz Hyz. apply elem_of_union in Hy as [Hy|Hy].
  - apply elem_of_union_l. by apply (HU y).
  - destruct (Hdec z) as [|HzU]; [set_solver|].
    apply elem_of_union_r. apply (HV y z); [done|set_solver|done].
Qed.

(** One call of the fill, as seen by the graph: painting the component of
    [n] in what is left of [S] after [U] keeps the painted part closed and
    covers everything [n] reaches in [S]. *)
Lemma comp_step S U n :
  decided U -> closed S U ->
  closed S (U ∪ comp (S ∖ U) n) /\
  (forall q, conn S n q -> q ∈ U ∪ comp (S ∖ U) n).
Proof.
  intros Hdec HU. split; [apply closed_union; [done|done|apply comp_closed]|].
  intros q Hq. destruct (Hdec n) as [Hn|Hn].
  - apply elem_of_union_l. by apply (closed_conn S U n q).
  - apply elem_of_union_r. unfold comp. rewrite elem_of_PropSet. by apply conn_avoid.
Qed.

(** A path from [p]: either it ends at [p], or after its last visit to [p]
    it continues from a neighbour of [p] without using [p]. *)
Lemma conn_split S p a b :
  conn S a b ->
  b = p \/ (exists n, adj4 p n /\ conn (S ∖ {[p]}) n b) \/ conn (S ∖ {[p]}) a b.
Proof.
  induction 1 as [a Ha|a q b Ha Haq Hqb IH].
  - destruct (decide (a = p)) as [->|Hne]; [by left|].
    right; right. constructor. set_solver.
  - destruct IH as [->|[(n & Hn & Hc)|Hc]]; [by left|by right; left; eauto|].
    destruct (decide (a = p)) as [->|Hne]; [right; left; by exists q|].
    right; right. econstructor; [set_solver|exact Haq|exact Hc].
Qed.

(** A region containing the whole [h] x [w] rectangle connects any two of
    its cells: walk along rows, then along columns. *)
Lemma conn_box (S : region) (h w : Z) :
  (forall r c, 0 <= r < h -> 0 <= c < w -> (r, c) ∈ S) ->
  forall n r1 c1 r2 c2, 0 <= r1 < h -> 0 <= c1 < w -> 0 <= r2 < h -> 0 <= c2 < w ->
  Z.abs (r1 - r2) + Z.abs (c1 - c2) = Z.of_nat n -> conn S (r1, c1) (r2, c2).
Proof.
  intros HS n. induction n as [|n IH]; intros r1 c1 r2 c2 Hr1 Hc1 Hr2 Hc2 Hd.
  - replace r2 with r1 by lia. replace c2 with c1 by lia. constructor. auto.
  - assert (exists r1' c1', 0 <= r1' < h /\ 0 <= c1' < w /\ adj4 (r1, c1) (r1', c1') /\
              Z.abs (r1' - r2) + Z.abs (c1' - c2) = Z.of_nat n) as (r1' & c1' & ? & ? & ? & ?).
    { unfold adj4. simpl.
      destruct (Z.lt_total r1 r2) as [Hlt|[->|Hgt]];
        [exists (r1 + 1), c1 | | exists (r1 - 1), c1]; try (repeat split; lia).
      destruct (Z.lt_total c1 c2) as [Hlt|[->|Hgt]];
        [exists r2, (c1 + 1) | lia | exists r2, (c1 - 1)]; repeat split; lia. }
    econstructor; [auto|eassumption|]. by apply IH.
Qed.

End Connectivity.
