(* ===== verification/Bresenham.v ===== *)
(** * Stroke interpolator (Bresenham)

    App.vue's [drawLine(row0, col0, row1, col1)] computes
    [dx = |col1 - col0|], [dy = |row1 - row0|], the unit steps [sx], [sy]
    and [err = dx - dy], then runs [while (true)]: draw the current cell,
    stop at [(row1, col1)], otherwise compare [e2 = 2 * err] with [-dy] (step
    the column) and with [dx] (step the row).

    [lineLoop] is that loop, generic over the per-cell action [plot] (the
    editor instantiates it with [drawPixel]), with a [nat] fuel counting
    iterations; [lineCells] is the list of visited cells (the loop with the
    action "append the cell").  The loop with any action is the
    fold of that action over [lineCells] ([lineLoop_fold], which the editor
    uses to read [drawLine] as a stroke over those cells).  The theorem:
    [|dx| + |dy| + 1] iterations always suffice (termination: the JavaScript loop never spins);
    the cells start at the first end point, finish at the second, are
    8-connected, stay inside the bounding box of the end points and number
    exactly [max(dx, dy) + 1]: an invariant on [err] ([loop_length_col],
    [loop_length_row]) shows that every iteration steps along the major
    axis. *)

From S2P Require Import Prelude.

Module Bresenham.

Section Loop.
Context {S : Type} (plot : S -> Z -> Z -> S).

(** The body of [while (true)], one iteration per unit of fuel; [None] when
    the fuel runs out before the [break]. *)
Fixpoint lineLoop (fuel : nat) (row1 col1 dx dy sx sy : Z)
    (err currentRow currentCol : Z) (st : S) : option S :=
  match fuel with
  | O => None
  | Datatypes.S fuel' =>
      let st := plot st currentRow currentCol in
      if (currentRow =? row1) && (currentCol =? col1) then Some st else
      let e2 := 2 * err in
      let '(err, currentCol) :=
        if e2 >? - dy then (err - dy, currentCol + sx) else (err, currentCol) in
      let '(err, currentRow) :=
        if e2 <? dx then (err + dx, currentRow + sy) else (err, currentRow) in
      lineLoop fuel' row1 col1 dx dy sx sy err currentRow currentCol st
  end.

(** [drawLine]: the set-up of [dx], [dy], [sx], [sy], [err], then the loop. *)
Definition drawLineWith (fuel : nat) (st : S) (row0 col0 row1 col1 : Z) : option S :=
  let dx := Z.abs (col1 - col0) in
  let dy := Z.abs (row1 - row0) in
  let sx := if col0 <? col1 then 1 else -1 in
  let sy := if row0 <? row1 then 1 else -1 in
  lineLoop fuel row1 col1 dx dy sx sy (dx - dy) row0 col0 st.

End Loop.

(** The iteration budget that the termination theorem shows sufficient. *)
Definition lineFuel (row0 col0 row1 col1 : Z) : nat :=
  Datatypes.S (Z.to_nat (Z.abs (col1 - col0) + Z.abs (row1 - row0))).

(** The cells the loop visits, in order. *)
Definition lineCells (row0 col0 row1 col1 : Z) : option (list (Z * Z)) :=
  drawLineWith (fun (acc : list (Z * Z)) r c => acc ++ [(r, c)]) (lineFuel row0 col0 row1 col1)
    [] row0 col0 row1 col1.

(** Two cells at most one row and one column apart. *)
Definition adj8 (p q : Z * Z) : Prop := Z.abs (q.1 - p.1) <= 1 /\ Z.abs (q.2 - p.2) <= 1.

Fixpoint chain8 (l : list (Z * Z)) : Prop :=
  match l with
  | p :: ((q :: _) as t) => adj8 p q /\ chain8 t
  | _ => True
  end.

(** ** The loop with any action is a fold over the visited cells *)

(** The action that records the visited cell. *)
Abbreviation trace := (fun (acc : list (Z * Z)) (r c : Z) => acc ++ [(r, c)]).

Section Fusion.
Context (row1 col1 dx dy sx sy : Z).

Lemma lineLoop_trace_acc fuel err r c (acc : list (Z * Z)) :
  lineLoop trace fuel row1 col1 dx dy sx sy err r c acc =
  option_map (fun cs => acc ++ cs) (lineLoop trace fuel row1 col1 dx dy sx sy err r c []).
Proof.
  revert err r c acc. induction fuel as [|fuel IH]; intros err r c acc; [done|].
  cbn [lineLoop]. destruct (_ && _); [done|].
  destruct (2 * err >? - dy), (2 * err <? dx);
    rewrite IH, (IH _ _ _ [(r, c)]); destruct (lineLoop _ _ _ _ _ _ _ _ _ _ _ _);
    simpl; try done; by rewrite <- app_assoc.
Qed.

Lemma lineLoop_fold {S} (plot : S -> Z -> Z -> S) fuel err r c st :
  lineLoop plot fuel row1 col1 dx dy sx sy err r c st =
  option_map (fun cs => fold_left (fun st q => plot st q.1 q.2) cs st)
    (lineLoop trace fuel row1 col1 dx dy sx sy err r c []).
Proof.
  revert err r c st. induction fuel as [|fuel IH]; intros err r c st; [done|].
  cbn [lineLoop]. destruct (_ && _); [done|].
  destruct (2 * err >? - dy), (2 * err <? dx); cbn [app];
    rewrite IH, (lineLoop_trace_acc _ _ _ _ [(r, c)]);
    destruct (lineLoop trace _ _ _ _ _ _ _ _ _ _ []); done.
Qed.

End Fusion.

(** ** Analysis of the loop

    After [kc] column steps and [kr] row steps the loop is at
    [(row0 + sy * kr, col0 + sx * kc)] with [err = dx (1 + kr) - dy (1 + kc)].
    A column step never passes [col1], a row step never passes [row1], and
    each iteration that does not stop makes at least one step, so
    [(dx - kc) + (dy - kr)] decreases. *)

Section Analysis.
Context (row0 col0 dx dy sx sy : Z).
Hypothesis Hdx : 0 <= dx.
Hypothesis Hdy : 0 <= dy.
Hypothesis Hsx : sx = 1 \/ sx = -1.
Hypothesis Hsy : sy = 1 \/ sy = -1.

Definition errAt (kc kr : Z) : Z := dx * (1 + kr) - dy * (1 + kc).
Definition cellAt (kc kr : Z) : Z * Z := (row0 + sy * kr, col0 + sx * kc).

(** A cell of the line: [kc <= dx] column steps and [kr <= dy] row steps
    from the start. *)
Definition onLine (q : Z * Z) : Prop :=
  exists kc kr, 0 <= kc <= dx /\ 0 <= kr <= dy /\ q = cellAt kc kr.

Lemma col_step_bound kc kr : 0 <= kc <= dx -> 0 <= kr <= dy -> ~ (kc = dx /\ kr = dy) ->
  2 * errAt kc kr > - dy -> kc < dx.
Proof. unfold errAt. intros. nia. Qed.

Lemma row_step_bound kc kr : 0 <= kc <= dx -> 0 <= kr <= dy -> ~ (kc = dx /\ kr = dy) ->
  2 * errAt kc kr < dx -> kr < dy.
Proof. unfold errAt. intros. nia. Qed.

Lemma some_step kc kr : 0 <= kc <= dx -> 0 <= kr <= dy -> ~ (kc = dx /\ kr = dy) ->
  ~ (2 * errAt kc kr > - dy) -> ~ (2 * errAt kc kr < dx) -> False.
Proof. unfold errAt. intros. nia. Qed.

Lemma at_end kc kr : 0 <= kc <= dx -> 0 <= kr <= dy ->
  ((row0 + sy * kr =? row0 + sy * dy) && (col0 + sx * kc =? col0 + sx * dx)) = true <->
  kc = dx /\ kr = dy.
Proof.
  intros. rewrite andb_true_iff, !Z.eqb_eq.
  destruct Hsx, Hsy; subst; lia.
Qed.

Lemma adj8_cellAt kc kr kc' kr' :
  kc <= kc' <= kc + 1 -> kr <= kr' <= kr + 1 -> adj8 (cellAt kc kr) (cellAt kc' kr').
Proof. unfold adj8, cellAt. simpl. destruct Hsx, Hsy; subst; lia. Qed.

Lemma onLine_cellAt kc kr : 0 <= kc <= dx -> 0 <= kr <= dy -> onLine (cellAt kc kr).
Proof. intros. exists kc, kr. auto. Qed.

Abbreviation loopFrom fuel kc kr :=
  (lineLoop trace fuel (row0 + sy * dy) (col0 + sx * dx) dx dy sx sy
     (errAt kc kr) (fst (cellAt kc kr)) (snd (cellAt kc kr)) []).

Ltac same_run :=
  cbn [app]; rewrite (lineLoop_trace_acc _ _ _ _ _ _ _ _ _ _ [_]);
  match goal with
  | |- option_map _ (lineLoop _ _ _ _ _ _ _ _ ?e ?r ?c _) =
       option_map _ (lineLoop _ _ _ _ _ _ _ _ ?e' ?r' ?c' _) =>
      replace e with e' by (unfold errAt; lia);
      replace r with r' by lia; replace c with c' by lia
  end;
  destruct (lineLoop _ _ _ _ _ _ _ _ _ _ _ _); reflexivity.

(** What one more loop iteration produces from a state that is not the
    end: the cells of the remaining run, prefixed by the current cell. *)
Lemma loop_unfold fuel kc kr :
  0 <= kc <= dx -> 0 <= kr <= dy -> ~ (kc = dx /\ kr = dy) ->
  exists kc' kr', kc <= kc' <= kc + 1 /\ kr <= kr' <= kr + 1 /\
    kc + kr < kc' + kr' /\ kc' <= dx /\ kr' <= dy /\
    (kc' = kc + 1 <-> - dy < 2 * errAt kc kr) /\ (kr' = kr + 1 <-> 2 * errAt kc kr < dx) /\
    loopFrom (Datatypes.S fuel) kc kr =
    option_map (fun cs => cellAt kc kr :: cs) (loopFrom fuel kc' kr').
Proof.
  intros Hkc Hkr Hne. cbn [lineLoop].
  assert (((row0 + sy * kr =? row0 + sy * dy) && (col0 + sx * kc =? col0 + sx * dx)) = false)
    as Hf by (destruct (_ && _) eqn:E; [apply at_end in E; tauto|done]).
  cbn [fst snd cellAt]. rewrite Hf. rewrite Z.gtb_ltb.
  destruct (Z.ltb_spec (- dy) (2 * errAt kc kr)) as [Hc|Hc];
  destruct (Z.ltb_spec (2 * errAt kc kr) dx) as [Hr|Hr].
  - pose proof (col_step_bound kc kr Hkc Hkr Hne ltac:(lia)).
    pose proof (row_step_bound kc kr Hkc Hkr Hne Hr).
    exists (kc + 1), (kr + 1). do 7 (split; [lia|]).
    same_run.
  - pose proof (col_step_bound kc kr Hkc Hkr Hne ltac:(lia)).
    exists (kc + 1), kr. do 7 (split; [lia|]).
    same_run.
  - pose proof (row_step_bound kc kr Hkc Hkr Hne Hr).
    exists kc, (kr + 1). do 7 (split; [lia|]).
    same_run.
  - exfalso. apply (some_step kc kr); lia.
Qed.

(** Enough fuel: from any reachable state the loop stops, at [(row1, col1)],
    after an 8-connected run of cells of the line, one per iteration. *)
Lemma loop_run fuel kc kr :
  0 <= kc <= dx -> 0 <= kr <= dy -> (dx - kc) + (dy - kr) < Z.of_nat fuel ->
  exists cs, loopFrom fuel kc kr = Some (cellAt kc kr :: cs) /\
    last (cellAt kc kr :: cs) = Some (cellAt dx dy) /\
    chain8 (cellAt kc kr :: cs) /\ Forall onLine (cellAt kc kr :: cs) /\
    (length cs <= Z.to_nat ((dx - kc) + (dy - kr)))%nat.
Proof.
  revert kc kr. induction fuel as [|fuel IH]; intros kc kr Hkc Hkr Hf; [lia|].
  destruct (decide (kc = dx /\ kr = dy)) as [[-> ->]|Hne].
  - exists []. cbn [lineLoop cellAt fst snd]. rewrite (proj2 (at_end dx dy Hkc Hkr)) by lia.
    split; [done|]. split; [done|]. split; [done|]. split; [|simpl; lia].
    constructor; [by apply onLine_cellAt|constructor].
  - destruct (loop_unfold fuel kc kr Hkc Hkr Hne)
      as (kc' & kr' & Hc' & Hr' & Hlt & Hc'' & Hr'' & _ & _ & ->).
    destruct (IH kc' kr') as (cs & -> & Hlast & Hchain & Hon & Hlen); [lia..|].
    exists (cellAt kc' kr' :: cs). simpl. split; [done|]. split; [done|].
    split; [split; [by apply adj8_cellAt|done]|].
    split; [constructor; [apply onLine_cellAt; lia|done]|]. simpl in Hlen. lia.
Qed.

(** A coordinate that moves by one exactly when the guard [P] holds. *)
Lemma step_by_guard (k k' : Z) (P : Prop) `{Decision P} :
  k <= k' <= k + 1 -> (k' = k + 1 <-> P) -> k' = k + if bool_decide P then 1 else 0.
Proof. intros Hk HP. case_bool_decide as Hb; [by apply HP|]. assert (k' <> k + 1) by tauto. lia. Qed.

(** The error after one iteration: [- dy] for a column step, [+ dx] for a
    row step. *)
Lemma errAt_next kc kr kc' kr' :
  kc <= kc' <= kc + 1 -> kr <= kr' <= kr + 1 ->
  (kc' = kc + 1 <-> - dy < 2 * errAt kc kr) -> (kr' = kr + 1 <-> 2 * errAt kc kr < dx) ->
  errAt kc' kr' = errAt kc kr - (if bool_decide (- dy < 2 * errAt kc kr) then dy else 0)
                              + (if bool_decide (2 * errAt kc kr < dx) then dx else 0).
Proof.
  intros Hc Hr Hic Hir.
  rewrite (step_by_guard kc kc' _ Hc Hic), (step_by_guard kr kr' _ Hr Hir).
  destruct (bool_decide (- dy < _)), (bool_decide (_ < dx)); unfold errAt; ring.
Qed.

(** Counting iterations: if an invariant [I] makes every iteration lower a
    measure [m] by exactly one, and [m] is [0] at the end point, the run
    from a state has [m + 1] cells. *)
Lemma loop_length (I : Z -> Z -> Prop) (m : Z -> Z -> Z) :
  (forall kc kr, 0 <= kc <= dx -> 0 <= kr <= dy -> I kc kr -> 0 <= m kc kr) ->
  m dx dy = 0 ->
  (forall kc kr kc' kr', 0 <= kc <= dx -> 0 <= kr <= dy -> ~ (kc = dx /\ kr = dy) -> I kc kr ->
     kc <= kc' <= kc + 1 -> kr <= kr' <= kr + 1 ->
     (kc' = kc + 1 <-> - dy < 2 * errAt kc kr) -> (kr' = kr + 1 <-> 2 * errAt kc kr < dx) ->
     I kc' kr' /\ m kc' kr' = m kc kr - 1) ->
  forall fuel kc kr l, 0 <= kc <= dx -> 0 <= kr <= dy -> I kc kr ->
    loopFrom fuel kc kr = Some l -> length l = Datatypes.S (Z.to_nat (m kc kr)).
Proof.
  intros Hpos Hend Hstep fuel. induction fuel as [|fuel IH]; intros kc kr l Hkc Hkr HI Hl; [done|].
  destruct (decide (kc = dx /\ kr = dy)) as [[-> ->]|Hne].
  - cbn [lineLoop cellAt fst snd] in Hl. rewrite (proj2 (at_end dx dy Hkc Hkr)) in Hl by lia.
    injection Hl as <-. rewrite Hend. done.
  - destruct (loop_unfold fuel kc kr Hkc Hkr Hne)
      as (kc' & kr' & Hc' & Hr' & _ & Hc'' & Hr'' & Hic & Hir & E).
    rewrite E in Hl. destruct (loopFrom fuel kc' kr') as [l'|] eqn:E'; [|done].
    injection Hl as <-. destruct (Hstep kc kr kc' kr') as [HI' Hm]; try done.
    cbn [length]. rewrite (IH kc' kr' l') by (done || lia). pose proof (Hpos kc' kr' ltac:(lia) ltac:(lia) HI') as Hp. lia.
Qed.

(** Where the column distance is the larger one, every iteration steps the
    column: [-dy < 2 err < 3 dx - 2 dy] holds throughout. *)
Lemma loop_length_col fuel l :
  dy <= dx -> 0 < dx -> loopFrom fuel 0 0 = Some l -> length l = Datatypes.S (Z.to_nat dx).
Proof.
  intros Hle Hpos Hl.
  transitivity (Datatypes.S (Z.to_nat ((fun kc (_ : Z) => dx - kc) 0 0))); [|cbv beta; by rewrite Z.sub_0_r].
  apply (loop_length (fun kc kr => - dy < 2 * errAt kc kr < 3 * dx - 2 * dy) (fun kc (_ : Z) => dx - kc)) with (fuel := fuel) (kc := 0) (kr := 0);
    [intros; lia|lia| |lia|lia|unfold errAt; lia|exact Hl].
  intros kc kr kc' kr' ? ? ? HI ? ? Hic Hir.
  assert (kc' = kc + 1) by (apply Hic; lia).
  rewrite (errAt_next kc kr kc' kr') by done. do 2 case_bool_decide; lia.
Qed.

(** Symmetrically, where the row distance is the larger one, every
    iteration steps the row: [-(3 dy - 2 dx) < 2 err < dx]. *)
Lemma loop_length_row fuel l :
  dx <= dy -> 0 < dy -> loopFrom fuel 0 0 = Some l -> length l = Datatypes.S (Z.to_nat dy).
Proof.
  intros Hle Hpos Hl.
  transitivity (Datatypes.S (Z.to_nat ((fun (_ : Z) kr => dy - kr) 0 0))); [|cbv beta; by rewrite Z.sub_0_r].
  apply (loop_length (fun kc kr => - (3 * dy - 2 * dx) < 2 * errAt kc kr < dx) (fun (_ : Z) kr => dy - kr)) with (fuel := fuel) (kc := 0) (kr := 0);
    [intros; lia|lia| |lia|lia|unfold errAt; lia|exact Hl].
  intros kc kr kc' kr' ? ? ? HI ? ? Hic Hir.
  assert (kr' = kr + 1) by (apply Hir; lia).
  rewrite (errAt_next kc kr kc' kr') by done. do 2 case_bool_decide; lia.
Qed.

Lemma onLine_box q : onLine q ->
  Z.min row0 (row0 + sy * dy) <= q.1 <= Z.max row0 (row0 + sy * dy) /\
  Z.min col0 (col0 + sx * dx) <= q.2 <= Z.max col0 (col0 + sx * dx).
Proof.
  intros (kc & kr & Hkc & Hkr & ->). unfold cellAt. simpl.
  destruct Hsx, Hsy; subst; lia.
Qed.

End Analysis.

(** The box spanned by the two end points. *)
Definition inBox (row0 col0 row1 col1 : Z) (q : Z * Z) : Prop :=
  Z.min row0 row1 <= q.1 <= Z.max row0 row1 /\ Z.min col0 col1 <= q.2 <= Z.max col0 col1.

Lemma lineCells_run (row0 col0 row1 col1 : Z) :
  exists cs, lineCells row0 col0 row1 col1 = Some ((row0, col0) :: cs) /\
    last ((row0, col0) :: cs) = Some (row1, col1) /\
    chain8 ((row0, col0) :: cs) /\
    Forall (inBox row0 col0 row1 col1) ((row0, col0) :: cs) /\
    length cs = Z.to_nat (Z.max (Z.abs (col1 - col0)) (Z.abs (row1 - row0))).
Proof.
  set (dx := Z.abs (col1 - col0)). set (dy := Z.abs (row1 - row0)).
  set (sx := if col0 <? col1 then 1 else -1). set (sy := if row0 <? row1 then 1 else -1).
  assert (Hsx : sx = 1 \/ sx = -1) by (unfold sx; case_zb; auto).
  assert (Hsy : sy = 1 \/ sy = -1) by (unfold sy; case_zb; auto).
  assert (E1 : row0 + sy * dy = row1) by (unfold sy, dy; case_zb; lia).
  assert (E2 : col0 + sx * dx = col1) by (unfold sx, dx; case_zb; lia).
  destruct (loop_run row0 col0 dx dy sx sy ltac:(lia) ltac:(lia) Hsx Hsy
              (lineFuel row0 col0 row1 col1) 0 0) as (cs & Hrun & Hlast & Hch & Hon & Hlen);
    [lia|lia|unfold lineFuel; lia|].
  assert (Hlen' : length (cellAt row0 col0 sx sy 0 0 :: cs) = Datatypes.S (Z.to_nat (Z.max dx dy))).
  { destruct (decide (dx = 0 /\ dy = 0)) as [[Ex Ey]|Hne].
    - rewrite Ex, Ey in Hlen. simpl in Hlen. destruct cs; [simpl; lia|simpl in Hlen; lia].
    - destruct (decide (dy <= dx)).
      + rewrite (loop_length_col row0 col0 dx dy sx sy ltac:(lia) ltac:(lia) Hsx Hsy _ _ ltac:(lia) ltac:(lia) Hrun). lia.
      + rewrite (loop_length_row row0 col0 dx dy sx sy ltac:(lia) ltac:(lia) Hsx Hsy _ _ ltac:(lia) ltac:(lia) Hrun). lia. }
  unfold cellAt, errAt in *. cbn [fst snd] in *. rewrite E1, E2 in *.
  rewrite !Z.mul_0_r, !Z.add_0_r, !Z.mul_1_r in *.
  exists cs. split; [exact Hrun|]. split; [exact Hlast|]. split; [exact Hch|].
  split; [|simpl in Hlen'; lia]. eapply Forall_impl; [exact Hon|]. intros q Hq.
  pose proof (onLine_box row0 col0 dx dy sx sy ltac:(lia) ltac:(lia) Hsx Hsy q Hq).
  unfold inBox. rewrite <- E1, <- E2. lia.
Qed.

(** C10: [drawLine] terminates within [lineFuel] iterations, and the cells it
    hands to [drawPixel] start at [(row0, col0)], end at [(row1, col1)],
    are 8-connected, stay inside the end points' box, and number exactly
    [max(dx, dy) + 1], the bound the specification states. *)
Theorem lineCells_spec (row0 col0 row1 col1 : Z) :
  exists cs, lineCells row0 col0 row1 col1 = Some ((row0, col0) :: cs) /\
    last ((row0, col0) :: cs) = Some (row1, col1) /\
    chain8 ((row0, col0) :: cs) /\
    Forall (inBox row0 col0 row1 col1) ((row0, col0) :: cs) /\
    length cs = Z.to_nat (Z.max (Z.abs (col1 - col0)) (Z.abs (row1 - row0))).
Proof. apply lineCells_run. Qed.

(** The specification's examples: a pure diagonal and a horizontal run. *)
Example lineCells_examples :
  lineCells 0 0 5 5 = Some [(0,0); (1,1); (2,2); (3,3); (4,4); (5,5)] /\
  lineCells 0 0 0 5 = Some [(0,0); (0,1); (0,2); (0,3); (0,4); (0,5)].
Proof. vm_compute. auto. Qed.

(** An invariant of the per-cell action is an invariant of the whole loop. *)
Lemma lineLoop_preserves {S} (P : S -> Prop) (plot : S -> Z -> Z -> S) :
  (forall st r c, P st -> P (plot st r c)) ->
  forall fuel row1 col1 dx dy sx sy err r c st st',
  P st -> lineLoop plot fuel row1 col1 dx dy sx sy err r c st = Some st' -> P st'.
Proof.
  intros Hplot fuel. induction fuel as [|fuel IH]; intros row1 col1 dx dy sx sy err r c st st' Hst;
    [done|].
  cbn [lineLoop]. destruct (_ && _); [intros [= <-]; by apply Hplot|].
  destruct (2 * err >? - dy), (2 * err <? dx); apply IH; by apply Hplot.
Qed.

End Bresenham.
