(* ===== verification/FloodFill.v ===== *)
(** * Flood fill

    App.vue's [floodFill(row, col, targetColor, replacementColor)]: return
    at once when the two colours are equal, when the cell is outside the
    grid, or when its colour is not the target; otherwise paint it and
    recurse on the cell above, below, left and right, in that order.

    [floodFill] takes a [nat] fuel bounding the recursion depth and returns
    [None] only when the fuel runs out.  The contract is stated with the
    graph notions of [Connectivity.v]: [colored g t] is the region of cells
    of colour [t], and a fill must paint exactly the 4-connected component
    of [(row, col)] in that region ([painted]).  The main theorem shows that
    with more fuel than there are target-coloured cells the fill returns and
    paints exactly that component; corollaries give the grid-size fuel the
    editor uses, the same-colour no-op, and the uniform-grid case. *)

From S2P Require Import Prelude Grid Connectivity.

Module FloodFill.
Import Grid Connectivity.

(** The recursive fill; [fuel] bounds the depth of the JavaScript call
    stack. *)
Fixpoint floodFill (fuel : nat) (h w : Z) (g : grid) (row col : Z)
    (targetColor replacementColor : color) : option grid :=
  match fuel with
  | O => None
  | S fuel' =>
      if String.eqb targetColor replacementColor then Some g else
      if (row <? 0) || (row >=? h) || (col <? 0) || (col >=? w) then Some g else
      if match get g row col with
         | Some x => negb (String.eqb x targetColor)
         | None => true
         end
      then Some g else
      let g := set g row col replacementColor in
      g ← floodFill fuel' h w g (row - 1) col targetColor replacementColor;
      g ← floodFill fuel' h w g (row + 1) col targetColor replacementColor;
      g ← floodFill fuel' h w g row (col - 1) targetColor replacementColor;
      floodFill fuel' h w g row (col + 1) targetColor replacementColor
  end.

(** The cells of colour [t]. *)
Definition colored (g : grid) (t : color) : region := {[ q | (get g q.1 q.2 = Some t) ]}.

(** The number of cells of colour [t]: the measure of the recursion. *)
Definition count (h w : Z) (g : grid) (t : color) : nat :=
  length (List.filter (fun q => bool_decide (get g q.1 q.2 = Some t)) (cells h w)).

(** The fuel the editor can always afford: one more than the grid's cells. *)
Definition fillFuel (h w : Z) : nat := S (Z.to_nat h * Z.to_nat w).

(** [g'] is [g] with exactly the cells of [U] repainted [rep]. *)
Definition painted (g : grid) (U : region) (rep : color) (g' : grid) : Prop :=
  forall q, ((q ∈ U) /\ get g' q.1 q.2 = Some rep) \/ ((q ∉ U) /\ get g' q.1 q.2 = get g q.1 q.2).

(** ** Painting lemmas *)

Lemma painted_refl g rep : painted g ∅ rep g.
Proof. intros q. right. set_solver. Qed.

Lemma painted_trans g g1 g2 U V rep :
  painted g U rep g1 -> painted g1 V rep g2 -> painted g (U ∪ V) rep g2.
Proof.
  intros H1 H2 q. destruct (H2 q) as [[HV E2]|[HV E2]]; [left; set_solver|].
  destruct (H1 q) as [[HU E1]|[HU E1]]; [left|right]; rewrite E2; set_solver.
Qed.

Lemma painted_equiv g g' U V rep : U ≡ V -> painted g U rep g' -> painted g V rep g'.
Proof. intros HUV H q. destruct (H q); [left|right]; set_solver. Qed.

Lemma painted_decided g g' U rep : painted g U rep g' -> decided U.
Proof. intros H q. destruct (H q); tauto. Qed.

Lemma painted_colored g g' U t rep :
  t <> rep -> painted g U rep g' -> colored g' t ≡ colored g t ∖ U.
Proof.
  intros Htr H q. unfold colored. rewrite elem_of_difference, !elem_of_PropSet.
  destruct (H q) as [[HU ->]|[HU ->]]; split; try tauto; intros; simplify_eq.
Qed.

Lemma set_painted g row col rep h w :
  wf h w g -> 0 <= row < h -> 0 <= col < w ->
  painted g {[(row, col)]} rep (set g row col rep).
Proof.
  intros Hwf Hr Hc [r c]. simpl. rewrite elem_of_singleton.
  destruct (decide ((row, col) = (r, c))) as [E|E].
  - injection E as <- <-. left. split; [done|].
    rewrite get_set_eq. by destruct (get_in_bounds g h w row col Hwf Hr Hc) as [x ->].
  - right. split; [congruence|]. by apply get_set_ne.
Qed.

Lemma painted_none g U rep : (forall q, q ∉ U) -> painted g U rep g.
Proof. intros H q. right. auto. Qed.

(** ** The measure *)

(** Whatever it paints, a fill that returns keeps the grid's shape. *)
Lemma floodFill_wf fuel h w g row col t rep g' :
  wf h w g -> floodFill fuel h w g row col t rep = Some g' -> wf h w g'.
Proof.
  revert g row col g'. induction fuel as [|fuel IH]; intros g row col g' Hwf; cbn [floodFill]; [done|].
  destruct (String.eqb _ _); [by intros [= <-]|].
  destruct (_ || _ || _ || _); [by intros [= <-]|].
  destruct (match get g row col with Some x => negb (String.eqb x t) | None => true end);
    [by intros [= <-]|].
  apply (wf_set h w g row col rep) in Hwf.
  destruct (floodFill fuel h w _ (row - 1) col t rep) as [g1|] eqn:E1; [|done]. cbn.
  apply IH in E1; [|done].
  destruct (floodFill fuel h w g1 (row + 1) col t rep) as [g2|] eqn:E2; [|done]. cbn.
  apply IH in E2; [|done].
  destruct (floodFill fuel h w g2 row (col - 1) t rep) as [g3|] eqn:E3; [|done]. cbn.
  apply IH in E3; [|done]. by apply IH.
Qed.

Lemma count_mono h w g g' t :
  colored g' t ⊆ colored g t -> (count h w g' t <= count h w g t)%nat.
Proof.
  intros Hsub. apply filter_length_mono. intros q _. rewrite !bool_decide_eq_true.
  specialize (Hsub q). unfold colored in Hsub. rewrite !elem_of_PropSet in Hsub. done.
Qed.

Lemma count_strict h w g g' t p :
  colored g' t ⊆ colored g t -> 0 <= p.1 < h -> 0 <= p.2 < w ->
  p ∈ colored g t -> p ∉ colored g' t -> (count h w g' t < count h w g t)%nat.
Proof.
  intros Hsub Hr Hc Hp Hp'. apply (filter_length_strict _ _ _ p).
  - intros q _. rewrite !bool_decide_eq_true.
    specialize (Hsub q). unfold colored in Hsub. rewrite !elem_of_PropSet in Hsub. done.
  - destruct p. by apply in_cells.
  - apply bool_decide_eq_true. unfold colored in Hp. by rewrite elem_of_PropSet in Hp.
  - apply bool_decide_eq_false. unfold colored in Hp'. by rewrite elem_of_PropSet in Hp'.
Qed.

Lemma count_le_size h w g t : (count h w g t <= Z.to_nat h * Z.to_nat w)%nat.
Proof. unfold count. rewrite <- length_cells. apply filter_length_le. Qed.

Lemma outside_test h w row col :
  (row <? 0) || (row >=? h) || (col <? 0) || (col >=? w) = negb (inBounds h w row col).
Proof. unfold inBounds. case_zb; try reflexivity; lia. Qed.

Lemma colored_in_bounds h w g t q :
  wf h w g -> q ∈ colored g t -> inBounds h w q.1 q.2 = true.
Proof.
  intros Hwf Hq. unfold colored in Hq. rewrite elem_of_PropSet in Hq.
  apply inBounds_spec. by eapply get_Some_bounds.
Qed.

(** ** The contract *)

Section Contract.
Context (h w : Z) (t rep : color).
Hypothesis Htr : t <> rep.

(** The induction hypothesis of the main theorem, for fuel [f]. *)
Definition fills (f : nat) : Prop :=
  forall g row col, wf h w g -> (count h w g t < f)%nat ->
  exists g', floodFill f h w g row col t rep = Some g' /\ wf h w g' /\
    painted g (comp (colored g t) (row, col)) rep g'.

(** One recursive call, made after the cells [U] of the region [colored g1 t]
    (a closed union of components) have been painted: it paints the
    component of [n] in what is left, and what it paints together with [U]
    is again closed and covers everything [n] reaches. *)
Lemma call_step f g1 gi U n :
  fills f -> wf h w gi -> (count h w g1 t < f)%nat ->
  painted g1 U rep gi -> closed (colored g1 t) U ->
  exists gi', floodFill f h w gi n.1 n.2 t rep = Some gi' /\ wf h w gi' /\
    painted g1 (U ∪ comp (colored g1 t ∖ U) n) rep gi' /\
    closed (colored g1 t) (U ∪ comp (colored g1 t ∖ U) n) /\
    (forall q, conn (colored g1 t) n q -> q ∈ U ∪ comp (colored g1 t ∖ U) n).
Proof.
  intros IH Hwf Hc HU Hcl.
  assert (Hcol : colored gi t ≡ colored g1 t ∖ U) by (eapply painted_colored; eauto).
  destruct (IH gi n.1 n.2 Hwf) as (gi' & Hrun & Hwf' & Hp).
  { apply (Nat.le_lt_trans _ (count h w g1 t)); [apply count_mono; rewrite Hcol; set_solver|done]. }
  destruct (comp_step (colored g1 t) U n) as [Hcl' Hreach]; [by eapply painted_decided|done|].
  exists gi'. do 2 (split; [done|]). split; [|done].
  eapply painted_equiv; [|eapply painted_trans; [exact HU|exact Hp]].
  rewrite Hcol. by destruct n.
Qed.

Lemma sub_comp g g1 U p n :
  colored g1 t ⊆ colored g t -> p ∈ colored g t -> adj4 p n ->
  comp (colored g1 t ∖ U) n ⊆ comp (colored g t) p.
Proof.
  intros Hsub Hp Hn q. unfold comp. rewrite !elem_of_PropSet. intros Hq.
  econstructor; [exact Hp|exact Hn|]. eapply conn_mono; [|exact Hq]. set_solver.
Qed.

(** Starting on a cell that is not of the target colour, there is nothing to
    paint. *)
Lemma fill_nothing g row col :
  (row, col) ∉ colored g t -> painted g (comp (colored g t) (row, col)) rep g.
Proof.
  intros Hn. apply painted_none. intros q Hq. apply Hn.
  unfold comp in Hq. rewrite elem_of_PropSet in Hq. by apply conn_in_l in Hq.
Qed.

(** What the four calls paint, with the start cell, is the start cell's
    component. *)
Lemma four_calls_comp g g1 p U1 U2 U3 U4 :
  colored g1 t ≡ colored g t ∖ {[p]} -> p ∈ colored g t ->
  U1 ≡ ∅ ∪ comp (colored g1 t ∖ ∅) (p.1 - 1, p.2) ->
  U2 ≡ U1 ∪ comp (colored g1 t ∖ U1) (p.1 + 1, p.2) ->
  U3 ≡ U2 ∪ comp (colored g1 t ∖ U2) (p.1, p.2 - 1) ->
  U4 ≡ U3 ∪ comp (colored g1 t ∖ U3) (p.1, p.2 + 1) ->
  (forall q, conn (colored g1 t) (p.1 - 1, p.2) q -> q ∈ U1) ->
  (forall q, conn (colored g1 t) (p.1 + 1, p.2) q -> q ∈ U2) ->
  (forall q, conn (colored g1 t) (p.1, p.2 - 1) q -> q ∈ U3) ->
  (forall q, conn (colored g1 t) (p.1, p.2 + 1) q -> q ∈ U4) ->
  {[p]} ∪ U4 ≡ comp (colored g t) p.
Proof.
  intros Hcol Hp E1 E2 E3 E4 R1 R2 R3 R4.
  assert (Hsub : colored g1 t ⊆ colored g t) by (rewrite Hcol; set_solver).
  assert (Hadj : forall n, n ∈ neighbours p -> adj4 p n) by (intros n; apply adj4_neighbours).
  pose proof (fun U n Hn => sub_comp g g1 U p n Hsub Hp (Hadj n Hn)) as Hs.
  unfold neighbours in Hs.
  assert (Cp : p ∈ comp (colored g t) p)
    by (unfold comp; rewrite elem_of_PropSet; by constructor).
  intros q. split.
  - rewrite E4, E3, E2, E1. intros Hq.
    repeat match type of Hq with _ ∈ _ ∪ _ => apply elem_of_union in Hq as [Hq|Hq] end;
      try (apply elem_of_singleton in Hq; by subst q);
      try (by apply elem_of_empty in Hq);
      (eapply Hs; [|exact Hq]); set_solver.
  - unfold comp at 1. rewrite elem_of_PropSet. intros Hq.
    destruct (conn_split _ p _ _ Hq) as [->|[(n & Hn & Hc)|Hc]]; [set_solver| |].
    + rewrite <- Hcol in Hc. apply adj4_neighbours in Hn. unfold neighbours in Hn.
      rewrite !elem_of_cons, elem_of_nil in Hn.
      destruct Hn as [->|[->|[->|[->|[]]]]];
        [apply R1 in Hc|apply R2 in Hc|apply R3 in Hc|apply R4 in Hc]; set_solver.
    + apply conn_in_l in Hc. set_solver.
Qed.

(** Main theorem: with more fuel than there are cells of the target colour,
    [floodFill] returns, keeps the grid's shape, and repaints exactly the
    4-connected component of the start cell among the cells of the target
    colour; every other cell keeps its colour. *)
Theorem floodFill_paints fuel : fills fuel.
Proof.
  induction fuel as [|f IH]; intros g row col Hwf Hc; [lia|].
  cbn [floodFill]. rewrite (proj2 (String.eqb_neq t rep) Htr), outside_test.
  destruct (inBounds h w row col) eqn:Eb; cbn [negb].
  2: { exists g. split; [done|]. split; [done|]. apply fill_nothing.
       intros Hin. apply (colored_in_bounds h w) in Hin; [simpl in Hin; congruence|done]. }
  destruct (get g row col) as [x|] eqn:Eg.
  2: { exists g. split; [done|]. split; [done|]. apply fill_nothing.
       unfold colored. rewrite elem_of_PropSet. simpl. congruence. }
  destruct (String.eqb_spec x t) as [->|Hx]; cbn [negb].
  2: { exists g. split; [done|]. split; [done|]. apply fill_nothing.
       unfold colored. rewrite elem_of_PropSet. simpl. congruence. }
  apply inBounds_spec in Eb as [Hr Hcb].
  set (g1 := set g row col rep).
  assert (Hp1 : painted g {[(row, col)]} rep g1) by (by apply (set_painted g row col rep h w)).
  assert (Hcol1 : colored g1 t ≡ colored g t ∖ {[(row, col)]}) by (eapply painted_colored; eauto).
  assert (Hin : (row, col) ∈ colored g t) by (unfold colored; rewrite elem_of_PropSet; done).
  assert (Hwf1 : wf h w g1) by (by apply wf_set).
  assert (Hc1 : (count h w g1 t < f)%nat).
  { enough (count h w g1 t < count h w g t)%nat by lia.
    apply (count_strict h w g g1 t (row, col)); [rewrite Hcol1; set_solver|done|done|done|].
    rewrite Hcol1. set_solver. }
  destruct (call_step f g1 g1 ∅ (row - 1, col) IH Hwf1 Hc1
              (painted_refl g1 rep) (closed_empty _)) as (g2 & Eg2 & Hwf2 & Hp2 & Hcl2 & R1).
  cbn [fst snd] in Eg2. rewrite Eg2. cbn [mbind option_bind].
  destruct (call_step f g1 g2 _ (row + 1, col) IH Hwf2 Hc1 Hp2 Hcl2)
    as (g3 & Eg3 & Hwf3 & Hp3 & Hcl3 & R2).
  cbn [fst snd] in Eg3. rewrite Eg3. cbn [mbind option_bind].
  destruct (call_step f g1 g3 _ (row, col - 1) IH Hwf3 Hc1 Hp3 Hcl3)
    as (g4 & Eg4 & Hwf4 & Hp4 & Hcl4 & R3).
  cbn [fst snd] in Eg4. rewrite Eg4. cbn [mbind option_bind].
  destruct (call_step f g1 g4 _ (row, col + 1) IH Hwf4 Hc1 Hp4 Hcl4)
    as (g5 & Eg5 & Hwf5 & Hp5 & Hcl5 & R4).
  cbn [fst snd] in Eg5. rewrite Eg5.
  exists g5. do 2 (split; [done|]).
  eapply painted_equiv; [|eapply painted_trans; [exact Hp1|exact Hp5]].
  eapply (four_calls_comp g g1 (row, col)); simpl; eauto; try reflexivity;
    intros q Hq; set_solver.
Qed.

End Contract.

(** ** Corollaries *)

(** C1: [floodFill] repaints exactly the start cell's component of target-colour
    cells, given more fuel than there are such cells. *)
Theorem floodFill_correct h w g row col t rep fuel :
  t <> rep -> wf h w g -> (count h w g t < fuel)%nat ->
  exists g', floodFill fuel h w g row col t rep = Some g' /\ wf h w g' /\
    painted g (comp (colored g t) (row, col)) rep g'.
Proof. intros Htr Hwf Hc. by apply (floodFill_paints h w t rep Htr fuel). Qed.

(** C13: The recursion depth never exceeds the number of cells plus one: with
    [fillFuel h w] the fill always returns (termination). *)
Theorem floodFill_terminates h w g row col t rep :
  wf h w g ->
  exists g', floodFill (fillFuel h w) h w g row col t rep = Some g' /\ wf h w g'.
Proof.
  intros Hwf. destruct (String.eqb_spec t rep) as [<-|Htr].
  - exists g. unfold fillFuel. cbn [floodFill]. by rewrite String.eqb_refl.
  - destruct (floodFill_paints h w t rep Htr (fillFuel h w) g row col) as (g' & ? & ? & _);
      [done| |by eauto]. pose proof (count_le_size h w g t). unfold fillFuel. lia.
Qed.

(** Filling with the colour the cell already has returns the grid unchanged
    at once, before any recursion. *)
Theorem floodFill_same_color fuel h w g row col c :
  floodFill (S fuel) h w g row col c c = Some g.
Proof. cbn [floodFill]. by rewrite String.eqb_refl. Qed.

(** C29: On a grid of a single colour, a fill from any cell repaints every cell. *)
Theorem floodFill_uniform h w g row col t rep :
  t <> rep -> wf h w g ->
  (forall r c, inBounds h w r c = true -> get g r c = Some t) ->
  inBounds h w row col = true ->
  exists g', floodFill (fillFuel h w) h w g row col t rep = Some g' /\
    forall r c, get g' r c = if inBounds h w r c then Some rep else None.
Proof.
  intros Htr Hwf Hall Hstart.
  destruct (floodFill_paints h w t rep Htr (fillFuel h w) g row col) as (g' & Hrun & Hwf' & Hp);
    [done| |].
  { pose proof (count_le_size h w g t). unfold fillFuel. lia. }
  exists g'. split; [done|]. intros r c.
  destruct (Hp (r, c)) as [[Hin E]|[Hn E]]; simpl in E; rewrite E.
  - unfold comp in Hin. rewrite elem_of_PropSet in Hin. apply conn_in_r in Hin.
    pose proof (colored_in_bounds h w g t (r, c) Hwf Hin) as Hb. simpl in Hb. by rewrite Hb.
  - destruct (inBounds h w r c) eqn:Eb; [|by apply (get_out_of_bounds g h w)].
    exfalso. apply Hn. unfold comp. rewrite elem_of_PropSet.
    apply inBounds_spec in Eb, Hstart.
    apply (conn_box _ h w) with (n := Z.to_nat (Z.abs (row - r) + Z.abs (col - c))); try lia.
    intros r' c' Hr' Hc'. unfold colored. rewrite elem_of_PropSet. apply Hall.
    by apply inBounds_spec.
Qed.

(** ** Witnesses *)

Lemma floodFill_correct_witness :
  "#FFFFFF" <> "#000000" /\ wf 3 3 (makeGrid 3 3) /\
  (count 3 3 (makeGrid 3 3) "#FFFFFF" < 10)%nat /\
  exists g', floodFill 10 3 3 (makeGrid 3 3) 1 1 "#FFFFFF" "#000000" = Some g' /\
    wf 3 3 g' /\ painted (makeGrid 3 3)
      (comp (colored (makeGrid 3 3) "#FFFFFF") (1, 1)) "#000000" g'.
Proof.
  assert (Hne : "#FFFFFF" <> "#000000") by discriminate.
  assert (Hc : (count 3 3 (makeGrid 3 3) "#FFFFFF" < 10)%nat) by (vm_compute; lia).
  split; [exact Hne|]. split; [apply wf_makeGrid|]. split; [exact Hc|].
  apply floodFill_correct; [exact Hne|apply wf_makeGrid|exact Hc].
Defined.

Lemma floodFill_uniform_witness :
  "#FFFFFF" <> "#000000" /\ inBounds 4 4 2 1 = true /\
  exists g', floodFill (fillFuel 4 4) 4 4 (makeGrid 4 4) 2 1 "#FFFFFF" "#000000" = Some g' /\
    forall r c, get g' r c = if inBounds 4 4 r c then Some "#000000" else None.
Proof.
  assert (Hne : "#FFFFFF" <> "#000000") by discriminate.
  split; [exact Hne|]. split; [reflexivity|].
  apply floodFill_uniform; [exact Hne|apply wf_makeGrid| |reflexivity].
  intros r c Hb. rewrite get_makeGrid, Hb. reflexivity.
Defined.


Lemma floodFill_terminates_witness :
  wf 3 3 (makeGrid 3 3) /\
  exists g', floodFill (fillFuel 3 3) 3 3 (makeGrid 3 3) 0 2 "#FFFFFF" "#FF0000" = Some g' /\
    wf 3 3 g'.
Proof.
  split; [apply wf_makeGrid|]. apply floodFill_terminates. apply wf_makeGrid.
Defined.

End FloodFill.
