(* ===== verification/Editor.v ===== *)
(** * Editor session

    The refs of App.vue's script gathered in one record ([EditorState]) and
    the handlers that change them: [saveState], [undo], [redo] and
    [initializeGrid] on the live grid, [drawPixel] with its four tool
    branches, [startDrawing], [stopDrawing], [drawLine] (the Bresenham loop
    of [Bresenham.v] with [drawPixel] as its action), the canvas mouse
    handlers, the confirmed branch of [clearGrid], the successful branch of
    [resizeGrid], and the toolbar buttons of the template.  Pointer
    positions arrive already mapped to cells (the result of
    [getCanvasCoordinates]); drawing on the canvas ([renderCanvas],
    [renderSinglePixel], [renderHoverPreview]) does not change these refs
    and is left out here.

    Theorems: the editor invariant (grid shape, history invariant with
    every snapshot of the grid's shape, colour-history invariant, brush
    size) holds in every reachable state; the tool branches of [drawPixel]
    (pencil stamps and records the colour once, eraser stamps the
    background, fill repaints the component, eyedropper picks the colour
    and returns to the pencil); a drag paints the stamps of every cell of
    the Bresenham line; and what one gesture records in the history. *)

From S2P Require Import Prelude Grid History ColorHistory Brush Bresenham Connectivity FloodFill.

Module Editor.

(** [ref<'pencil' | 'eraser' | 'fill' | 'eyedropper'>] *)
Inductive Tool := pencil | eraser | fill | eyedropper.

#[export] Instance Tool_eq_dec : EqDecision Tool.
Proof. solve_decision. Defined.

Record EditorState := mkEditor {
  gridWidth : Z;
  gridHeight : Z;
  grid : Grid.grid;
  currentColor : Grid.color;
  currentTool : Tool;
  isDrawing : bool;
  lastDrawnPos : option (Z * Z);
  brushSize : Z;
  hoveredCell : option (Z * Z);
  historyState : History.HistoryState Grid.grid;
  colorHistory : list Grid.color
}.

Definition setGridWidth (v : Z) (st : EditorState) : EditorState :=
  mkEditor v (gridHeight st) (grid st) (currentColor st) (currentTool st) (isDrawing st) (lastDrawnPos st) (brushSize st) (hoveredCell st) (historyState st) (colorHistory st).
Definition setGridHeight (v : Z) (st : EditorState) : EditorState :=
  mkEditor (gridWidth st) v (grid st) (currentColor st) (currentTool st) (isDrawing st) (lastDrawnPos st) (brushSize st) (hoveredCell st) (historyState st) (colorHistory st).
Definition setGrid (v : Grid.grid) (st : EditorState) : EditorState :=
  mkEditor (gridWidth st) (gridHeight st) v (currentColor st) (currentTool st) (isDrawing st) (lastDrawnPos st) (brushSize st) (hoveredCell st) (historyState st) (colorHistory st).
Definition setCurrentColor (v : Grid.color) (st : EditorState) : EditorState :=
  mkEditor (gridWidth st) (gridHeight st) (grid st) v (currentTool st) (isDrawing st) (lastDrawnPos st) (brushSize st) (hoveredCell st) (historyState st) (colorHistory st).
Definition setCurrentTool (v : Tool) (st : EditorState) : EditorState :=
  mkEditor (gridWidth st) (gridHeight st) (grid st) (currentColor st) v (isDrawing st) (lastDrawnPos st) (brushSize st) (hoveredCell st) (historyState st) (colorHistory st).
Definition setIsDrawing (v : bool) (st : EditorState) : EditorState :=
  mkEditor (gridWidth st) (gridHeight st) (grid st) (currentColor st) (currentTool st) v (lastDrawnPos st) (brushSize st) (hoveredCell st) (historyState st) (colorHistory st).
Definition setLastDrawnPos (v : option (Z * Z)) (st : EditorState) : EditorState :=
  mkEditor (gridWidth st) (gridHeight st) (grid st) (currentColor st) (currentTool st) (isDrawing st) v (brushSize st) (hoveredCell st) (historyState st) (colorHistory st).
Definition setBrushSize (v : Z) (st : EditorState) : EditorState :=
  mkEditor (gridWidth st) (gridHeight st) (grid st) (currentColor st) (currentTool st) (isDrawing st) (lastDrawnPos st) v (hoveredCell st) (historyState st) (colorHistory st).
Definition setHoveredCell (v : option (Z * Z)) (st : EditorState) : EditorState :=
  mkEditor (gridWidth st) (gridHeight st) (grid st) (currentColor st) (currentTool st) (isDrawing st) (lastDrawnPos st) (brushSize st) v (historyState st) (colorHistory st).
Definition setHistoryState (v : History.HistoryState Grid.grid) (st : EditorState) : EditorState :=
  mkEditor (gridWidth st) (gridHeight st) (grid st) (currentColor st) (currentTool st) (isDrawing st) (lastDrawnPos st) (brushSize st) (hoveredCell st) v (colorHistory st).
Definition setColorHistory (v : list Grid.color) (st : EditorState) : EditorState :=
  mkEditor (gridWidth st) (gridHeight st) (grid st) (currentColor st) (currentTool st) (isDrawing st) (lastDrawnPos st) (brushSize st) (hoveredCell st) (historyState st) v.

(** ** History on the live grid *)

(** [saveState]: a copy of the grid pushed on the history. *)
Definition saveState (st : EditorState) : EditorState :=
  setHistoryState (History.saveState (grid st) (historyState st)) st.

(** [undo]: move the cursor back and copy the entry into the grid. *)
Definition undo (st : EditorState) : EditorState :=
  match History.undo (historyState st) with
  | Some (h, g) => setGrid g (setHistoryState h st)
  | None => st
  end.

(** [redo]: move the cursor forward and copy the entry into the grid. *)
Definition redo (st : EditorState) : EditorState :=
  match History.redo (historyState st) with
  | Some (h, g) => setGrid g (setHistoryState h st)
  | None => st
  end.

(** [initializeGrid]: a fresh white grid of the current size, the history
    reset to that single entry. *)
Definition initializeGrid (st : EditorState) : EditorState :=
  let st := setGrid (Grid.makeGrid (gridHeight st) (gridWidth st)) st in
  saveState (setHistoryState History.emptyHistory st).

(** ** Drawing *)

(** [drawPixel]: out-of-grid cells are ignored; then the tool's branch.
    The fill branch reads the target colour from the cell, fills with the
    grid-size fuel (always enough, [FloodFill.floodFill_terminates]),
    records the colour and saves the state. *)
Definition drawPixel (st : EditorState) (row col : Z) : EditorState :=
  let h := gridHeight st in
  let w := gridWidth st in
  if (row <? 0) || (row >=? h) || (col <? 0) || (col >=? w) then st else
  match currentTool st with
  | pencil =>
      let color := currentColor st in
      let st := setColorHistory (ColorHistory.addToColorHistory color (colorHistory st)) st in
      setGrid (Brush.stamp h w (grid st) row col (brushSize st) color) st
  | eraser =>
      setGrid (Brush.stamp h w (grid st) row col (brushSize st) Grid.BACKGROUND) st
  | fill =>
      let target := default "" (Grid.get (grid st) row col) in
      let g := default (grid st)
        (FloodFill.floodFill (FloodFill.fillFuel h w) h w (grid st) row col target (currentColor st)) in
      let st := setGrid g st in
      let st := setColorHistory (ColorHistory.addToColorHistory (currentColor st) (colorHistory st)) st in
      saveState st
  | eyedropper =>
      setCurrentTool pencil (setCurrentColor (default (currentColor st) (Grid.get (grid st) row col)) st)
  end.

(** [drawLine]: the Bresenham loop with [drawPixel] as its action. *)
Definition drawLine (st : EditorState) (row0 col0 row1 col1 : Z) : EditorState :=
  default st (Bresenham.drawLineWith drawPixel (Bresenham.lineFuel row0 col0 row1 col1)
                st row0 col0 row1 col1).

(** [startDrawing] *)
Definition startDrawing (st : EditorState) (row col : Z) : EditorState :=
  let st := setIsDrawing true st in
  let st := setHoveredCell None st in
  let st := setLastDrawnPos (Some (row, col)) st in
  drawPixel st row col.

(** [stopDrawing]: one snapshot per gesture that was drawing. *)
Definition stopDrawing (st : EditorState) : EditorState :=
  let st := if isDrawing st then saveState st else st in
  setLastDrawnPos None (setIsDrawing false st).

Definition drawsStrokes (t : Tool) : bool :=
  match t with pencil | eraser => true | _ => false end.

(** ** Canvas mouse handlers; [coords] is [getCanvasCoordinates(event)] *)

Definition onCanvasMouseDown (st : EditorState) (coords : option (Z * Z)) : EditorState :=
  match coords with
  | Some (row, col) => startDrawing st row col
  | None => st
  end.

(** [onCanvasMouseMove] with [event.buttons]. *)
Definition onCanvasMouseMove (st : EditorState) (coords : option (Z * Z)) (buttons : Z) : EditorState :=
  if buttons =? 1 then
    let st := if negb (isDrawing st) && drawsStrokes (currentTool st)
              then setIsDrawing true st else st in
    match coords with
    | Some (row, col) =>
        if isDrawing st && drawsStrokes (currentTool st) then
          let st := match lastDrawnPos st with
                    | Some (lr, lc) =>
                        if negb (lr =? row) || negb (lc =? col)
                        then drawLine st lr lc row col else st
                    | None => drawPixel st row col
                    end in
          setLastDrawnPos (Some (row, col)) st
        else st
    | None => st
    end
  else
    match coords with
    | Some q => setHoveredCell (Some q) st
    | None => st
    end.

Definition onCanvasMouseUp (st : EditorState) : EditorState := stopDrawing st.

Definition onCanvasMouseLeave (st : EditorState) : EditorState :=
  match hoveredCell st with
  | Some _ => setHoveredCell None st
  | None => st
  end.

(** ** Actions *)

(** The confirmed branch of [clearGrid]. *)
Definition clearGrid (st : EditorState) : EditorState :=
  saveState (setGrid (Grid.clearLoop (gridHeight st) (gridWidth st) (grid st)) st).

(** The accepted branch of [resizeGrid] for a validated size [n]. *)
Definition resizeTo (n : Z) (st : EditorState) : EditorState :=
  initializeGrid (setGridHeight n (setGridWidth n st)).

(** The initial refs, then [onMounted]'s [initializeGrid]. *)
Definition initialState : EditorState :=
  mkEditor 32 32 [] "#000000" pencil false None 1 None History.emptyHistory
    ColorHistory.initialColorHistory.

Definition mounted : EditorState := initializeGrid initialState.

(** [resizeGrid]'s callback once [parseInt] has run: [None] is [NaN].
    An out-of-range size only shows an alert. *)
Definition resizeWith (newSize : option Z) (st : EditorState) : EditorState :=
  match newSize with
  | None => st
  | Some n => if (n <? 8) || (n >? 64) then st else resizeTo n st
  end.

(** ** The session as a transition system *)

(** The inputs the page reacts to: the canvas listeners, [mouseup] on the
    document, the toolbar buttons, the colour input and the palette, the
    undo/redo shortcuts, and the confirmed clear and resize dialogs. *)
Inductive Event :=
  | MouseDown (coords : option (Z * Z))
  | MouseMove (coords : option (Z * Z)) (buttons : Z)
  | MouseUp
  | MouseLeave
  | DocumentMouseUp
  | ToolButton (t : Tool)
  | BrushButton (size : Z)
  | ColorInput (c : Grid.color)
  | PaletteClick (c : Grid.color)
  | KeyUndo
  | KeyRedo
  | ClearConfirmed
  | ResizeSubmitted (newSize : option Z).

Definition handle (st : EditorState) (e : Event) : EditorState :=
  match e with
  | MouseDown coords => onCanvasMouseDown st coords
  | MouseMove coords buttons => onCanvasMouseMove st coords buttons
  | MouseUp => onCanvasMouseUp st
  | MouseLeave => onCanvasMouseLeave st
  | DocumentMouseUp => stopDrawing st
  | ToolButton t => setCurrentTool t st
  | BrushButton size => setBrushSize size st
  | ColorInput c => setCurrentColor c st
  | PaletteClick c => setCurrentColor c st
  | KeyUndo => undo st
  | KeyRedo => redo st
  | ClearConfirmed => clearGrid st
  | ResizeSubmitted n => resizeWith n st
  end.

(** The events the page can produce in a state: the brush buttons are
    [v-for="size in [1, 2, 3, 4, 5]"], the palette lists [colorHistory]. *)
Definition validEvent (st : EditorState) (e : Event) : bool :=
  match e with
  | BrushButton size => (1 <=? size) && (size <=? 5)
  | PaletteClick c => bool_decide (c ∈ colorHistory st)
  | _ => true
  end.

Inductive reachable : EditorState -> Prop :=
  | reach_mounted : reachable mounted
  | reach_step st e : reachable st -> validEvent st e = true -> reachable (handle st e).

(** One mouse gesture on the canvas: button pressed on [start], moved with
    the button held through [moves], released. *)
Definition gesture (st : EditorState) (start : Z * Z) (moves : list (option (Z * Z))) : EditorState :=
  onCanvasMouseUp (fold_left (fun st coords => onCanvasMouseMove st coords 1) moves
                     (onCanvasMouseDown st (Some start))).

(** The cells a stroke through [cs] paints: the brush footprint of each. *)
Definition strokeCells (h w brushSize : Z) (cs : list (Z * Z)) : list (Z * Z) :=
  flat_map (fun q => Brush.brushCells h w q.1 q.2 brushSize) cs.

(** A cell of the current grid. *)
Definition cellInGrid (st : EditorState) (q : Z * Z) : Prop :=
  0 <= q.1 < gridHeight st /\ 0 <= q.2 < gridWidth st.

(** What a brush tool's drawing leaves alone. *)
Definition strokeFrame (H : History.HistoryState Grid.grid) (T : Tool) (b : bool) (st : EditorState) : Prop :=
  historyState st = H /\ currentTool st = T /\ isDrawing st = b /\ drawsStrokes T = true.

(** ** The session invariant *)

Record inv (st : EditorState) : Prop := {
  inv_dims : 8 <= gridHeight st <= 64 /\ 8 <= gridWidth st <= 64;
  inv_grid : Grid.wf (gridHeight st) (gridWidth st) (grid st);
  inv_hist : History.inv (historyState st);
  inv_hist_ne : History.history (historyState st) <> [];
  inv_hist_wf : Forall (Grid.wf (gridHeight st) (gridWidth st)) (History.history (historyState st));
  inv_colors : ColorHistory.inv (colorHistory st);
  inv_brush : 1 <= brushSize st <= 5
}.

Ltac simpl_st :=
  unfold setGridWidth, setGridHeight, setGrid, setCurrentColor, setCurrentTool, setIsDrawing,
    setLastDrawnPos, setBrushSize, setHoveredCell, setHistoryState, setColorHistory in *;
  cbn [gridWidth gridHeight grid currentColor currentTool isDrawing lastDrawnPos brushSize
       hoveredCell historyState colorHistory] in *.

Lemma inv_saveState st : inv st -> inv (saveState st).
Proof.
  intros [Hd Hg Hh Hne Hw Hc Hb]. unfold saveState. constructor; simpl_st; auto.
  - by apply History.saveState_inv.
  - apply History.saveState_nonempty.
  - apply List.Forall_forall. intros x Hx. apply History.saveState_entries in Hx as [Hx| ->]; [|done].
    rewrite List.Forall_forall in Hw. auto.
Qed.

Lemma inv_restore st h g :
  inv st -> History.inv h -> History.history h = History.history (historyState st) ->
  In g (History.history (historyState st)) -> inv (setGrid g (setHistoryState h st)).
Proof.
  intros [Hd Hg Hh Hne Hw Hc Hb] Hh' He Hin. constructor; simpl_st; rewrite ?He; auto.
  rewrite List.Forall_forall in Hw. auto.
Qed.

Lemma inv_undo st : inv st -> inv (undo st).
Proof.
  intros Hinv. unfold undo. destruct (History.undo _) as [[h g]|] eqn:E; [|done].
  destruct (History.undo_entry _ _ _ E) as [He Hin].
  apply inv_restore; try done. eapply History.undo_inv; [apply Hinv|exact E].
Qed.

Lemma inv_redo st : inv st -> inv (redo st).
Proof.
  intros Hinv. unfold redo. destruct (History.redo _) as [[h g]|] eqn:E; [|done].
  destruct (History.redo_entry _ _ _ E) as [He Hin].
  apply inv_restore; try done. eapply History.redo_inv; [apply Hinv|exact E].
Qed.

Lemma inv_setGrid st g : inv st -> Grid.wf (gridHeight st) (gridWidth st) g -> inv (setGrid g st).
Proof. intros [Hd Hg Hh Hne Hw Hc Hb] Hg'. constructor; simpl_st; auto. Qed.

Lemma inv_addColor st c :
  inv st -> inv (setColorHistory (ColorHistory.addToColorHistory c (colorHistory st)) st).
Proof.
  intros [Hd Hg Hh Hne Hw Hc Hb]. constructor; simpl_st; auto.
  by apply ColorHistory.addToColorHistory_inv.
Qed.

Lemma inv_stamp st row col c :
  inv st -> inv (setGrid (Brush.stamp (gridHeight st) (gridWidth st) (grid st) row col (brushSize st) c) st).
Proof.
  intros Hinv. apply inv_setGrid; [done|]. rewrite Brush.stamp_paint. apply Grid.wf_paintCells, Hinv.
Qed.

Lemma inv_drawPixel st row col : inv st -> inv (drawPixel st row col).
Proof.
  intros Hinv. unfold drawPixel. destruct (_ || _); [done|].
  destruct (currentTool st).
  - exact (inv_stamp _ row col _ (inv_addColor st (currentColor st) Hinv)).
  - by apply inv_stamp.
  - apply inv_saveState, inv_addColor, inv_setGrid; [done|].
    destruct (FloodFill.floodFill _ _ _ _ _ _ _ _) eqn:E; cbn [default]; [|apply Hinv].
    eapply FloodFill.floodFill_wf; [apply Hinv|exact E].
  - destruct Hinv as [Hd Hg Hh Hne Hw Hc Hb]. constructor; simpl_st; auto.
Qed.

Lemma inv_drawLine st r0 c0 r1 c1 : inv st -> inv (drawLine st r0 c0 r1 c1).
Proof.
  intros Hinv. unfold drawLine, Bresenham.drawLineWith.
  destruct (Bresenham.lineLoop _ _ _ _ _ _ _ _ _ _ _ _) eqn:E; [|done].
  eapply (Bresenham.lineLoop_preserves inv drawPixel); [apply inv_drawPixel|exact Hinv|exact E].
Qed.

(** Fields the handlers set without touching the invariant's parts. *)
Lemma inv_setIsDrawing st b : inv st -> inv (setIsDrawing b st).
Proof. intros [Hd Hg Hh Hne Hw Hc Hb]. constructor; simpl_st; auto. Qed.

Lemma inv_setLastDrawnPos st p : inv st -> inv (setLastDrawnPos p st).
Proof. intros [Hd Hg Hh Hne Hw Hc Hb]. constructor; simpl_st; auto. Qed.

Lemma inv_setHoveredCell st p : inv st -> inv (setHoveredCell p st).
Proof. intros [Hd Hg Hh Hne Hw Hc Hb]. constructor; simpl_st; auto. Qed.

#[local] Hint Resolve inv_setIsDrawing inv_setLastDrawnPos inv_setHoveredCell : pixlet.

Lemma inv_startDrawing st row col : inv st -> inv (startDrawing st row col).
Proof.
  intros Hinv. unfold startDrawing. apply inv_drawPixel. auto with pixlet.
Qed.

Lemma inv_stopDrawing st : inv st -> inv (stopDrawing st).
Proof.
  intros Hinv. unfold stopDrawing. apply inv_setLastDrawnPos, inv_setIsDrawing.
  destruct (isDrawing st); [by apply inv_saveState|done].
Qed.

Lemma inv_onCanvasMouseMove st coords buttons : inv st -> inv (onCanvasMouseMove st coords buttons).
Proof.
  intros Hinv. unfold onCanvasMouseMove. destruct (buttons =? 1).
  - set (st1 := if negb (isDrawing st) && drawsStrokes (currentTool st)
                 then setIsDrawing true st else st).
    assert (inv st1) as H1 by (subst st1; destruct (_ && _); [apply inv_setIsDrawing|]; done).
    cbv zeta. clearbody st1.
    destruct coords as [[row col]|]; [|done]. destruct (_ && _); [|done].
    apply inv_setLastDrawnPos. destruct (lastDrawnPos st1) as [[lr lc]|].
    + destruct (_ || _); [by apply inv_drawLine|done].
    + by apply inv_drawPixel.
  - destruct coords; [by apply inv_setHoveredCell|done].
Qed.

Lemma inv_onCanvasMouseLeave st : inv st -> inv (onCanvasMouseLeave st).
Proof. intros Hinv. unfold onCanvasMouseLeave. destruct (hoveredCell st); [by apply inv_setHoveredCell|done]. Qed.

Lemma inv_clearGrid st : inv st -> inv (clearGrid st).
Proof.
  intros Hinv. unfold clearGrid. apply inv_saveState, inv_setGrid; [done|].
  rewrite Grid.clearLoop_paint. apply Grid.wf_paintCells, Hinv.
Qed.

(** [initializeGrid] re-establishes the grid and history parts of the
    invariant from the sizes alone. *)
Lemma inv_initializeGrid st :
  8 <= gridHeight st <= 64 -> 8 <= gridWidth st <= 64 ->
  ColorHistory.inv (colorHistory st) -> 1 <= brushSize st <= 5 ->
  inv (initializeGrid st).
Proof.
  intros Hh Hw Hc Hb. unfold initializeGrid, saveState.
  constructor; simpl_st; auto using Grid.wf_makeGrid, History.saveState_nonempty.
  all: try (apply History.saveState_inv; by left).
  all: cbn; repeat constructor; apply Grid.wf_makeGrid.
Qed.

Lemma inv_resizeWith n st : inv st -> inv (resizeWith n st).
Proof.
  intros Hinv. unfold resizeWith. destruct n as [n|]; [|done].
  case_zb; try done. unfold resizeTo. apply inv_initializeGrid; simpl_st; try lia; apply Hinv.
Qed.

Lemma inv_handle st e : inv st -> validEvent st e = true -> inv (handle st e).
Proof.
  intros Hinv Hv. destruct e; simpl in *.
  - destruct coords as [[]|]; [by apply inv_startDrawing|done].
  - by apply inv_onCanvasMouseMove.
  - by apply inv_stopDrawing.
  - by apply inv_onCanvasMouseLeave.
  - by apply inv_stopDrawing.
  - destruct Hinv as [Hd Hg Hh Hne Hw Hc Hb]. constructor; simpl_st; auto.
  - destruct Hinv as [Hd Hg Hh Hne Hw Hc Hb]. case_zb; try done.
    all: constructor; simpl_st; auto; lia.
  - destruct Hinv as [Hd Hg Hh Hne Hw Hc Hb]. constructor; simpl_st; auto.
  - destruct Hinv as [Hd Hg Hh Hne Hw Hc Hb]. constructor; simpl_st; auto.
  - by apply inv_undo.
  - by apply inv_redo.
  - by apply inv_clearGrid.
  - by apply inv_resizeWith.
Qed.

Lemma inv_mounted : inv mounted.
Proof. apply inv_initializeGrid; simpl; try lia. apply ColorHistory.initial_inv. Qed.

(** C3: every state the page can reach satisfies the invariant. *)
Theorem reachable_inv st : reachable st -> inv st.
Proof.
  induction 1 as [|st e Hr IH Hv]; [apply inv_mounted|]. by apply inv_handle.
Qed.

(** ** Drawing gestures *)

Lemma setGrid_setColorHistory_twice st g1 g2 ch1 ch2 :
  setGrid g2 (setColorHistory ch2 (setGrid g1 (setColorHistory ch1 st))) =
  setGrid g2 (setColorHistory ch2 st).
Proof. by destruct st. Qed.

Lemma drawPixel_in_grid st row col :
  cellInGrid st (row, col) ->
  drawPixel st row col =
  match currentTool st with
  | pencil =>
      setGrid (Brush.stamp (gridHeight st) (gridWidth st) (grid st) row col (brushSize st) (currentColor st))
        (setColorHistory (ColorHistory.addToColorHistory (currentColor st) (colorHistory st)) st)
  | eraser => setGrid (Brush.stamp (gridHeight st) (gridWidth st) (grid st) row col (brushSize st) Grid.BACKGROUND) st
  | fill =>
      saveState (setColorHistory (ColorHistory.addToColorHistory (currentColor st) (colorHistory st))
        (setGrid (default (grid st) (FloodFill.floodFill (FloodFill.fillFuel (gridHeight st) (gridWidth st))
           (gridHeight st) (gridWidth st) (grid st) row col
           (default "" (Grid.get (grid st) row col)) (currentColor st))) st))
  | eyedropper =>
      setCurrentTool pencil (setCurrentColor (default (currentColor st) (Grid.get (grid st) row col)) st)
  end.
Proof. intros [Hr Hc]. unfold drawPixel. cbn [fst snd] in *. case_zb; try lia. done. Qed.

(** A pencil stroke over in-grid cells paints the union of the brush
    footprints and records the colour once. *)
Lemma fold_drawPixel_pencil cs st :
  currentTool st = pencil -> Forall (cellInGrid st) cs ->
  fold_left (fun st q => drawPixel st q.1 q.2) cs st =
  setGrid (Grid.paintCells (grid st) (strokeCells (gridHeight st) (gridWidth st) (brushSize st) cs) (currentColor st))
    (setColorHistory (if cs is [] then colorHistory st
                      else ColorHistory.addToColorHistory (currentColor st) (colorHistory st)) st).
Proof.
  revert st. induction cs as [|q cs IH]; intros st Ht Hin; [by destruct st|].
  apply Forall_cons in Hin as [Hq Hin]. cbn [fold_left].
  rewrite (drawPixel_in_grid st q.1 q.2) by (by destruct q). rewrite Ht.
  rewrite IH by (simpl_st; done). simpl_st.
  rewrite Brush.stamp_paint, Grid.paintCells_app.
  destruct cs; [done|]. by rewrite ColorHistory.addToColorHistory_idem.
Qed.

Lemma fold_drawPixel_eraser cs st :
  currentTool st = eraser -> Forall (cellInGrid st) cs ->
  fold_left (fun st q => drawPixel st q.1 q.2) cs st =
  setGrid (Grid.paintCells (grid st) (strokeCells (gridHeight st) (gridWidth st) (brushSize st) cs) Grid.BACKGROUND) st.
Proof.
  revert st. induction cs as [|q cs IH]; intros st Ht Hin; [by destruct st|].
  apply Forall_cons in Hin as [Hq Hin]. cbn [fold_left].
  rewrite (drawPixel_in_grid st q.1 q.2) by (by destruct q). rewrite Ht.
  rewrite IH by (simpl_st; done). simpl_st.
  rewrite Brush.stamp_paint, Grid.paintCells_app. by destruct st.
Qed.

(** The cells [drawLine] visits between two in-grid cells are in the grid. *)
Lemma lineCells_in_grid st r0 c0 r1 c1 :
  cellInGrid st (r0, c0) -> cellInGrid st (r1, c1) ->
  exists cs, Bresenham.lineCells r0 c0 r1 c1 = Some ((r0, c0) :: cs) /\
             Forall (cellInGrid st) ((r0, c0) :: cs).
Proof.
  intros [H0 H0'] [H1 H1']. cbn [fst snd] in *.
  destruct (Bresenham.lineCells_run r0 c0 r1 c1) as (cs & E & _ & _ & Hbox & _).
  exists cs. split; [done|].
  eapply Forall_impl; [exact Hbox|]. intros [r c] [Hr Hc]. unfold cellInGrid. simpl in *. lia.
Qed.

Lemma drawLine_fold st r0 c0 r1 c1 cs :
  Bresenham.lineCells r0 c0 r1 c1 = Some cs ->
  drawLine st r0 c0 r1 c1 = fold_left (fun st q => drawPixel st q.1 q.2) cs st.
Proof.
  intros E. unfold drawLine, Bresenham.drawLineWith. rewrite Bresenham.lineLoop_fold.
  unfold Bresenham.lineCells, Bresenham.drawLineWith in E. by rewrite E.
Qed.

Lemma drawPixel_frame H T b st row col : strokeFrame H T b st -> strokeFrame H T b (drawPixel st row col).
Proof.
  intros (Hh & Ht & Hi & Hd). unfold drawPixel. destruct (_ || _); [done|].
  rewrite Ht. destruct T; try done; repeat split; simpl_st; done.
Qed.

Lemma drawLine_frame H T b st r0 c0 r1 c1 :
  strokeFrame H T b st -> strokeFrame H T b (drawLine st r0 c0 r1 c1).
Proof.
  intros Hf. unfold drawLine, Bresenham.drawLineWith.
  destruct (Bresenham.lineLoop _ _ _ _ _ _ _ _ _ _ _ _) eqn:E; [|done].
  eapply (Bresenham.lineLoop_preserves (strokeFrame H T b) drawPixel); [apply drawPixel_frame|exact Hf|exact E].
Qed.

(** A move with the button held keeps a brush gesture going. *)
Lemma mouseMove_frame H T b st coords :
  strokeFrame H T b st -> strokeFrame H T true (onCanvasMouseMove st coords 1).
Proof.
  intros Hf. pose proof Hf as (Hh & Ht & Hi & Hd). unfold onCanvasMouseMove. rewrite Z.eqb_refl, Ht, Hd.
  set (st1 := if negb (isDrawing st) && true then setIsDrawing true st else st).
  assert (strokeFrame H T true st1) as Hf1
    by (subst st1; destruct (isDrawing st) eqn:?; simpl; simpl_st; unfold strokeFrame; naive_solver).
  cbv zeta. clearbody st1. destruct coords as [[row col]|]; [|done].
  pose proof Hf1 as (Hh1 & Ht1 & Hi1 & Hd1). rewrite Hi1, Ht1, Hd. cbn [andb].
  assert (forall st2, strokeFrame H T true st2 -> strokeFrame H T true (setLastDrawnPos (Some (row, col)) st2))
    as Hset by (intros st2 (? & ? & ? & ?); repeat split; simpl_st; done).
  apply Hset. destruct (lastDrawnPos st1) as [[lr lc]|]; [destruct (_ || _)|].
  - by apply drawLine_frame.
  - done.
  - by apply drawPixel_frame.
Qed.

Lemma startDrawing_frame st row col :
  drawsStrokes (currentTool st) = true ->
  strokeFrame (historyState st) (currentTool st) true (startDrawing st row col).
Proof.
  intros Hd. unfold startDrawing. apply drawPixel_frame. repeat split; simpl_st; done.
Qed.

(** C7: a brush gesture, whatever the moves, records exactly one history
    snapshot, of the grid as the gesture leaves it. *)
Theorem gesture_one_snapshot st start moves :
  drawsStrokes (currentTool st) = true ->
  historyState (gesture st start moves) =
  History.saveState (grid (gesture st start moves)) (historyState st) /\
  isDrawing (gesture st start moves) = false.
Proof.
  intros Hd. unfold gesture, onCanvasMouseUp, stopDrawing.
  assert (strokeFrame (historyState st) (currentTool st) true
            (fold_left (fun st coords => onCanvasMouseMove st coords 1) moves
               (onCanvasMouseDown st (Some start)))) as (Hh & _ & Hi & _).
  { destruct start as [row col]. generalize (startDrawing_frame st row col Hd).
    unfold onCanvasMouseDown. generalize (startDrawing st row col).
    induction moves as [|m moves IH]; intros st1 Hf1; [done|]. apply IH. eapply mouseMove_frame, Hf1. }
  rewrite Hi. unfold saveState. simpl_st. by rewrite Hh.
Qed.

(** One move of a pencil drag to a new cell, as a state update. *)
Lemma pencil_move st lr lc row col :
  currentTool st = pencil -> isDrawing st = true -> lastDrawnPos st = Some (lr, lc) ->
  (lr, lc) <> (row, col) -> cellInGrid st (lr, lc) -> cellInGrid st (row, col) ->
  exists cs, Bresenham.lineCells lr lc row col = Some ((lr, lc) :: cs) /\
    onCanvasMouseMove st (Some (row, col)) 1 =
    setLastDrawnPos (Some (row, col))
      (setGrid (Grid.paintCells (grid st)
                  (strokeCells (gridHeight st) (gridWidth st) (brushSize st) ((lr, lc) :: cs))
                  (currentColor st))
        (setColorHistory (ColorHistory.addToColorHistory (currentColor st) (colorHistory st)) st)).
Proof.
  intros Ht Hi Hl Hne H0 H1.
  destruct (lineCells_in_grid st lr lc row col H0 H1) as (cs & E & Hin).
  exists cs. split; [done|].
  unfold onCanvasMouseMove. rewrite Z.eqb_refl, Hi, Ht. cbn [negb andb drawsStrokes]. rewrite Hi, Hl.
  replace (negb (lr =? row) || negb (lc =? col)) with true
    by (case_zb; congruence).
  rewrite (drawLine_fold st lr lc row col _ E), fold_drawPixel_pencil by done.
  by rewrite Ht.
Qed.

(** C14: a click with the fill tool records two history snapshots of the
    filled grid: one in [drawPixel]'s fill branch, one in [stopDrawing]. *)
Theorem fill_click_two_snapshots st row col :
  currentTool st = fill -> cellInGrid st (row, col) ->
  historyState (gesture st (row, col) []) =
  History.saveState (grid (gesture st (row, col) []))
    (History.saveState (grid (gesture st (row, col) [])) (historyState st)).
Proof.
  intros Ht Hin. unfold gesture, onCanvasMouseUp, stopDrawing, onCanvasMouseDown, startDrawing.
  cbn [fold_left]. rewrite drawPixel_in_grid by done. simpl. rewrite Ht. reflexivity.
Qed.

(** C15: an eyedropper click takes the cell's colour, switches back to the
    pencil, leaves the grid alone, and still records a history snapshot
    through [stopDrawing]. *)
Theorem eyedropper_click st row col v :
  currentTool st = eyedropper -> cellInGrid st (row, col) -> Grid.get (grid st) row col = Some v ->
  let st' := gesture st (row, col) [] in
  currentColor st' = v /\ currentTool st' = pencil /\ grid st' = grid st /\
  historyState st' = History.saveState (grid st) (historyState st).
Proof.
  intros Ht Hin Hv. unfold gesture, onCanvasMouseUp, stopDrawing, onCanvasMouseDown, startDrawing.
  cbn [fold_left]. rewrite drawPixel_in_grid by done. simpl. rewrite Ht, Hv. done.
Qed.

(** C16: the eyedropper returns to the pencil while the button is still down,
    so dragging on after a pick paints the Bresenham line from the picked
    cell in the picked colour. *)
Theorem eyedropper_drag_paints st row col row' col' v :
  currentTool st = eyedropper -> cellInGrid st (row, col) -> cellInGrid st (row', col') ->
  (row, col) <> (row', col') -> Grid.get (grid st) row col = Some v ->
  exists cs, Bresenham.lineCells row col row' col' = Some ((row, col) :: cs) /\
    grid (onCanvasMouseMove (onCanvasMouseDown st (Some (row, col))) (Some (row', col')) 1) =
    Grid.paintCells (grid st) (strokeCells (gridHeight st) (gridWidth st) (brushSize st) ((row, col) :: cs)) v.
Proof.
  intros Ht H0 H1 Hne Hv. unfold onCanvasMouseDown, startDrawing.
  rewrite drawPixel_in_grid by done. simpl. rewrite Ht, Hv. cbn [default].
  edestruct pencil_move as (cs & E & ->); [| | |exact Hne|exact H0|exact H1|]; try done.
  exists cs. by split.
Qed.

(** The painted cells of a stroke are cells of the grid. *)
Lemma strokeCells_in_grid h w bs cs r c :
  (r, c) ∈ strokeCells h w bs cs -> 0 <= r < h /\ 0 <= c < w.
Proof.
  unfold strokeCells. rewrite list_elem_of_In, in_flat_map.
  intros ([qr qc] & _ & Hin). apply Brush.in_brushCells in Hin. lia.
Qed.

(** C8: one move of a pencil drag to a new cell paints the brush footprint
    of every cell of the Bresenham line from the last committed cell in the
    current colour, leaves every other cell alone, commits the new cell and
    does not touch the history. *)
Theorem drag_step_paints st lr lc row col :
  inv st -> currentTool st = pencil -> isDrawing st = true -> lastDrawnPos st = Some (lr, lc) ->
  (lr, lc) <> (row, col) -> cellInGrid st (lr, lc) -> cellInGrid st (row, col) ->
  exists cs, Bresenham.lineCells lr lc row col = Some ((lr, lc) :: cs) /\
    let st' := onCanvasMouseMove st (Some (row, col)) 1 in
    lastDrawnPos st' = Some (row, col) /\ historyState st' = historyState st /\
    forall r c, Grid.get (grid st') r c =
      if decide ((r, c) ∈ strokeCells (gridHeight st) (gridWidth st) (brushSize st) ((lr, lc) :: cs))
      then Some (currentColor st) else Grid.get (grid st) r c.
Proof.
  intros Hinv Ht Hi Hl Hne H0 H1.
  destruct (pencil_move st lr lc row col Ht Hi Hl Hne H0 H1) as (cs & E & ->).
  exists cs. split; [done|]. cbn [lastDrawnPos historyState grid setLastDrawnPos setGrid setColorHistory].
  split; [done|]. split; [done|]. intros r c. rewrite Grid.get_paintCells.
  case_decide as Hin; [|done]. apply strokeCells_in_grid in Hin as [Hr Hc].
  by destruct (Grid.get_in_bounds (grid st) _ _ r c (inv_grid _ Hinv) Hr Hc) as [x ->].
Qed.

(** [undo] on the page is [History.undoLive] on the pair (history, grid). *)
Lemma undo_live st : (historyState (undo st), grid (undo st)) = History.undoLive (historyState st, grid st).
Proof.
  unfold undo, History.undoLive. cbn [fst].
  by destruct (History.undo (historyState st)) as [[h g]|].
Qed.

Lemma iter_undo_live j st :
  (historyState (Nat.iter j undo st), grid (Nat.iter j undo st)) =
  Nat.iter j History.undoLive (historyState st, grid st).
Proof. induction j as [|j IH]; [done|]. by rewrite !Nat.iter_succ, undo_live, IH. Qed.

(** C23: liveness of undo: from every state satisfying the invariant,
    [historyIndex] clicks on Undo bring the cursor to the oldest snapshot
    (the grid showing that snapshot when there was anything to undo), the
    stack itself unchanged; there the button does nothing any more. *)
Theorem undo_reaches_oldest st :
  inv st ->
  let st' := Nat.iter (Z.to_nat (History.historyIndex (historyState st))) undo st in
  historyState st' = History.mkHistory (History.history (historyState st)) 0 /\
  (0 < History.historyIndex (historyState st) ->
   History.history (historyState st) !! 0%nat = Some (grid st')) /\
  undo st' = st'.
Proof.
  intros Hinv st'. pose proof (inv_hist _ Hinv) as Hh. pose proof (inv_hist_ne _ Hinv) as Hne.
  pose proof (iter_undo_live (Z.to_nat (History.historyIndex (historyState st))) st) as E.
  fold st' in E. clearbody st'.
  destruct (historyState st) as [L idx]. cbn [History.history History.historyIndex] in *.
  destruct Hh as [[HL _]|[Hi Hl]]; cbn [History.history History.historyIndex] in *; [done|].
  destruct (History.undoLive_down L (Z.to_nat idx) (Z.to_nat idx) (grid st)) as [E1 E2]; [lia|].
  replace (Z.of_nat (Z.to_nat idx)) with idx in E1, E2 by lia.
  rewrite <- E in E1, E2. cbn [fst snd] in E1, E2. rewrite Nat.sub_diag in E1, E2.
  split; [exact E1|]. split; [intros; apply E2; lia|].
  unfold undo. by rewrite E1.
Qed.

(** ** Witnesses on the mounted editor (32 x 32, pencil, black) *)

Lemma reachable_inv_witness :
  reachable (handle mounted (MouseDown (Some (3, 4)))) /\ inv (handle mounted (MouseDown (Some (3, 4)))).
Proof.
  assert (reachable (handle mounted (MouseDown (Some (3, 4))))) as Hr
    by (apply reach_step; [constructor|reflexivity]).
  split; [exact Hr|]. apply (reachable_inv _ Hr).
Defined.

Lemma gesture_one_snapshot_witness :
  drawsStrokes (currentTool mounted) = true /\
  historyState (gesture mounted (1, 1) [Some (1, 5); Some (4, 5)]) =
  History.saveState (grid (gesture mounted (1, 1) [Some (1, 5); Some (4, 5)])) (historyState mounted) /\
  isDrawing (gesture mounted (1, 1) [Some (1, 5); Some (4, 5)]) = false.
Proof. split; [reflexivity|]. apply gesture_one_snapshot. reflexivity. Defined.

Lemma drag_step_paints_witness :
  exists cs, Bresenham.lineCells 2 2 5 7 = Some ((2, 2) :: cs) /\
    let st' := onCanvasMouseMove (setLastDrawnPos (Some (2, 2)) (setIsDrawing true mounted)) (Some (5, 7)) 1 in
    lastDrawnPos st' = Some (5, 7) /\
    historyState st' = historyState (setLastDrawnPos (Some (2, 2)) (setIsDrawing true mounted)) /\
    forall r c, Grid.get (grid st') r c =
      if decide ((r, c) ∈ strokeCells 32 32 1 ((2, 2) :: cs)) then Some "#000000"
      else Grid.get (grid mounted) r c.
Proof.
  apply (drag_step_paints (setLastDrawnPos (Some (2, 2)) (setIsDrawing true mounted)) 2 2 5 7);
    try reflexivity; [|congruence| |]; [|unfold cellInGrid; simpl; lia..].
  apply inv_setLastDrawnPos, inv_setIsDrawing, inv_mounted.
Defined.

Lemma fill_click_two_snapshots_witness :
  historyState (gesture (setCurrentTool fill mounted) (3, 3) []) =
  History.saveState (grid (gesture (setCurrentTool fill mounted) (3, 3) []))
    (History.saveState (grid (gesture (setCurrentTool fill mounted) (3, 3) []))
       (historyState (setCurrentTool fill mounted))).
Proof.
  apply fill_click_two_snapshots; [reflexivity|]. unfold cellInGrid; simpl; lia.
Defined.

Lemma eyedropper_click_witness :
  currentColor (gesture (setCurrentTool eyedropper mounted) (3, 3) []) = "#FFFFFF" /\
  currentTool (gesture (setCurrentTool eyedropper mounted) (3, 3) []) = pencil /\
  grid (gesture (setCurrentTool eyedropper mounted) (3, 3) []) = grid mounted /\
  historyState (gesture (setCurrentTool eyedropper mounted) (3, 3) []) =
  History.saveState (grid mounted) (historyState mounted).
Proof.
  apply (eyedropper_click (setCurrentTool eyedropper mounted) 3 3 "#FFFFFF");
    [reflexivity|unfold cellInGrid; simpl; lia|vm_compute; reflexivity].
Defined.

Lemma eyedropper_drag_paints_witness :
  exists cs, Bresenham.lineCells 3 3 3 6 = Some ((3, 3) :: cs) /\
    grid (onCanvasMouseMove (onCanvasMouseDown (setCurrentTool eyedropper mounted) (Some (3, 3)))
            (Some (3, 6)) 1) =
    Grid.paintCells (grid mounted) (strokeCells 32 32 1 ((3, 3) :: cs)) "#FFFFFF".
Proof.
  apply (eyedropper_drag_paints (setCurrentTool eyedropper mounted) 3 3 3 6 "#FFFFFF");
    [reflexivity|unfold cellInGrid; simpl; lia|unfold cellInGrid; simpl; lia|congruence|
     vm_compute; reflexivity].
Defined.

Lemma undo_reaches_oldest_witness :
  inv (handle (handle mounted (MouseDown (Some (1, 1)))) MouseUp) /\
  let st' := Nat.iter (Z.to_nat (History.historyIndex (historyState (handle (handle mounted (MouseDown (Some (1, 1)))) MouseUp)))) undo (handle (handle mounted (MouseDown (Some (1, 1)))) MouseUp) in
  historyState st' = History.mkHistory (History.history (historyState (handle (handle mounted (MouseDown (Some (1, 1)))) MouseUp))) 0 /\
  (0 < History.historyIndex (historyState (handle (handle mounted (MouseDown (Some (1, 1)))) MouseUp)) ->
   History.history (historyState (handle (handle mounted (MouseDown (Some (1, 1)))) MouseUp)) !! 0%nat = Some (grid st')) /\
  undo st' = st'.
Proof.
  assert (Hi : inv (handle (handle mounted (MouseDown (Some (1, 1)))) MouseUp)) by (apply inv_handle; [apply inv_handle; [apply inv_mounted|reflexivity]|reflexivity]).
  split; [exact Hi|]. exact (undo_reaches_oldest _ Hi).
Defined.

End Editor.
