(* ===== verification/Session.v ===== *)
(** * Dialogs, resize input and keyboard shortcuts

    The part of App.vue around the editor session: the modal dialog
    ([showDialog], [closeDialog], [confirmDialog], [cancelDialog] and the
    dialog refs), the two actions that open it ([clearGrid], [resizeGrid])
    with their callbacks, JavaScript's [parseInt] as [resizeGrid] calls it,
    and the [keydown] listener installed by [onMounted].

    The callbacks the code stores in [dialogCallback] are closures; they are
    defunctionalised into [Callback], one constructor per closure the code
    creates, and [runCallback] is their body.  A [Session] pairs the editor
    refs of [Editor.v] with the dialog refs, and [step] dispatches the
    page's events, the editor's own events going to [Editor.handle]. *)

From Stdlib Require Import Ascii.
From stdpp Require Import pretty.
From S2P Require Import Prelude Grid History ColorHistory Brush Bresenham Connectivity FloodFill Editor.

Module Session.
Import Editor.

(** ** [parseInt(string)] without a radix *)

(** [StrWhiteSpaceChar] restricted to ASCII: tab, line feed, vertical
    tab, form feed, carriage return, space. *)
Definition isWhite (a : ascii) : bool :=
  match nat_of_ascii a with
  | 9 | 10 | 11 | 12 | 13 | 32 => true
  | _ => false
  end%nat.

Fixpoint trimStart (l : list ascii) : list ascii :=
  match l with
  | a :: l' => if isWhite a then trimStart l' else l
  | [] => []
  end.

(** The value of a digit character in radix up to 36; 99 for anything
    else, which is never a digit. *)
Definition digitVal (a : ascii) : Z :=
  let n := Z.of_nat (nat_of_ascii a) in
  if (48 <=? n) && (n <=? 57) then n - 48
  else if (97 <=? n) && (n <=? 122) then n - 87
  else if (65 <=? n) && (n <=? 90) then n - 55
  else 99.

(** The longest prefix of digits of [radix], accumulated into [acc];
    [None] ([NaN]) when there is no digit at all. *)
Fixpoint digits (radix : Z) (l : list ascii) (acc : Z) (seen : bool) : option Z :=
  match l with
  | a :: l' =>
      if digitVal a <? radix then digits radix l' (acc * radix + digitVal a) true
      else if seen then Some acc else None
  | [] => if seen then Some acc else None
  end.

(** The optional sign. *)
Definition jsSign (l : list ascii) : Z * list ascii :=
  match l with
  | "-"%char :: l' => (-1, l')
  | "+"%char :: l' => (1, l')
  | _ => (1, l)
  end.

Definition jsRadix (l : list ascii) : Z * list ascii :=
  match l with
  | "0"%char :: ("x"%char | "X"%char) :: l' => (16, l')
  | _ => (10, l)
  end.

(** [parseInt(s)]: skip white space, an optional sign, a [0x]/[0X] prefix
    switching to radix 16, then the longest run of digits.  [None] is [NaN].
    (The double rounding of very long digit runs is not modelled; the only
    caller rejects every value above 64.) *)
Definition parseInt (s : string) : option Z :=
  let '(sign, l) := jsSign (trimStart (String.list_ascii_of_string s)) in
  let '(radix, l) := jsRadix l in
  option_map (Z.mul sign) (digits radix l 0 false).

(** ** The dialog *)

Inductive DialogType := confirm | prompt | alert.

#[export] Instance DialogType_eq_dec : EqDecision DialogType.
Proof. solve_decision. Defined.

(** The closures stored in [dialogCallback]: [clearGrid]'s, [resizeGrid]'s,
    and the empty [() => {}] of the alerts. *)
Inductive Callback := ClearCallback | ResizeCallback | AlertCallback.

(** The argument a callback receives: a string, a boolean, or nothing. *)
Inductive CbValue := VStr (s : string) | VBool (b : bool) | VNone.

Record DialogState := mkDialog {
  dialogVisible : bool;
  dialogType : DialogType;
  dialogTitle : string;
  dialogMessage : string;
  dialogInput : string;
  dialogCallback : option Callback
}.

Record Session := mkSession { editor : EditorState; dialog : DialogState }.

Definition setEditor (e : EditorState) (s : Session) : Session := mkSession e (dialog s).
Definition setDialog (d : DialogState) (s : Session) : Session := mkSession (editor s) d.

(** The initial dialog refs. *)
Definition initialDialog : DialogState := mkDialog false alert "" "" "" None.

Definition showDialog (type : DialogType) (title message : string) (callback : Callback)
    (s : Session) : Session :=
  setDialog (mkDialog true type title message "" (Some callback)) s.

Definition closeDialog (s : Session) : Session :=
  let d := dialog s in
  setDialog (mkDialog false (dialogType d) (dialogTitle d) (dialogMessage d) (dialogInput d) None) s.

(** JavaScript truthiness of the callback's argument. *)
Definition truthy (v : CbValue) : bool :=
  match v with
  | VStr str => negb (String.eqb str "")
  | VBool b => b
  | VNone => false
  end.

(** [value as string] as [parseInt] sees it: [String(value)]. *)
Definition jsString (v : CbValue) : string :=
  match v with
  | VStr str => str
  | VBool true => "true"
  | VBool false => "false"
  | VNone => "undefined"
  end.

(** The bodies of the closures. *)
Definition runCallback (cb : Callback) (v : CbValue) (s : Session) : Session :=
  match cb with
  | ClearCallback => if truthy v then setEditor (Editor.clearGrid (editor s)) s else s
  | ResizeCallback =>
      if negb (truthy v) then s else
      match parseInt (jsString v) with
      | None => showDialog alert "Invalid Input" "Please enter a valid number." AlertCallback s
      | Some newSize =>
          if (newSize <? 8) || (newSize >? 64)
          then showDialog alert "Invalid Size" "Grid size must be between 8 and 64." AlertCallback s
          else setEditor (Editor.resizeTo newSize (editor s)) s
      end
  | AlertCallback => s
  end.

(** [confirmDialog]: call the callback with the input, [true] or nothing
    according to the type read before the call, then [closeDialog]. *)
Definition confirmDialog (s : Session) : Session :=
  let s := match dialogCallback (dialog s) with
           | Some cb =>
               let v := match dialogType (dialog s) with
                        | prompt => VStr (dialogInput (dialog s))
                        | confirm => VBool true
                        | alert => VNone
                        end in
               runCallback cb v s
           | None => s
           end in
  closeDialog s.

(** [cancelDialog]: only a confirm dialog's callback hears of it. *)
Definition cancelDialog (s : Session) : Session :=
  let s := match dialogCallback (dialog s), dialogType (dialog s) with
           | Some cb, confirm => runCallback cb (VBool false) s
           | _, _ => s
           end in
  closeDialog s.

(** The two toolbar actions that open a dialog. *)
Definition clearGrid (s : Session) : Session :=
  showDialog confirm "Clear Canvas" "Are you sure you want to clear the entire canvas?"
    ClearCallback s.

Definition resizeGrid (s : Session) : Session :=
  showDialog prompt "Resize Canvas"
    ("Enter grid size (8-64, current: " +:+ pretty (gridWidth (editor s)) +:+ "x" +:+
     pretty (gridHeight (editor s)) +:+ "):") ResizeCallback s.

(** ** Keyboard shortcuts *)

Inductive KeyAction := KUndo | KRedo.

(** The [keydown] listener's two tests, on [ctrlKey], [metaKey],
    [shiftKey] and [key]. *)
Definition keyAction (ctrl meta shift : bool) (key : string) : option KeyAction :=
  if (ctrl || meta) && String.eqb key "z" && negb shift then Some KUndo
  else if (ctrl || meta) && (String.eqb key "y" || (String.eqb key "z" && shift)) then Some KRedo
  else None.

(** ** The page's events *)

Inductive Event :=
  | EditorEvent (e : Editor.Event)
  | ClearButton
  | ResizeButton
  | DialogInput (str : string)
  | DialogConfirm
  | DialogCancel
  | KeyDown (ctrl meta shift : bool) (key : string).

Definition step (s : Session) (ev : Event) : Session :=
  match ev with
  | EditorEvent e => setEditor (Editor.handle (editor s) e) s
  | ClearButton => clearGrid s
  | ResizeButton => resizeGrid s
  | DialogInput str =>
      let d := dialog s in
      setDialog (mkDialog (dialogVisible d) (dialogType d) (dialogTitle d) (dialogMessage d) str
                   (dialogCallback d)) s
  | DialogConfirm => confirmDialog s
  | DialogCancel => cancelDialog s
  | KeyDown ctrl meta shift key =>
      match keyAction ctrl meta shift key with
      | Some KUndo => setEditor (Editor.undo (editor s)) s
      | Some KRedo => setEditor (Editor.redo (editor s)) s
      | None => s
      end
  end.

Definition mountedSession : Session := mkSession Editor.mounted initialDialog.

Definition validEvent (s : Session) (ev : Event) : bool :=
  match ev with
  | EditorEvent e => Editor.validEvent (editor s) e
  | _ => true
  end.

Inductive reachable : Session -> Prop :=
  | sreach_mounted : reachable mountedSession
  | sreach_step s ev : reachable s -> validEvent s ev = true -> reachable (step s ev).

(** The value of a run of digits, most significant first. *)
Definition digitsValue (radix : Z) (ds : list ascii) (acc : Z) : Z :=
  fold_left (fun acc a => acc * radix + digitVal a) ds acc.

(** [rest] does not continue a run of digits of [radix]. *)
Definition stopsDigits (radix : Z) (rest : list ascii) : Prop :=
  match rest with a :: _ => radix <= digitVal a | [] => True end.

(** A run of decimal digits that a [0x] prefix cannot capture. *)
Definition notHexPrefix (ds rest : list ascii) : Prop :=
  match ds, rest with
  | ["0"%char], a :: _ => a <> "x"%char /\ a <> "X"%char
  | _, _ => True
  end.

(** The dialog's consistency: a visible dialog is a confirm or a prompt
    with its callback pending; a hidden one has no callback. *)
Definition dialogOk (d : DialogState) : Prop :=
  (dialogVisible d = true /\ dialogType d <> alert /\ is_Some (dialogCallback d)) \/
  (dialogVisible d = false /\ dialogCallback d = None).

(** ** Lemmas *)

(** A decimal digit is no white space, no sign and, unless it is [0], no
    start of a [0x] prefix (by evaluation on the 256 characters). *)
Lemma digit_char a :
  digitVal a < 10 ->
  isWhite a = false /\ (forall l, jsSign (a :: l) = (1, a :: l)) /\
  (a <> "0"%char -> forall l, jsRadix (a :: l) = (10, a :: l)).
Proof.
  destruct a as [[] [] [] [] [] [] [] []]; intros H;
    first [compute in H; discriminate
          |split; [reflexivity|split; [reflexivity|intros Hne l; first [reflexivity|by destruct Hne]]]].
Qed.

(** A character that is no digit and no sign leaves [jsSign] and [jsRadix]
    alone (by evaluation on the 256 characters). *)
Lemma nondigit_char a :
  10 <= digitVal a -> a <> "-"%char -> a <> "+"%char ->
  (forall l, jsSign (a :: l) = (1, a :: l)) /\ (forall l, jsRadix (a :: l) = (10, a :: l)).
Proof.
  intros H Hm Hp. assert (Hb : (10 <=? digitVal a) = true) by lia. clear H.
  destruct a as [[] [] [] [] [] [] [] []]; vm_compute in Hb; try discriminate;
    first [by destruct Hm|by destruct Hp|split; intros l; reflexivity].
Qed.

Lemma zero_radix b l :
  b <> "x"%char /\ b <> "X"%char -> jsRadix ("0"%char :: b :: l) = (10, "0"%char :: b :: l).
Proof.
  destruct b as [[] [] [] [] [] [] [] []]; intros [Hx HX]; first [reflexivity|by destruct Hx|by destruct HX].
Qed.

Lemma digit_not_x b : digitVal b < 10 -> b <> "x"%char /\ b <> "X"%char.
Proof. intros H. split; intros ->; compute in H; discriminate. Qed.

Lemma trimStart_app ws l :
  Forall (fun a => isWhite a = true) ws -> (match l with a :: _ => isWhite a = false | [] => True end) ->
  trimStart (ws ++ l) = l.
Proof.
  intros Hws Hl. induction Hws as [|w ws Hw Hws IH]; simpl; [|by rewrite Hw].
  destruct l as [|a l]; simpl; [done|]. by rewrite Hl.
Qed.

Lemma digits_run radix ds rest acc seen :
  Forall (fun a => digitVal a < radix) ds -> stopsDigits radix rest ->
  digits radix (ds ++ rest) acc seen =
  if decide (ds = []) then (if seen then Some acc else None) else Some (digitsValue radix ds acc).
Proof.
  intros Hds Hrest. revert acc seen. induction Hds as [|a ds Ha Hds IH]; intros acc seen; simpl.
  - destruct rest as [|b rest]; simpl in *; [done|]. case_zb; [lia|done].
  - case_zb; [|lia]. rewrite IH. destruct ds; done.
Qed.

Lemma inv_runCallback cb v s : Editor.inv (editor s) -> Editor.inv (editor (runCallback cb v s)).
Proof.
  intros Hinv. destruct cb; simpl; [destruct (truthy v); simpl; [by apply inv_clearGrid|done]| |done].
  destruct (negb (truthy v)); [done|]. destruct (parseInt (jsString v)) as [n|]; [|done].
  pose proof (inv_resizeWith (Some n) (editor s) Hinv) as H. simpl in H.
  destruct (_ || _); [done|]. exact H.
Qed.

Lemma editor_closeDialog s : editor (closeDialog s) = editor s.
Proof. done. Qed.

Lemma inv_step s ev : Editor.inv (editor s) -> validEvent s ev = true -> Editor.inv (editor (step s ev)).
Proof.
  intros Hinv Hv. destruct ev; simpl in *; try done.
  - by apply inv_handle.
  - destruct (dialogCallback (dialog s)); [|done]. by apply inv_runCallback.
  - destruct (dialogCallback (dialog s)), (dialogType (dialog s)); try done. by apply inv_runCallback.
  - destruct (keyAction _ _ _ _) as [[]|]; simpl; [by apply inv_undo|by apply inv_redo|done].
Qed.


(** C26: [parseInt] reads the longest run of decimal digits after leading
    white space and ignores whatever follows it. *)
Theorem parseInt_decimal ws ds rest :
  Forall (fun a => isWhite a = true) ws -> ds <> [] -> Forall (fun a => digitVal a < 10) ds ->
  stopsDigits 10 rest -> notHexPrefix ds rest ->
  parseInt (String.string_of_list_ascii (ws ++ ds ++ rest)) = Some (digitsValue 10 ds 0).
Proof.
  intros Hws Hne Hds Hrest Hhex. unfold parseInt. rewrite String.list_ascii_of_string_of_list_ascii.
  destruct ds as [|a ds]; [done|]. pose proof Hds as [Ha Hds']%Forall_cons.
  destruct (digit_char a Ha) as (Hw & Hs & Hr).
  rewrite trimStart_app by done. cbn [app]. rewrite Hs.
  assert (jsRadix (a :: ds ++ rest) = (10, a :: ds ++ rest)) as ->.
  { destruct (Ascii.ascii_dec a "0"%char) as [->|Hz]; [|by apply Hr].
    destruct ds as [|b ds]; cbn [app].
    - destruct rest as [|b rest]; [done|]. by apply zero_radix.
    - apply zero_radix, digit_not_x. by apply Forall_cons in Hds' as [? _]. }
  cbv beta iota. change (a :: ds ++ rest) with ((a :: ds) ++ rest).
  rewrite (digits_run 10 (a :: ds) rest 0 false Hds Hrest). simpl. f_equal. lia.
Qed.

(** C27: the error case of [parseInt]: input whose first character after
    leading white space and an optional sign is no decimal digit (and so
    no [0x] prefix either) is [NaN], whatever follows; with
    [parseInt_decimal] this is the whole of what the resize prompt accepts
    as a decimal number. *)
Theorem parseInt_nan ws sgn a rest :
  Forall (fun c => isWhite c = true) ws -> sgn = [] \/ sgn = ["-"%char] \/ sgn = ["+"%char] ->
  isWhite a = false -> 10 <= digitVal a -> a <> "-"%char -> a <> "+"%char ->
  parseInt (String.string_of_list_ascii (ws ++ sgn ++ a :: rest)) = None.
Proof.
  intros Hws Hsgn Hw Hd Hm Hp. destruct (nondigit_char a Hd Hm Hp) as [Hs Hr].
  unfold parseInt. rewrite String.list_ascii_of_string_of_list_ascii.
  destruct Hsgn as [->|[->| ->]]; cbn [app]; rewrite trimStart_app by done;
    [rewrite Hs|change (jsSign _) with (-1, a :: rest)|change (jsSign _) with (1, a :: rest)];
    cbv iota beta; rewrite Hr; cbv iota beta; cbn [digits]; by rewrite (proj2 (Z.ltb_ge _ _) Hd).
Qed.

(** Examples of the finding on [parseInt]: trailing junk is ignored,
    decimals are truncated and a [0x] prefix reads hexadecimal. *)
Example parseInt_examples :
  parseInt "20px" = Some 20 /\ parseInt "12.7" = Some 12 /\ parseInt "0x10" = Some 16 /\
  parseInt "  -9" = Some (-9) /\ parseInt "abc" = None /\ parseInt "0x" = None /\
  parseInt "" = None.
Proof. vm_compute. repeat split. Qed.

(** Rule induction over the page's reachable states. *)
Lemma reachable_editor_inv s : reachable s -> Editor.inv (editor s).
Proof.
  induction 1 as [|s ev Hr IH Hv]; [apply Editor.inv_mounted|]. by apply inv_step.
Qed.

(** C2: every state of the page, dialogs included, satisfies the editor
    invariant of [Editor.inv]. *)
Theorem session_inv s : reachable s -> Editor.inv (editor s).
Proof. apply reachable_editor_inv. Qed.

Lemma dialogOk_closeDialog s : dialogOk (dialog (closeDialog s)).
Proof. by right. Qed.

Lemma dialogOk_step s ev : dialogOk (dialog s) -> dialogOk (dialog (step s ev)).
Proof.
  intros Hd. destruct ev as [e| | |str| | |ctrl meta shift key]; cbn [step].
  - exact Hd.
  - left. split_and!; [done|discriminate|by eexists].
  - left. split_and!; [done|discriminate|by eexists].
  - exact Hd.
  - unfold confirmDialog. apply dialogOk_closeDialog.
  - unfold cancelDialog. apply dialogOk_closeDialog.
  - by destruct (keyAction ctrl meta shift key) as [[]|].
Qed.

Lemma reachable_dialogOk s : reachable s -> dialogOk (dialog s).
Proof. induction 1 as [|s ev Hr IH Hv]; [by right|]. by apply dialogOk_step. Qed.

(** C19: in every state of the page a visible dialog is a confirm or a
    prompt waiting for its callback, and a hidden dialog has no callback:
    an alert dialog is never visible, because the code only opens alerts
    from inside a callback that [confirmDialog] closes right after. *)
Theorem dialog_never_alert s :
  reachable s ->
  (dialogVisible (dialog s) = true -> dialogType (dialog s) <> alert /\ is_Some (dialogCallback (dialog s))) /\
  (dialogVisible (dialog s) = false -> dialogCallback (dialog s) = None).
Proof.
  intros Hr. destruct (reachable_dialogOk s Hr) as [(-> & Ht & Hc)|[-> Hc]]; split; intros; by try discriminate.
Qed.

(** C17: an input that is not a number shows the "Invalid Input" alert from
    inside the prompt's callback, and [confirmDialog] closes it again at
    once: the dialog ends hidden, the grid unchanged. *)
Theorem resize_invalid_alert_closed s str :
  str <> "" -> parseInt str = None ->
  let s' := step (step (step s ResizeButton) (DialogInput str)) DialogConfirm in
  editor s' = editor s /\ dialogVisible (dialog s') = false /\
  dialogTitle (dialog s') = "Invalid Input" /\ dialogCallback (dialog s') = None.
Proof.
  intros Hne Hp. cbn -[parseInt]. rewrite (proj2 (String.eqb_neq _ _) Hne). cbn -[parseInt].
  rewrite Hp. done.
Qed.

(** C18: the same for a number outside 8..64: the "Invalid Size" alert is
    closed as soon as it is shown. *)
Theorem resize_out_of_range_alert_closed s str n :
  str <> "" -> parseInt str = Some n -> n < 8 \/ 64 < n ->
  let s' := step (step (step s ResizeButton) (DialogInput str)) DialogConfirm in
  editor s' = editor s /\ dialogVisible (dialog s') = false /\
  dialogTitle (dialog s') = "Invalid Size".
Proof.
  intros Hne Hp Hn. cbn -[parseInt]. rewrite (proj2 (String.eqb_neq _ _) Hne). cbn -[parseInt].
  rewrite Hp. replace ((n <? 8) || (n >? 64)) with true by (case_zb; lia). done.
Qed.

(** An accepted size reaches [Editor.resizeTo] and closes the dialog. *)
Lemma resize_accepted_step s str n :
  str <> "" -> parseInt str = Some n -> 8 <= n <= 64 ->
  let s' := step (step (step s ResizeButton) (DialogInput str)) DialogConfirm in
  editor s' = Editor.resizeTo n (editor s) /\ dialogVisible (dialog s') = false.
Proof.
  intros Hne Hp Hn. cbn -[parseInt Editor.resizeTo]. rewrite (proj2 (String.eqb_neq _ _) Hne).
  cbn -[parseInt Editor.resizeTo]. rewrite Hp. replace ((n <? 8) || (n >? 64)) with false by (case_zb; lia).
  done.
Qed.

(** C20: an accepted size [n] leaves an [n] x [n] grid of white cells, a
    history holding exactly that grid with the cursor on it, and the dialog
    closed. *)
Theorem resize_accepted s str n :
  str <> "" -> parseInt str = Some n -> 8 <= n <= 64 ->
  let s' := step (step (step s ResizeButton) (DialogInput str)) DialogConfirm in
  gridWidth (editor s') = n /\ gridHeight (editor s') = n /\ Grid.wf n n (grid (editor s')) /\
  (forall r c, 0 <= r < n -> 0 <= c < n -> Grid.get (grid (editor s')) r c = Some Grid.BACKGROUND) /\
  historyState (editor s') = History.mkHistory [grid (editor s')] 0 /\
  dialogVisible (dialog s') = false.
Proof.
  intros Hne Hp Hn s'. destruct (resize_accepted_step s str n Hne Hp Hn) as [E Hd]. fold s' in E, Hd.
  rewrite E. cbn [Editor.resizeTo Editor.initializeGrid Editor.saveState Editor.setGridHeight Editor.setGridWidth
    Editor.setGrid Editor.setHistoryState gridWidth gridHeight grid historyState].
  split; [done|]. split; [done|]. split; [apply Grid.wf_makeGrid|]. split; [|split; [reflexivity|exact Hd]].
  intros r c Hr Hc. rewrite Grid.get_makeGrid. by rewrite (proj2 (Grid.inBounds_spec n n r c)) by lia.
Qed.

(** C30: the clear dialog, confirmed, paints every cell of the grid white
    at its size and records that grid as one new history snapshot;
    cancelled, it changes nothing; either way the dialog ends closed. *)
Theorem clear_dialog s :
  Editor.inv (editor s) ->
  let ec := editor (step (step s ClearButton) DialogConfirm) in
  gridWidth ec = gridWidth (editor s) /\ gridHeight ec = gridHeight (editor s) /\
  Grid.wf (gridHeight ec) (gridWidth ec) (grid ec) /\
  (forall r c, 0 <= r < gridHeight ec -> 0 <= c < gridWidth ec -> Grid.get (grid ec) r c = Some Grid.BACKGROUND) /\
  historyState ec = History.saveState (grid ec) (historyState (editor s)) /\
  editor (step (step s ClearButton) DialogCancel) = editor s /\
  dialogVisible (dialog (step (step s ClearButton) DialogConfirm)) = false /\
  dialogVisible (dialog (step (step s ClearButton) DialogCancel)) = false.
Proof.
  intros Hinv ec. assert (E : ec = Editor.clearGrid (editor s)) by done. rewrite E.
  pose proof (Editor.inv_grid _ Hinv) as Hwf.
  cbn [Editor.clearGrid Editor.saveState Editor.setGrid Editor.setHistoryState gridWidth gridHeight grid historyState].
  rewrite Grid.clearLoop_paint. split; [done|]. split; [done|]. split; [by apply Grid.wf_paintCells|].
  split; [|done]. intros r c Hr Hc. rewrite Grid.get_paintCells.
  rewrite decide_True by (apply list_elem_of_In, Grid.in_cells; lia).
  by destruct (Grid.get_in_bounds _ _ _ r c Hwf Hr Hc) as [x ->].
Qed.


(** Examples of the shortcut test. *)
Example keyAction_examples :
  keyAction true false false "z" = Some KUndo /\ keyAction false true false "z" = Some KUndo /\
  keyAction true false false "y" = Some KRedo /\ keyAction true false true "Z" = None /\
  keyAction false false false "z" = None.
Proof. vm_compute. repeat split. Qed.

(** ** Witnesses on the mounted page *)

Lemma session_inv_witness :
  reachable (step mountedSession ClearButton) /\ Editor.inv (editor (step mountedSession ClearButton)).
Proof.
  assert (Hr : reachable (step mountedSession ClearButton)) by (apply sreach_step; [constructor|reflexivity]).
  split; [exact Hr|]. apply (session_inv _ Hr).
Defined.

Lemma dialog_never_alert_witness :
  reachable (step mountedSession ResizeButton) /\
  (dialogVisible (dialog (step mountedSession ResizeButton)) = true ->
   dialogType (dialog (step mountedSession ResizeButton)) <> alert /\
   is_Some (dialogCallback (dialog (step mountedSession ResizeButton)))) /\
  (dialogVisible (dialog (step mountedSession ResizeButton)) = false ->
   dialogCallback (dialog (step mountedSession ResizeButton)) = None).
Proof.
  assert (Hr : reachable (step mountedSession ResizeButton)) by (apply sreach_step; [constructor|reflexivity]).
  split; [exact Hr|]. exact (dialog_never_alert _ Hr).
Defined.

Lemma resize_invalid_alert_closed_witness :
  "abc" <> "" /\ parseInt "abc" = None /\
  let s' := step (step (step mountedSession ResizeButton) (DialogInput "abc")) DialogConfirm in
  editor s' = editor mountedSession /\ dialogVisible (dialog s') = false /\
  dialogTitle (dialog s') = "Invalid Input" /\ dialogCallback (dialog s') = None.
Proof.
  split; [discriminate|]. split; [vm_compute; reflexivity|].
  apply resize_invalid_alert_closed; [discriminate|vm_compute; reflexivity].
Defined.

Lemma resize_out_of_range_alert_closed_witness :
  "100" <> "" /\ parseInt "100" = Some 100 /\
  let s' := step (step (step mountedSession ResizeButton) (DialogInput "100")) DialogConfirm in
  editor s' = editor mountedSession /\ dialogVisible (dialog s') = false /\
  dialogTitle (dialog s') = "Invalid Size".
Proof.
  split; [discriminate|]. split; [vm_compute; reflexivity|].
  apply (resize_out_of_range_alert_closed _ _ 100); [discriminate|vm_compute; reflexivity|lia].
Defined.

Lemma resize_accepted_witness :
  "16" <> "" /\ parseInt "16" = Some 16 /\ 8 <= 16 <= 64 /\
  let s' := step (step (step mountedSession ResizeButton) (DialogInput "16")) DialogConfirm in
  gridWidth (editor s') = 16 /\ gridHeight (editor s') = 16 /\ Grid.wf 16 16 (grid (editor s')) /\
  (forall r c, 0 <= r < 16 -> 0 <= c < 16 -> Grid.get (grid (editor s')) r c = Some Grid.BACKGROUND) /\
  historyState (editor s') = History.mkHistory [grid (editor s')] 0 /\
  dialogVisible (dialog s') = false.
Proof.
  split; [discriminate|]. split; [vm_compute; reflexivity|]. split; [lia|].
  apply resize_accepted; [discriminate|vm_compute; reflexivity|lia].
Defined.

Lemma clear_dialog_witness :
  Editor.inv (editor mountedSession) /\
  let ec := editor (step (step mountedSession ClearButton) DialogConfirm) in
  gridWidth ec = gridWidth (editor mountedSession) /\ gridHeight ec = gridHeight (editor mountedSession) /\
  Grid.wf (gridHeight ec) (gridWidth ec) (grid ec) /\
  (forall r c, 0 <= r < gridHeight ec -> 0 <= c < gridWidth ec -> Grid.get (grid ec) r c = Some Grid.BACKGROUND) /\
  historyState ec = History.saveState (grid ec) (historyState (editor mountedSession)) /\
  editor (step (step mountedSession ClearButton) DialogCancel) = editor mountedSession /\
  dialogVisible (dialog (step (step mountedSession ClearButton) DialogConfirm)) = false /\
  dialogVisible (dialog (step (step mountedSession ClearButton) DialogCancel)) = false.
Proof. split; [exact Editor.inv_mounted|]. exact (clear_dialog mountedSession Editor.inv_mounted). Defined.

Lemma parseInt_nan_witness :
  Forall (fun c => isWhite c = true) [" "%char] /\
  (["-"%char] = [] \/ ["-"%char] = ["-"%char] \/ ["-"%char] = ["+"%char]) /\
  isWhite "x"%char = false /\ 10 <= digitVal "x"%char /\ "x"%char <> "-"%char /\ "x"%char <> "+"%char /\
  parseInt (String.string_of_list_ascii ([" "%char] ++ ["-"%char] ++ "x"%char :: ["1"%char])) = None.
Proof.
  assert (H1 : Forall (fun c => isWhite c = true) [" "%char]) by (repeat constructor).
  assert (H2 : ["-"%char] = [] \/ ["-"%char] = ["-"%char] \/ ["-"%char] = ["+"%char]) by (right; left; done).
  assert (H3 : isWhite "x"%char = false) by reflexivity.
  assert (H4 : 10 <= digitVal "x"%char) by (vm_compute; discriminate).
  assert (H5 : "x"%char <> "-"%char) by discriminate.
  assert (H6 : "x"%char <> "+"%char) by discriminate.
  split; [exact H1|]. split; [exact H2|]. split; [exact H3|]. split; [exact H4|]. split; [exact H5|]. split; [exact H6|].
  exact (parseInt_nan _ _ _ _ H1 H2 H3 H4 H5 H6).
Defined.

Lemma parseInt_decimal_witness :
  Forall (fun a => isWhite a = true) [" "%char] /\ ["4"%char; "2"%char] <> [] /\
  Forall (fun a => digitVal a < 10) ["4"%char; "2"%char] /\
  stopsDigits 10 ["p"%char; "x"%char] /\ notHexPrefix ["4"%char; "2"%char] ["p"%char; "x"%char] /\
  parseInt (String.string_of_list_ascii ([" "%char] ++ ["4"%char; "2"%char] ++ ["p"%char; "x"%char])) =
  Some (digitsValue 10 ["4"%char; "2"%char] 0).
Proof.
  assert (H1 : Forall (fun a => isWhite a = true) [" "%char]) by (repeat constructor).
  assert (H2 : Forall (fun a => digitVal a < 10) ["4"%char; "2"%char])
    by (repeat constructor; vm_compute; reflexivity).
  assert (H3 : stopsDigits 10 ["p"%char; "x"%char]) by (vm_compute; discriminate).
  assert (H4 : notHexPrefix ["4"%char; "2"%char] ["p"%char; "x"%char]) by exact I.
  split; [exact H1|]. split; [discriminate|]. split; [exact H2|]. split; [exact H3|]. split; [exact H4|].
  apply parseInt_decimal; [exact H1|discriminate|exact H2|exact H3|exact H4].
Defined.

End Session.
