(* ===== verification/Viewport.v ===== *)
(** * Viewport: coordinate mapping and zoom

    App.vue maps a pointer position in display space to a grid cell in
    [getCanvasCoordinates], using the fixed [CANVAS_SIZE] of 640 pixels, the
    computed [pixelSize] and the canvas's bounding rectangle, and clamps the
    result into the grid.  The zoom controls ([zoomIn], [zoomOut],
    [resetZoom], [handleWheel]) only scale the canvas with CSS; the bounding
    rectangle the mapper reads already includes that scale.

    JavaScript numbers are modelled as exact rationals [Q]: the code's
    divisions and the zoom steps of 0.25 and 0.1 are then exact, where
    doubles would round (a point on a cell border can fall on either side
    in the browser; that rounding and [NaN] for an empty rectangle are not
    modelled).  The theorems: the mapped cell is always a cell of the grid
    (clamping), the centre of every cell maps back to that cell (round
    trip), and the zoom level stays within its bounds. *)

From Stdlib Require Import QArith Qminmax Qround Lqa.
From S2P Require Import Prelude Grid History ColorHistory Brush Bresenham Connectivity FloodFill Editor.

Module Viewport.

Open Scope Q_scope.

(** [CANVAS_SIZE] *)
Definition CANVAS_SIZE : Q := 640.

(** [pixelSize]: [Math.min(CANVAS_SIZE / gridWidth, CANVAS_SIZE / gridHeight)]. *)
Definition pixelSize (gridWidth gridHeight : Z) : Q :=
  Qmin (CANVAS_SIZE / inject_Z gridWidth) (CANVAS_SIZE / inject_Z gridHeight).

(** The part of [getBoundingClientRect()] the mapper reads. *)
Record Rect := mkRect { left : Q; top : Q; width : Q; height : Q }.

(** [Math.max(0, Math.min(n - 1, v))] *)
Definition clamp (n v : Z) : Z := Z.max 0 (Z.min (n - 1) v).

(** [getCanvasCoordinates(event)]; [canvas] is whether the canvas element
    is mounted. *)
Definition getCanvasCoordinates (canvas : bool) (rect : Rect) (clientX clientY : Q)
    (gridWidth gridHeight : Z) : option (Z * Z) :=
  if negb canvas then None else
  let scaleX := CANVAS_SIZE / width rect in
  let scaleY := CANVAS_SIZE / height rect in
  let x := (clientX - left rect) * scaleX in
  let y := (clientY - top rect) * scaleY in
  let col := Qfloor (x / pixelSize gridWidth gridHeight) in
  let row := Qfloor (y / pixelSize gridWidth gridHeight) in
  Some (clamp gridHeight row, clamp gridWidth col).

(** ** Zoom *)

Definition MIN_ZOOM : Q := 1 # 4.
Definition MAX_ZOOM : Q := 4.

Definition zoomIn (zoomLevel : Q) : Q := Qmin MAX_ZOOM (zoomLevel + (1 # 4)).
Definition zoomOut (zoomLevel : Q) : Q := Qmax MIN_ZOOM (zoomLevel - (1 # 4)).
Definition resetZoom (zoomLevel : Q) : Q := 1.

(** [handleWheel] with [event.deltaY]. *)
Definition handleWheel (deltaY zoomLevel : Q) : Q :=
  let delta := if Qlt_le_dec 0 deltaY then - (1 # 10) else 1 # 10 in
  Qmax MIN_ZOOM (Qmin MAX_ZOOM (zoomLevel + delta)).

Inductive ZoomEvent := ZoomInButton | ZoomOutButton | ResetZoomButton | Wheel (deltaY : Q).

Definition zoomStep (zoomLevel : Q) (e : ZoomEvent) : Q :=
  match e with
  | ZoomInButton => zoomIn zoomLevel
  | ZoomOutButton => zoomOut zoomLevel
  | ResetZoomButton => resetZoom zoomLevel
  | Wheel deltaY => handleWheel deltaY zoomLevel
  end.

(** The zoom level after a sequence of zoom events from the initial [1]. *)
Definition zoomAfter (es : list ZoomEvent) : Q := fold_left zoomStep es 1.

(** ** Lemmas *)

Lemma clamp_bounds n v : (1 <= n)%Z -> (0 <= clamp n v < n)%Z.
Proof. unfold clamp. lia. Qed.

Lemma clamp_id n v : (0 <= v < n)%Z -> clamp n v = v.
Proof. unfold clamp. lia. Qed.

Lemma pixelSize_square n : (0 < n)%Z -> pixelSize n n == CANVAS_SIZE / inject_Z n.
Proof. intros Hn. unfold pixelSize. apply Q.min_id. Qed.

(** [Qfloor] of a point of [[k, k+1)]. *)
Lemma Qfloor_in (q : Q) (k : Z) : inject_Z k <= q -> q < inject_Z (k + 1) -> Qfloor q = k.
Proof.
  intros H1 H2.
  assert (A : inject_Z (Qfloor q) < inject_Z (k + 1)) by (eapply Qle_lt_trans; [apply Qfloor_le|exact H2]).
  assert (B : inject_Z k < inject_Z (Qfloor q + 1)) by (eapply Qle_lt_trans; [exact H1|apply Qlt_floor]).
  rewrite <- Zlt_Qlt in A, B. lia.
Qed.

(** One axis of the mapper at the centre of cell [k] of [n]. *)
Lemma map_axis (L W : Q) (n k : Z) :
  0 < W -> (0 < n)%Z ->
  Qfloor (((L + (inject_Z k + (1 # 2)) * W / inject_Z n) - L) * (CANVAS_SIZE / W) / pixelSize n n) = k.
Proof.
  intros HW Hn.
  assert (Hn' : ~ inject_Z n == 0) by (change 0 with (inject_Z 0); rewrite inject_Z_injective; lia).
  assert (HW' : ~ W == 0) by (intros E; rewrite E in HW; apply (Qlt_irrefl 0 HW)).
  assert (E : ((L + (inject_Z k + (1 # 2)) * W / inject_Z n) - L) * (CANVAS_SIZE / W) / pixelSize n n
              == inject_Z k + (1 # 2)).
  { rewrite pixelSize_square by lia. unfold CANVAS_SIZE. field. auto. }
  rewrite (Qfloor_comp _ _ E). apply Qfloor_in; [lra|rewrite inject_Z_plus; change (inject_Z 1) with 1; lra].
Qed.

Lemma zoomStep_bounds z e : MIN_ZOOM <= z <= MAX_ZOOM -> MIN_ZOOM <= zoomStep z e <= MAX_ZOOM.
Proof.
  unfold MIN_ZOOM, MAX_ZOOM. intros [H1 H2].
  destruct e as [| | |d]; simpl; unfold zoomIn, zoomOut, resetZoom, handleWheel, MIN_ZOOM, MAX_ZOOM.
  - destruct (Q.min_spec 4 (z + (1 # 4))) as [[? ->]|[? ->]]; lra.
  - destruct (Q.max_spec (1 # 4) (z - (1 # 4))) as [[? ->]|[? ->]]; lra.
  - lra.
  - destruct (Qlt_le_dec 0 d);
      match goal with |- context [Qmin 4 ?a] =>
        destruct (Q.min_spec 4 a) as [[? ->]|[? ->]] end;
      match goal with |- context [Qmax (1 # 4) ?a] =>
        destruct (Q.max_spec (1 # 4) a) as [[? ->]|[? ->]] end; lra.
Qed.

(** C36: wherever the pointer is, the mapper returns a cell of the grid:
    on every editor state satisfying the session invariant, the clamped
    result satisfies [Editor.cellInGrid], which [drawPixel]'s guard then
    accepts. *)
Theorem getCanvasCoordinates_in_grid st rect clientX clientY :
  Editor.inv st ->
  exists q, getCanvasCoordinates true rect clientX clientY (Editor.gridWidth st) (Editor.gridHeight st) = Some q /\
    Editor.cellInGrid st q.
Proof.
  intros Hinv. pose proof (Editor.inv_dims _ Hinv) as Hd.
  eexists. split; [reflexivity|]. unfold Editor.cellInGrid. simpl.
  split; apply clamp_bounds; lia.
Qed.

(** C37: round trip between the grid and the display: on an [n] x [n]
    grid drawn in any rectangle, the pointer at the centre of cell
    [(r, c)] maps back to [(r, c)]. *)
Theorem cell_centre_roundtrip (n r c : Z) (rect : Rect) :
  (0 < n)%Z -> 0 < width rect -> 0 < height rect -> (0 <= r < n)%Z -> (0 <= c < n)%Z ->
  getCanvasCoordinates true rect
    (left rect + (inject_Z c + (1 # 2)) * width rect / inject_Z n)
    (top rect + (inject_Z r + (1 # 2)) * height rect / inject_Z n) n n = Some (r, c).
Proof.
  intros Hn Hw Hh Hr Hc. unfold getCanvasCoordinates. cbn [negb].
  rewrite !map_axis by done. by rewrite !clamp_id.
Qed.

(** From the initial 100%, every sequence of zoom buttons and wheel
    steps keeps the zoom level between [MIN_ZOOM] and [MAX_ZOOM]. *)
Theorem zoom_bounds es : MIN_ZOOM <= zoomAfter es <= MAX_ZOOM.
Proof.
  unfold zoomAfter. assert (H : MIN_ZOOM <= 1 <= MAX_ZOOM) by (unfold MIN_ZOOM, MAX_ZOOM; lra).
  revert H. generalize 1. induction es as [|e es IH]; intros z Hz; [done|]. apply IH, zoomStep_bounds, Hz.
Qed.

(** ** Witnesses *)

Lemma getCanvasCoordinates_in_grid_witness :
  Editor.inv Editor.mounted /\
  exists q, getCanvasCoordinates true (mkRect 10 20 320 320) 5000 (-3)
              (Editor.gridWidth Editor.mounted) (Editor.gridHeight Editor.mounted) = Some q /\
    Editor.cellInGrid Editor.mounted q.
Proof. split; [apply Editor.inv_mounted|]. apply getCanvasCoordinates_in_grid, Editor.inv_mounted. Defined.

Lemma cell_centre_roundtrip_witness :
  (0 < 32)%Z /\ 0 < width (mkRect 10 20 320 320) /\ 0 < height (mkRect 10 20 320 320) /\
  (0 <= 5 < 32)%Z /\ (0 <= 7 < 32)%Z /\
  getCanvasCoordinates true (mkRect 10 20 320 320)
    (left (mkRect 10 20 320 320) + (inject_Z 7 + (1 # 2)) * width (mkRect 10 20 320 320) / inject_Z 32)
    (top (mkRect 10 20 320 320) + (inject_Z 5 + (1 # 2)) * height (mkRect 10 20 320 320) / inject_Z 32)
    32 32 = Some (5%Z, 7%Z).
Proof.
  assert (Hw : 0 < width (mkRect 10 20 320 320)) by (simpl; lra).
  assert (Hh : 0 < height (mkRect 10 20 320 320)) by (simpl; lra).
  split; [lia|]. split; [exact Hw|]. split; [exact Hh|]. split; [lia|]. split; [lia|].
  apply cell_centre_roundtrip; [lia|exact Hw|exact Hh|lia|lia].
Defined.

End Viewport.
