(* ===== verification/Renderer.v ===== *)
(** * Renderer and PNG export

    The functions of App.vue that draw: [renderCanvas], [drawGridLines],
    [renderSinglePixel], [renderHoverPreview] on the on-screen canvas and
    the drawing loop of [exportAsPNG] on a fresh canvas.  They change no
    editor state; what they do is a sequence of calls on a
    [CanvasRenderingContext2D].  Each function is modelled as the list of
    those calls ([Cmd]), in the order the code makes them, with [hasCtx]
    standing for the [ctx.value] / [canvas.value] tests that return early.

    A small interpreter ([exec]) gives the calls a meaning at the level of
    grid cells: assigning [canvas.width] or [canvas.height] clears the
    canvas and resets the context's [fillStyle]; [fillStyle] is remembered;
    a [fillRect] that covers exactly one cell of side [ps] pushes the fill
    style on that cell's layers (topmost first).  Strokes, the grid-line
    overlay, leave the cell fills alone.  The theorems: a full redraw shows
    the grid cell by cell; the incremental redraws that [drawPixel] makes
    keep the canvas showing the grid, so they agree with a full redraw;
    the hover preview covers exactly the brush footprint; the export is a
    1:1 image of the grid; every rectangle the code fills lies inside the
    canvas (the command lists are well typed, [wt_cmd]); and the last grid
    line of a square grid is stroked half a pixel outside the canvas.

    Not modelled: colour blending of the translucent preview and of the
    grid lines, anti-aliasing at fractional cell sizes, invalid
    [fillStyle] strings (which the canvas ignores; the editor only stores
    colours from the colour input).  The rest of [exportAsPNG] ([toBlob]
    and the download) is in [PngExport.v]. *)

From Stdlib Require Import Ascii QArith Qminmax Qround Lqa.
From stdpp Require Import pretty.
From S2P Require Import Prelude Grid History ColorHistory Brush Bresenham Connectivity FloodFill Editor Session Viewport.

Module Renderer.
Import Grid.
Open Scope Q_scope.

(** ** Canvas calls *)

Inductive Cmd :=
  | SetWidth (v : Q)                 (* canvas.width = v *)
  | SetHeight (v : Q)                (* canvas.height = v *)
  | SetFillStyle (c : string)        (* ctx.fillStyle = c *)
  | FillRect (x y w h : Q)           (* ctx.fillRect(x, y, w, h) *)
  | SetStrokeStyle (c : string)      (* ctx.strokeStyle = c *)
  | SetLineWidth (v : Q)             (* ctx.lineWidth = v *)
  | BeginPath
  | MoveTo (x y : Q)
  | LineTo (x y : Q)
  | Stroke.

Abbreviation code := (list Cmd).

(** The grid-line colour. *)
Definition GRID_LINE : string := "rgba(0, 0, 0, 0.1)".

(** One straight stroked segment: [beginPath], [moveTo], [lineTo], [stroke]. *)
Definition segment (x0 y0 x1 y1 : Q) : code :=
  [BeginPath; MoveTo x0 y0; LineTo x1 y1; Stroke].

(** [drawGridLines]: vertical lines for [i <= gridWidth], then horizontal
    lines for [i <= gridHeight], half a pixel off the cell borders. *)
Definition drawGridLines (hasCtx : bool) (gridWidth gridHeight : Z) : code :=
  if negb hasCtx then [] else
  let ps := Viewport.pixelSize gridWidth gridHeight in
  [SetStrokeStyle GRID_LINE; SetLineWidth 1] ++
  flat_map (fun i => segment (inject_Z i * ps + (1 # 2)) 0
                             (inject_Z i * ps + (1 # 2)) (inject_Z gridHeight * ps))
    (0 ..< gridWidth + 1)%Z ++
  flat_map (fun i => segment 0 (inject_Z i * ps + (1 # 2))
                             (inject_Z gridWidth * ps) (inject_Z i * ps + (1 # 2)))
    (0 ..< gridHeight + 1)%Z.

(** The fill of one cell: [fillStyle = color; fillRect(col * ps, row * ps, ps, ps)]. *)
Definition fillCell (ps : Q) (row col : Z) (color : string) : code :=
  [SetFillStyle color; FillRect (inject_Z col * ps) (inject_Z row * ps) ps ps].

(** [renderCanvas]: reset the canvas size (which clears it), fill every
    cell in row-major order, then the grid lines. *)
Definition renderCanvas (hasCtx : bool) (gridWidth gridHeight : Z) (g : grid) : code :=
  if negb hasCtx then [] else
  let ps := Viewport.pixelSize gridWidth gridHeight in
  [SetWidth Viewport.CANVAS_SIZE; SetHeight Viewport.CANVAS_SIZE] ++
  fold_left (fun cmds row =>
    fold_left (fun cmds col => cmds ++ fillCell ps row col (default "" (get g row col)))
      (0 ..< gridWidth)%Z cmds) (0 ..< gridHeight)%Z [] ++
  drawGridLines hasCtx gridWidth gridHeight.

(** [renderSinglePixel]: the cell, then its four edges. *)
Definition renderSinglePixel (hasCtx : bool) (gridWidth gridHeight : Z) (row col : Z) (color : string) : code :=
  if negb hasCtx then [] else
  let ps := Viewport.pixelSize gridWidth gridHeight in
  let x0 := inject_Z col * ps + (1 # 2) in
  let x1 := inject_Z (col + 1)%Z * ps + (1 # 2) in
  let y0 := inject_Z row * ps + (1 # 2) in
  let y1 := inject_Z (row + 1)%Z * ps + (1 # 2) in
  fillCell ps row col color ++
  [SetStrokeStyle GRID_LINE; SetLineWidth 1] ++
  segment x0 y0 x1 y0 ++ segment x1 y0 x1 y1 ++ segment x0 y1 x1 y1 ++ segment x0 y0 x0 y1.

(** ** The hover preview *)

(** [parseInt(s, 16)]: white space, sign, an optional [0x] prefix, hex digits. *)
Definition parseIntHex (s : string) : option Z :=
  let '(sign, l) := Session.jsSign (Session.trimStart (String.list_ascii_of_string s)) in
  let l := match l with
           | "0"%char :: ("x"%char | "X"%char) :: l' => l'
           | _ => l
           end in
  option_map (Z.mul sign) (Session.digits 16 l 0 false).

(** A number as a template literal prints it; [NaN] for a failed parse. *)
Definition showNum (n : option Z) : string :=
  match n with Some v => pretty v | None => "NaN" end.

(** [`rgba(${r}, ${g}, ${b}, 0.5)`] from [#rrggbb] by [slice(1, 3)],
    [slice(3, 5)], [slice(5, 7)]. *)
Definition previewRgba (previewColor : string) : string :=
  let r := parseIntHex (String.substring 1 2 previewColor) in
  let g := parseIntHex (String.substring 3 2 previewColor) in
  let b := parseIntHex (String.substring 5 2 previewColor) in
  "rgba(" +:+ showNum r +:+ ", " +:+ showNum g +:+ ", " +:+ showNum b +:+ ", 0.5)".

(** [renderHoverPreview]: nothing without a hovered cell or while drawing;
    otherwise a full redraw, and for the pencil and the eraser the brush
    footprint in the translucent preview colour, then the grid lines. *)
Definition renderHoverPreview (hasCtx : bool) (st : Editor.EditorState) : code :=
  match Editor.hoveredCell st with
  | None => []
  | Some (row, col) =>
      if negb hasCtx || Editor.isDrawing st then [] else
      let h := Editor.gridHeight st in
      let w := Editor.gridWidth st in
      let ps := Viewport.pixelSize w h in
      renderCanvas hasCtx w h (Editor.grid st) ++
      let preview previewColor :=
        [SetFillStyle (previewRgba previewColor)] ++
        Brush.brushLoop (fun cmds r c => cmds ++ [FillRect (inject_Z c * ps) (inject_Z r * ps) ps ps])
          h w row col (Editor.brushSize st) [] ++
        drawGridLines hasCtx w h in
      match Editor.currentTool st with
      | Editor.pencil => preview (Editor.currentColor st)
      | Editor.eraser => preview BACKGROUND
      | Editor.fill | Editor.eyedropper => []
      end
  end.

(** ** PNG export *)

(** The drawing part of [exportAsPNG]: a fresh [gridWidth] x [gridHeight]
    canvas ([hasCtx] is [getContext('2d')] succeeding), one 1 x 1 rectangle
    per cell in row-major order; [PngExport.exportAsPNGCalls] adds
    [toBlob] and the download. *)
Definition exportAsPNG (hasCtx : bool) (gridWidth gridHeight : Z) (g : grid) : code :=
  [SetWidth (inject_Z gridWidth); SetHeight (inject_Z gridHeight)] ++
  if negb hasCtx then [] else
  fold_left (fun cmds row =>
    fold_left (fun cmds col =>
      cmds ++ [SetFillStyle (default "" (get g row col)); FillRect (inject_Z col) (inject_Z row) 1 1])
      (0 ..< gridWidth)%Z cmds) (0 ..< gridHeight)%Z [].

(** ** The redraws [drawPixel] makes *)

(** The canvas calls of [drawPixel]: nothing outside the grid; one
    [renderSinglePixel] per cell the pencil or eraser writes, inside the
    brush loop; a full [renderCanvas] after a fill (of the filled grid);
    nothing for the eyedropper. *)
Definition drawPixelCmds (hasCtx : bool) (st : Editor.EditorState) (row col : Z) : code :=
  let h := Editor.gridHeight st in
  let w := Editor.gridWidth st in
  if ((row <? 0) || (row >=? h) || (col <? 0) || (col >=? w))%Z then [] else
  match Editor.currentTool st with
  | Editor.pencil =>
      Brush.brushLoop (fun cmds r c => cmds ++ renderSinglePixel hasCtx w h r c (Editor.currentColor st))
        h w row col (Editor.brushSize st) []
  | Editor.eraser =>
      Brush.brushLoop (fun cmds r c => cmds ++ renderSinglePixel hasCtx w h r c BACKGROUND)
        h w row col (Editor.brushSize st) []
  | Editor.fill => renderCanvas hasCtx w h (Editor.grid (Editor.drawPixel st row col))
  | Editor.eyedropper => []
  end.

(** ** What the calls paint, cell by cell *)

(** The canvas at the level of cells of side [ps]: the current fill style
    and, for every cell, the fills laid on it, the last one first. *)
Record Canvas := mkCanvas { fillStyle : string; layers : Z -> Z -> list string }.

(** A fresh (or resized) canvas: transparent, default fill style black. *)
Definition blank : Canvas := mkCanvas "#000000" (fun _ _ => []).

(** The cell a rectangle covers exactly, if it covers exactly one. *)
Definition cellOf (ps x y w h : Q) : option (Z * Z) :=
  if Qeq_bool w ps && Qeq_bool h ps &&
     Qeq_bool (inject_Z (Qfloor (x / ps))) (x / ps) &&
     Qeq_bool (inject_Z (Qfloor (y / ps))) (y / ps)
  then Some (Qfloor (y / ps), Qfloor (x / ps)) else None.

Definition push (cv : Canvas) (q : Z * Z) : Canvas :=
  mkCanvas (fillStyle cv)
    (fun r c => if decide ((r, c) = q) then fillStyle cv :: layers cv r c else layers cv r c).

Definition exec1 (ps : Q) (cv : Canvas) (cmd : Cmd) : Canvas :=
  match cmd with
  | SetWidth _ | SetHeight _ => blank
  | SetFillStyle c => mkCanvas c (layers cv)
  | FillRect x y w h =>
      match cellOf ps x y w h with Some q => push cv q | None => cv end
  | _ => cv
  end.

Definition exec (ps : Q) (cmds : code) (cv : Canvas) : Canvas := fold_left (exec1 ps) cmds cv.

(** What a cell shows: its topmost fill. *)
Definition top (l : list string) : option string := head l.

(** The canvas shows the grid: every cell's topmost fill is the grid's
    colour there, and nothing is drawn outside the grid. *)
Definition shows (cv : Canvas) (g : grid) : Prop := forall r c, top (layers cv r c) = get g r c.

(** Calls that lay no fill: the path and stroke calls. *)
Definition paintsNothing (cmd : Cmd) : bool :=
  match cmd with
  | SetStrokeStyle _ | SetLineWidth _ | BeginPath | MoveTo _ _ | LineTo _ _ | Stroke => true
  | _ => false
  end.

(** The colour the preview uses for a brush tool. *)
Definition previewColorOf (st : Editor.EditorState) : string :=
  match Editor.currentTool st with Editor.eraser => BACKGROUND | _ => Editor.currentColor st end.

(** Well-typed commands on a [W] x [H] canvas: sizes and line widths are
    positive and every filled rectangle is a non-empty rectangle inside the
    canvas.  Path coordinates are unconstrained: the canvas clips strokes. *)
Inductive wt_cmd (W H : Q) : Cmd -> Prop :=
  | wt_SetWidth v : 0 < v -> wt_cmd W H (SetWidth v)
  | wt_SetHeight v : 0 < v -> wt_cmd W H (SetHeight v)
  | wt_SetFillStyle c : wt_cmd W H (SetFillStyle c)
  | wt_FillRect x y w h : 0 <= x -> 0 <= y -> 0 < w -> 0 < h -> x + w <= W -> y + h <= H ->
      wt_cmd W H (FillRect x y w h)
  | wt_SetStrokeStyle c : wt_cmd W H (SetStrokeStyle c)
  | wt_SetLineWidth v : 0 < v -> wt_cmd W H (SetLineWidth v)
  | wt_BeginPath : wt_cmd W H BeginPath
  | wt_MoveTo x y : wt_cmd W H (MoveTo x y)
  | wt_LineTo x y : wt_cmd W H (LineTo x y)
  | wt_Stroke : wt_cmd W H Stroke.

(** ** Lemmas *)

Lemma exec_app ps a b cv : exec ps (a ++ b) cv = exec ps b (exec ps a cv).
Proof. unfold exec. apply fold_left_app. Qed.

Lemma exec_nothing ps cmds cv :
  Forall (fun cmd => paintsNothing cmd = true) cmds -> layers (exec ps cmds cv) = layers cv.
Proof.
  unfold exec. revert cv. induction cmds as [|cmd cmds IH]; intros cv H; [done|].
  apply Forall_cons in H as [Hc H]. simpl. rewrite IH by done.
  by destruct cmd.
Qed.

Lemma drawGridLines_nothing hasCtx w h :
  Forall (fun cmd => paintsNothing cmd = true) (drawGridLines hasCtx w h).
Proof.
  unfold drawGridLines. destruct hasCtx; simpl; [|done].
  repeat constructor; apply Forall_app; split; apply Forall_flat_map, Forall_forall;
    intros; repeat constructor.
Qed.

Lemma cellOf_cell ps x y w h r c :
  ~ ps == 0 -> x == inject_Z c * ps -> y == inject_Z r * ps -> w == ps -> h == ps ->
  cellOf ps x y w h = Some (r, c).
Proof.
  intros Hps Hx Hy Hw Hh. unfold cellOf.
  assert (Ex : x / ps == inject_Z c) by (rewrite Hx; field; exact Hps).
  assert (Ey : y / ps == inject_Z r) by (rewrite Hy; field; exact Hps).
  rewrite (Qfloor_comp _ _ Ex), (Qfloor_comp _ _ Ey), !Qfloor_Z.
  rewrite !(proj2 (Qeq_bool_iff _ _)); try done; by symmetry.
Qed.

(** Folding [cmds ++ f x] over a list appends the [flat_map]. *)
Lemma fold_app_flat_map {A} (f : A -> code) (l : list A) acc :
  fold_left (fun cmds x => cmds ++ f x) l acc = acc ++ flat_map f l.
Proof.
  revert acc. induction l as [|x l IH]; intros acc; simpl; [by rewrite app_nil_r|].
  by rewrite IH, app_assoc.
Qed.

Lemma flat_map_row (f : Z -> Z -> code) row (cols : list Z) :
  flat_map (fun q => f q.1 q.2) (map (fun col => (row, col)) cols) = flat_map (f row) cols.
Proof. induction cols as [|col cols IH]; cbn [flat_map map fst snd]; [done|]. by rewrite IH. Qed.

Lemma flat_map_cells (f : Z -> Z -> code) h w :
  flat_map (fun q => f q.1 q.2) (cells h w) =
  flat_map (fun row => flat_map (fun col => f row col) (0 ..< w)%Z) (0 ..< h)%Z.
Proof.
  unfold cells. induction (0 ..< h)%Z as [|row rows IH]; cbn [flat_map]; [done|].
  by rewrite flat_map_app, IH, flat_map_row.
Qed.

(** The nested loop of [renderCanvas] and [exportAsPNG] emits its body
    once per cell of [cells], in order. *)
Lemma double_loop_cells (f : Z -> Z -> code) h w :
  fold_left (fun cmds row => fold_left (fun cmds col => cmds ++ f row col) (0 ..< w)%Z cmds)
    (0 ..< h)%Z [] = flat_map (fun q => f q.1 q.2) (cells h w).
Proof.
  rewrite flat_map_cells.
  rewrite (fold_left_ext_in _ (fun cmds row => cmds ++ flat_map (fun col => f row col) (0 ..< w)%Z))
    by (intros acc row _; apply fold_app_flat_map).
  by rewrite fold_app_flat_map.
Qed.

Lemma exec_fillOne ps v x y q cv :
  ~ ps == 0 -> x == inject_Z q.2 * ps -> y == inject_Z q.1 * ps ->
  forall r c, layers (exec ps [SetFillStyle v; FillRect x y ps ps] cv) r c =
    if decide ((r, c) = q) then v :: layers cv r c else layers cv r c.
Proof.
  intros Hps Hx Hy r c. cbn. rewrite (cellOf_cell ps x y ps ps q.1 q.2) by (done || reflexivity).
  by destruct q.
Qed.

(** A run of one-cell fills lays, on every cell, one layer per fill of
    that cell, the last one on top. *)
Lemma exec_fills ps (qs : list (Z * Z)) (f : Z * Z -> string) (xy : Z * Z -> Q * Q) cv :
  ~ ps == 0 -> NoDup qs ->
  (forall q, q ∈ qs -> (xy q).1 == inject_Z q.2 * ps /\ (xy q).2 == inject_Z q.1 * ps) ->
  forall r c, layers (exec ps (flat_map (fun q => [SetFillStyle (f q); FillRect (xy q).1 (xy q).2 ps ps]) qs) cv) r c =
    (if decide ((r, c) ∈ qs) then [f (r, c)] else []) ++ layers cv r c.
Proof.
  intros Hps. revert cv. induction qs as [|q qs IH]; intros cv Hnd Hxy r c; [done|].
  apply NoDup_cons in Hnd as [Hq Hnd]. destruct (Hxy q) as [Hx Hy]; [set_solver|].
  cbn [flat_map]. rewrite exec_app, IH; [|done|set_solver].
  rewrite (exec_fillOne ps _ _ _ q) by done.
  destruct (decide ((r, c) = q)) as [<-|Hne].
  - rewrite decide_False, decide_True by set_solver. done.
  - destruct (decide ((r, c) ∈ qs)); [rewrite decide_True by set_solver|rewrite decide_False by set_solver];
      done.
Qed.

Lemma NoDup_rows_cols (rows cols : list Z) :
  List.NoDup rows -> List.NoDup cols -> NoDup (flat_map (fun row => map (fun col => (row, col)) cols) rows).
Proof.
  intros Hr Hc. induction Hr as [|row rows Hrow Hr IH]; [constructor|]. cbn [flat_map].
  apply NoDup_app. split; [|split; [|exact IH]].
  - apply NoDup_ListNoDup, NoDup_map_NoDup_ForallPairs; [|exact Hc]. intros x y _ _ E. congruence.
  - intros q Hq. rewrite list_elem_of_In, in_map_iff in Hq. destruct Hq as (col & <- & _).
    rewrite list_elem_of_In, in_flat_map. intros (r' & Hr' & Hin).
    apply in_map_iff in Hin as (c' & E & _). injection E as -> _. contradiction.
Qed.

Lemma NoDup_cells h w : NoDup (cells h w).
Proof. apply NoDup_rows_cols; apply NoDup_zrange. Qed.

Lemma pixelSize_pos w h : (0 < w)%Z -> (0 < h)%Z -> 0 < Viewport.pixelSize w h.
Proof.
  intros Hw Hh. unfold Viewport.pixelSize, Viewport.CANVAS_SIZE.
  assert (0 < inject_Z w) by (change 0 with (inject_Z 0); rewrite <- Zlt_Qlt; lia).
  assert (0 < inject_Z h) by (change 0 with (inject_Z 0); rewrite <- Zlt_Qlt; lia).
  destruct (Q.min_spec (640 / inject_Z w) (640 / inject_Z h)) as [[_ ->]|[_ ->]];
    apply Qlt_shift_div_l; lra.
Qed.

Lemma pixelSize_neq w h : (0 < w)%Z -> (0 < h)%Z -> ~ Viewport.pixelSize w h == 0.
Proof. intros Hw Hh E. pose proof (pixelSize_pos w h Hw Hh). rewrite E in H. apply (Qlt_irrefl 0 H). Qed.

(** The cell fills of a full redraw, as one run over [cells]. *)
Lemma renderCanvas_cells w h g :
  renderCanvas true w h g =
  [SetWidth Viewport.CANVAS_SIZE; SetHeight Viewport.CANVAS_SIZE] ++
  flat_map (fun q => fillCell (Viewport.pixelSize w h) q.1 q.2 (default "" (get g q.1 q.2))) (cells h w) ++
  drawGridLines true w h.
Proof.
  unfold renderCanvas. cbn [negb]. f_equal. f_equal.
  apply (double_loop_cells (fun row col => fillCell (Viewport.pixelSize w h) row col (default "" (get g row col)))).
Qed.

(** A run of fills over all cells, on a blank canvas, shows the grid. *)
Lemma fills_show ps h w g (xy : Z * Z -> Q * Q) :
  ~ ps == 0 -> wf h w g ->
  (forall q, (xy q).1 == inject_Z q.2 * ps /\ (xy q).2 == inject_Z q.1 * ps) ->
  shows (exec ps (flat_map (fun q => [SetFillStyle (default "" (get g q.1 q.2)); FillRect (xy q).1 (xy q).2 ps ps])
                   (cells h w)) blank) g.
Proof.
  intros Hps Hwf Hxy r c.
  rewrite (exec_fills ps (cells h w) (fun q => default "" (get g q.1 q.2)) xy blank Hps (NoDup_cells h w))
    by (intros q _; apply Hxy).
  cbn [layers blank fst snd]. rewrite app_nil_r. case_decide as Hin.
  - rewrite list_elem_of_In, in_cells in Hin. destruct Hin as [Hr Hc].
    by destruct (get_in_bounds g h w r c Hwf Hr Hc) as [v ->].
  - symmetry. apply (get_out_of_bounds g h w); [done|].
    destruct (inBounds h w r c) eqn:Eb; [|done]. exfalso. apply Hin.
    apply list_elem_of_In, in_cells, inBounds_spec, Eb.
Qed.

Lemma render_shows w h g cv :
  (0 < w)%Z -> (0 < h)%Z -> wf h w g ->
  shows (exec (Viewport.pixelSize w h) (renderCanvas true w h g) cv) g.
Proof.
  intros Hw Hh Hwf r c. rewrite renderCanvas_cells, !exec_app, exec_nothing by apply drawGridLines_nothing.
  apply (fills_show _ h w g (fun q => (inject_Z q.2 * Viewport.pixelSize w h, inject_Z q.1 * Viewport.pixelSize w h)));
    [by apply pixelSize_neq|done|intros q; split; reflexivity].
Qed.

(** C12: a full redraw shows the grid: after [renderCanvas] every cell of
    the canvas has the grid's colour on top, and no cell outside the grid
    is painted. *)
Theorem renderCanvas_shows w h g cv :
  (0 < w)%Z -> (0 < h)%Z -> wf h w g ->
  shows (exec (Viewport.pixelSize w h) (renderCanvas true w h g) cv) g.
Proof. apply render_shows. Qed.

(** The export draws the grid at one canvas pixel per cell: on the
    [gridWidth] x [gridHeight] export canvas, pixel [(row, col)] is filled
    with the colour of cell [(row, col)] and nothing else is painted. *)
Theorem exportAsPNG_image w h g cv :
  wf h w g -> shows (exec 1 (exportAsPNG true w h g) cv) g.
Proof.
  intros Hwf r c. unfold exportAsPNG. cbn [negb].
  rewrite (double_loop_cells (fun row col => [SetFillStyle (default "" (get g row col)); FillRect (inject_Z col) (inject_Z row) 1 1])).
  rewrite exec_app.
  apply (fills_show 1 h w g (fun q => (inject_Z q.2, inject_Z q.1))); [discriminate|done|].
  intros q. cbn [fst snd]. split; ring.
Qed.

Lemma exec_renderSinglePixel w h row col v cv :
  (0 < w)%Z -> (0 < h)%Z ->
  forall r c, layers (exec (Viewport.pixelSize w h) (renderSinglePixel true w h row col v) cv) r c =
    if decide ((r, c) = (row, col)) then v :: layers cv r c else layers cv r c.
Proof.
  intros Hw Hh r c. unfold renderSinglePixel. cbn [negb]. unfold fillCell.
  rewrite exec_app, exec_nothing by (repeat constructor).
  by apply (exec_fillOne _ _ _ _ (row, col)); [apply pixelSize_neq| |].
Qed.

(** A run of single-pixel redraws in one colour puts that colour on top of
    exactly the listed cells. *)
Lemma exec_pixels w h (qs : list (Z * Z)) v cv :
  (0 < w)%Z -> (0 < h)%Z ->
  forall r c, top (layers (exec (Viewport.pixelSize w h)
                      (flat_map (fun q => renderSinglePixel true w h q.1 q.2 v) qs) cv) r c) =
    if decide ((r, c) ∈ qs) then Some v else top (layers cv r c).
Proof.
  intros Hw Hh. revert cv. induction qs as [|q qs IH]; intros cv r c; [done|].
  cbn [flat_map]. rewrite exec_app, IH.
  rewrite (exec_renderSinglePixel w h q.1 q.2) by done. destruct q as [qr qc]. cbn [fst snd].
  repeat case_decide; simplify_eq; set_solver.
Qed.

(** The brush loop of redraws is a run over [brushCells]. *)
Lemma brushLoop_pixels w h row col bs v :
  Brush.brushLoop (fun cmds r c => cmds ++ renderSinglePixel true w h r c v) h w row col bs [] =
  flat_map (fun q => renderSinglePixel true w h q.1 q.2 v) (Brush.brushCells h w row col bs).
Proof. by rewrite Brush.brushLoop_cells, (fold_app_flat_map (fun q => renderSinglePixel true w h q.1 q.2 v)). Qed.

(** A stamp redrawn pixel by pixel keeps a canvas that showed the grid
    showing the stamped grid. *)
Lemma stamp_redraw w h g row col bs v cv :
  (0 < w)%Z -> (0 < h)%Z -> wf h w g -> shows cv g ->
  shows (exec (Viewport.pixelSize w h)
           (Brush.brushLoop (fun cmds r c => cmds ++ renderSinglePixel true w h r c v) h w row col bs []) cv)
        (Brush.stamp h w g row col bs v).
Proof.
  intros Hw Hh Hwf Hcv r c. rewrite brushLoop_pixels, exec_pixels, Brush.stamp_paint, get_paintCells by done.
  case_decide as Hin; [|apply Hcv].
  apply list_elem_of_In, Brush.in_brushCells in Hin as (_ & _ & Hr & Hc).
  by destruct (get_in_bounds g h w r c Hwf Hr Hc) as [x ->].
Qed.

Lemma drawPixel_dims st row col :
  Editor.gridHeight (Editor.drawPixel st row col) = Editor.gridHeight st /\
  Editor.gridWidth (Editor.drawPixel st row col) = Editor.gridWidth st.
Proof. unfold Editor.drawPixel. destruct (_ || _); [done|]. by destruct (Editor.currentTool st). Qed.

(** C9: the incremental redraws of [drawPixel] agree with a full redraw:
    if the canvas showed the grid before, then after the canvas calls
    [drawPixel] makes (single-pixel redraws for the pencil and the eraser,
    a full redraw after a fill, none for the eyedropper) it shows the new
    grid, exactly as [renderCanvas] of the new grid would. *)
Theorem drawPixel_redraw st row col cv :
  Editor.inv st -> shows cv (Editor.grid st) ->
  shows (exec (Viewport.pixelSize (Editor.gridWidth st) (Editor.gridHeight st)) (drawPixelCmds true st row col) cv)
        (Editor.grid (Editor.drawPixel st row col)).
Proof.
  intros Hinv Hcv. pose proof (Editor.inv_dims _ Hinv) as Hd. pose proof (Editor.inv_grid _ Hinv) as Hwf.
  unfold drawPixelCmds. destruct (_ || _)%Z eqn:E.
  - unfold Editor.drawPixel. by rewrite E.
  - assert (Hin : Editor.cellInGrid st (row, col)) by (unfold Editor.cellInGrid; cbn [fst snd]; case_zb; lia).
    rewrite (Editor.drawPixel_in_grid st row col Hin).
    destruct (Editor.currentTool st) eqn:Ht; cbn [Editor.grid Editor.setGrid Editor.setColorHistory
      Editor.setCurrentTool Editor.setCurrentColor].
    + apply stamp_redraw; [lia|lia|done|done].
    + apply stamp_redraw; [lia|lia|done|done].
    + destruct (drawPixel_dims st row col) as [Eh Ew].
      pose proof (Editor.inv_grid _ (Editor.inv_drawPixel st row col Hinv)) as Hwf'.
      rewrite Eh, Ew, (Editor.drawPixel_in_grid st row col Hin), Ht in Hwf'.
      apply render_shows; [lia|lia|exact Hwf'].
    + exact Hcv.
Qed.

Lemma exec_rects ps (qs : list (Z * Z)) cv :
  ~ ps == 0 ->
  fillStyle (exec ps (flat_map (fun q => [FillRect (inject_Z q.2 * ps) (inject_Z q.1 * ps) ps ps]) qs) cv) = fillStyle cv /\
  forall r c, top (layers (exec ps (flat_map (fun q => [FillRect (inject_Z q.2 * ps) (inject_Z q.1 * ps) ps ps]) qs) cv) r c) =
    if decide ((r, c) ∈ qs) then Some (fillStyle cv) else top (layers cv r c).
Proof.
  intros Hps. revert cv. induction qs as [|q qs IH]; intros cv; [done|].
  cbn [flat_map]. rewrite exec_app. cbn [exec fold_left exec1].
  rewrite (cellOf_cell ps _ _ _ _ q.1 q.2) by (done || reflexivity).
  destruct q as [qr qc]. destruct (IH (push cv (qr, qc))) as [IHf IHl].
  split; [exact IHf|]. intros r c. rewrite IHl. cbn [push fillStyle layers fst snd].
  repeat case_decide; simplify_eq; set_solver.
Qed.

(** The preview commands after the redraw: the brush footprint in colour [p]. *)
Lemma exec_preview ps h w row col bs p cv r c :
  ~ ps == 0 -> (0 < w)%Z -> (0 < h)%Z -> ps = Viewport.pixelSize w h ->
  top (layers (exec ps ([SetFillStyle p] ++
     Brush.brushLoop (fun cmds r c => cmds ++ [FillRect (inject_Z c * ps) (inject_Z r * ps) ps ps]) h w row col bs [] ++
     drawGridLines true w h) cv) r c) =
  if decide ((r, c) ∈ Brush.brushCells h w row col bs) then Some p else top (layers cv r c).
Proof.
  intros Hps Hw Hh ->. rewrite !exec_app, exec_nothing by apply drawGridLines_nothing.
  rewrite Brush.brushLoop_cells.
  rewrite (fold_app_flat_map (fun q : Z * Z => [FillRect (inject_Z q.2 * Viewport.pixelSize w h)
                                    (inject_Z q.1 * Viewport.pixelSize w h) (Viewport.pixelSize w h) (Viewport.pixelSize w h)])).
  cbn [app]. destruct (exec_rects (Viewport.pixelSize w h) (Brush.brushCells h w row col bs) (exec (Viewport.pixelSize w h) [SetFillStyle p] cv) Hps) as [_ Hl].
  by rewrite Hl.
Qed.

(** C21: the hover preview of the pencil or the eraser redraws the grid and
    covers exactly the brush footprint around the hovered cell with the
    translucent preview colour; every other cell shows the grid. *)
Theorem hover_preview_footprint st row col cv :
  Editor.inv st -> Editor.hoveredCell st = Some (row, col) -> Editor.isDrawing st = false ->
  Editor.drawsStrokes (Editor.currentTool st) = true ->
  forall r c,
    top (layers (exec (Viewport.pixelSize (Editor.gridWidth st) (Editor.gridHeight st)) (renderHoverPreview true st) cv) r c) =
    if decide ((r, c) ∈ Brush.brushCells (Editor.gridHeight st) (Editor.gridWidth st) row col (Editor.brushSize st))
    then Some (previewRgba (previewColorOf st)) else get (Editor.grid st) r c.
Proof.
  intros Hinv Hh Hd Ht r c. pose proof (Editor.inv_dims _ Hinv) as Hdim.
  assert (Hps : ~ Viewport.pixelSize (Editor.gridWidth st) (Editor.gridHeight st) == 0) by (apply pixelSize_neq; lia).
  unfold renderHoverPreview, previewColorOf. rewrite Hh, Hd. cbn [negb orb]. rewrite exec_app.
  destruct (Editor.currentTool st); try discriminate; cbv zeta;
    rewrite exec_preview by (done || lia); case_decide; try done;
    apply render_shows; try lia; apply Hinv.
Qed.

(** ** Typing *)

Lemma cells_fit (n : Z) (m : Q) :
  (0 < n)%Z -> m <= Viewport.CANVAS_SIZE / inject_Z n -> inject_Z n * m <= Viewport.CANVAS_SIZE.
Proof.
  intros Hn Hm. assert (0 < inject_Z n) by (change 0 with (inject_Z 0); rewrite <- Zlt_Qlt; lia).
  apply (Qle_trans _ (inject_Z n * (Viewport.CANVAS_SIZE / inject_Z n))).
  - rewrite !(Qmult_comm (inject_Z n)). apply Qmult_le_compat_r; [exact Hm|lra].
  - apply Qle_lteq. right. field. lra.
Qed.

Lemma pixelSize_fits_w w h : (0 < w)%Z -> (0 < h)%Z -> inject_Z w * Viewport.pixelSize w h <= Viewport.CANVAS_SIZE.
Proof. intros Hw _. apply cells_fit; [exact Hw|apply Q.le_min_l]. Qed.

Lemma pixelSize_fits_h w h : (0 < w)%Z -> (0 < h)%Z -> inject_Z h * Viewport.pixelSize w h <= Viewport.CANVAS_SIZE.
Proof. intros _ Hh. apply cells_fit; [exact Hh|apply Q.le_min_r]. Qed.

(** Cell [k] of [n] cells of size [ps] lies within [[0, L]] when [n] cells fit. *)
Lemma cell_axis (n k : Z) (ps L : Q) :
  0 < ps -> (0 <= k < n)%Z -> inject_Z n * ps <= L -> 0 <= inject_Z k * ps /\ inject_Z k * ps + ps <= L.
Proof.
  intros Hps Hk HL. split.
  - apply Qmult_le_0_compat; [change 0 with (inject_Z 0); rewrite <- Zle_Qle; lia|lra].
  - assert (Hk1 : inject_Z k + 1 <= inject_Z n)
      by (change 1 with (inject_Z 1); rewrite <- inject_Z_plus, <- Zle_Qle; lia).
    apply (Qle_trans _ ((inject_Z k + 1) * ps)); [apply Qle_lteq; right; ring|].
    apply (Qle_trans _ (inject_Z n * ps)); [apply Qmult_le_compat_r; lra|exact HL].
Qed.

Lemma cell_rect_wt w h r c :
  (0 < w)%Z -> (0 < h)%Z -> (0 <= r < h)%Z -> (0 <= c < w)%Z ->
  wt_cmd Viewport.CANVAS_SIZE Viewport.CANVAS_SIZE
    (FillRect (inject_Z c * Viewport.pixelSize w h) (inject_Z r * Viewport.pixelSize w h)
              (Viewport.pixelSize w h) (Viewport.pixelSize w h)).
Proof.
  intros Hw Hh Hr Hc. pose proof (pixelSize_pos w h Hw Hh).
  destruct (cell_axis w c _ _ H Hc (pixelSize_fits_w w h Hw Hh)).
  destruct (cell_axis h r _ _ H Hr (pixelSize_fits_h w h Hw Hh)).
  by constructor.
Qed.

Lemma segment_wt W H x0 y0 x1 y1 : Forall (wt_cmd W H) (segment x0 y0 x1 y1).
Proof. repeat constructor. Qed.

Lemma drawGridLines_wt W H b w h : Forall (wt_cmd W H) (drawGridLines b w h).
Proof.
  unfold drawGridLines. destruct b; cbn [negb]; [|done].
  rewrite Forall_app; split; [constructor; [constructor|constructor; [constructor; lra|done]]|].
  rewrite Forall_app; split; apply Forall_flat_map, Forall_forall; intros; apply segment_wt.
Qed.

Lemma fillCell_wt w h r c v :
  (0 < w)%Z -> (0 < h)%Z -> (0 <= r < h)%Z -> (0 <= c < w)%Z ->
  Forall (wt_cmd Viewport.CANVAS_SIZE Viewport.CANVAS_SIZE) (fillCell (Viewport.pixelSize w h) r c v).
Proof. intros. constructor; [constructor|constructor; [by apply cell_rect_wt|done]]. Qed.

Lemma renderCanvas_wt w h g :
  (0 < w)%Z -> (0 < h)%Z -> Forall (wt_cmd Viewport.CANVAS_SIZE Viewport.CANVAS_SIZE) (renderCanvas true w h g).
Proof.
  intros Hw Hh. rewrite renderCanvas_cells.
  rewrite Forall_app; split; [constructor; [constructor|constructor; [constructor|done]]; unfold Viewport.CANVAS_SIZE; lra|].
  rewrite Forall_app; split; [|apply drawGridLines_wt].
  apply Forall_flat_map, Forall_forall. intros [r c] Hin%list_elem_of_In%in_cells. cbn [fst snd].
  apply fillCell_wt; lia.
Qed.

Lemma renderSinglePixel_wt w h r c v :
  (0 < w)%Z -> (0 < h)%Z -> (0 <= r < h)%Z -> (0 <= c < w)%Z ->
  Forall (wt_cmd Viewport.CANVAS_SIZE Viewport.CANVAS_SIZE) (renderSinglePixel true w h r c v).
Proof.
  intros Hw Hh Hr Hc. unfold renderSinglePixel. cbn [negb]. cbv zeta.
  rewrite Forall_app; split; [by apply fillCell_wt|].
  rewrite Forall_app; split; [constructor; [constructor|constructor; [constructor; lra|done]]|].
  repeat (rewrite Forall_app; split); apply segment_wt.
Qed.

(** Every cell of a brush footprint is a cell of the grid. *)
Lemma brushCells_in h w row col bs r c :
  (r, c) ∈ Brush.brushCells h w row col bs -> (0 <= r < h)%Z /\ (0 <= c < w)%Z.
Proof. intros Hin%list_elem_of_In%Brush.in_brushCells. lia. Qed.

Lemma brushLoop_wt (paint : Z -> Z -> code) h w row col bs :
  (forall r c, (0 <= r < h)%Z -> (0 <= c < w)%Z -> Forall (wt_cmd Viewport.CANVAS_SIZE Viewport.CANVAS_SIZE) (paint r c)) ->
  Forall (wt_cmd Viewport.CANVAS_SIZE Viewport.CANVAS_SIZE)
    (Brush.brushLoop (fun cmds r c => cmds ++ paint r c) h w row col bs []).
Proof.
  intros Hp. rewrite Brush.brushLoop_cells, (fold_app_flat_map (fun q => paint q.1 q.2)).
  apply Forall_flat_map, Forall_forall. intros [r c] [Hr Hc]%brushCells_in. by apply Hp.
Qed.

Lemma preview_wt w h row col bs p :
  (0 < w)%Z -> (0 < h)%Z ->
  Forall (wt_cmd Viewport.CANVAS_SIZE Viewport.CANVAS_SIZE) ([SetFillStyle p] ++
     Brush.brushLoop (fun cmds r c => cmds ++ [FillRect (inject_Z c * Viewport.pixelSize w h)
        (inject_Z r * Viewport.pixelSize w h) (Viewport.pixelSize w h) (Viewport.pixelSize w h)]) h w row col bs [] ++
     drawGridLines true w h).
Proof.
  intros Hw Hh. constructor; [constructor|]. rewrite Forall_app; split; [|apply drawGridLines_wt].
  apply (brushLoop_wt (fun r c => [FillRect _ _ _ _])). intros r c Hr Hc.
  constructor; [by apply cell_rect_wt|done].
Qed.

(** C22: every command the editor sends to the canvas for a frame is well
    typed on the 640 x 640 canvas: the hover preview and the redraw after a
    click or a drag step set positive sizes and line widths and fill only
    non-empty rectangles inside the canvas, on every state satisfying the
    session invariant. *)
Theorem frame_cmds_wt st row col :
  Editor.inv st ->
  Forall (wt_cmd Viewport.CANVAS_SIZE Viewport.CANVAS_SIZE) (renderHoverPreview true st) /\
  Forall (wt_cmd Viewport.CANVAS_SIZE Viewport.CANVAS_SIZE) (drawPixelCmds true st row col).
Proof.
  intros Hinv. pose proof (Editor.inv_dims _ Hinv) as Hd. split.
  - unfold renderHoverPreview. destruct (Editor.hoveredCell st) as [[r c]|]; [|done].
    destruct (negb true || _); [done|]. cbv zeta.
    rewrite Forall_app; split; [apply renderCanvas_wt; lia|].
    destruct (Editor.currentTool st); try done; apply preview_wt; lia.
  - unfold drawPixelCmds. destruct (_ || _)%Z; [done|].
    destruct (Editor.currentTool st); try done;
      try (apply brushLoop_wt; intros; apply renderSinglePixel_wt; lia).
    apply renderCanvas_wt; lia.
Qed.

(** ** Where the grid lines fall *)

(** C32: on the editor's square grids the last vertical grid line is stroked
    at [x = CANVAS_SIZE + 1/2]: its one-pixel-wide stroke covers
    [[640, 641]], entirely outside the 640-pixel canvas, so the right
    border line never shows (and symmetrically the bottom one). *)
Theorem last_grid_line_outside (n : Z) :
  (0 < n)%Z ->
  exists x, In (MoveTo x 0) (drawGridLines true n n) /\ x - (1 # 2) == Viewport.CANVAS_SIZE.
Proof.
  intros Hn. exists (inject_Z n * Viewport.pixelSize n n + (1 # 2)). split.
  - unfold drawGridLines. cbn [negb]. apply in_or_app. right. apply in_or_app. left.
    apply in_flat_map. exists n. split; [apply in_zrange; lia|]. unfold segment. simpl; tauto.
  - rewrite Viewport.pixelSize_square by done. unfold Viewport.CANVAS_SIZE.
    assert (~ inject_Z n == 0) by (change 0 with (inject_Z 0); rewrite inject_Z_injective; lia).
    field. done.
Qed.

(** ** Witnesses *)

Lemma renderCanvas_shows_witness :
  (0 < 2)%Z /\ (0 < 2)%Z /\ wf 2 2 (set (makeGrid 2 2) 0 1 "#FF0000") /\
  shows (exec (Viewport.pixelSize 2 2) (renderCanvas true 2 2 (set (makeGrid 2 2) 0 1 "#FF0000")) blank) (set (makeGrid 2 2) 0 1 "#FF0000").
Proof.
  assert (Hwf : wf 2 2 (set (makeGrid 2 2) 0 1 "#FF0000")) by (apply wf_set, wf_makeGrid).
  split; [lia|]. split; [lia|]. split; [exact Hwf|].
  apply renderCanvas_shows; [lia|lia|exact Hwf].
Defined.

Lemma drawPixel_redraw_witness :
  Editor.inv Editor.mounted /\ shows (exec (Viewport.pixelSize 32 32) (renderCanvas true 32 32 (Editor.grid Editor.mounted)) blank) (Editor.grid Editor.mounted) /\
  shows (exec (Viewport.pixelSize 32 32) (drawPixelCmds true Editor.mounted 3 4) (exec (Viewport.pixelSize 32 32) (renderCanvas true 32 32 (Editor.grid Editor.mounted)) blank))
        (Editor.grid (Editor.drawPixel Editor.mounted 3 4)).
Proof.
  assert (Hs : shows (exec (Viewport.pixelSize 32 32) (renderCanvas true 32 32 (Editor.grid Editor.mounted)) blank) (Editor.grid Editor.mounted))
    by (apply render_shows; [lia|lia|apply (Editor.inv_grid _ Editor.inv_mounted)]).
  split; [exact Editor.inv_mounted|]. split; [exact Hs|].
  exact (drawPixel_redraw Editor.mounted 3 4 _ Editor.inv_mounted Hs).
Defined.

Lemma hover_preview_footprint_witness :
  Editor.inv (Editor.setHoveredCell (Some (3%Z, 4%Z)) Editor.mounted) /\ Editor.hoveredCell (Editor.setHoveredCell (Some (3%Z, 4%Z)) Editor.mounted) = Some (3%Z, 4%Z) /\ Editor.isDrawing (Editor.setHoveredCell (Some (3%Z, 4%Z)) Editor.mounted) = false /\
  Editor.drawsStrokes (Editor.currentTool (Editor.setHoveredCell (Some (3%Z, 4%Z)) Editor.mounted)) = true /\
  forall r c,
    top (layers (exec (Viewport.pixelSize 32 32) (renderHoverPreview true (Editor.setHoveredCell (Some (3%Z, 4%Z)) Editor.mounted)) blank) r c) =
    if decide ((r, c) ∈ Brush.brushCells 32 32 3 4 1)
    then Some (previewRgba "#000000") else get (Editor.grid Editor.mounted) r c.
Proof.
  assert (Hi : Editor.inv (Editor.setHoveredCell (Some (3%Z, 4%Z)) Editor.mounted)) by (apply Editor.inv_setHoveredCell, Editor.inv_mounted).
  split; [exact Hi|]. split; [reflexivity|]. split; [reflexivity|]. split; [reflexivity|].
  exact (hover_preview_footprint (Editor.setHoveredCell (Some (3%Z, 4%Z)) Editor.mounted) 3 4 blank Hi eq_refl eq_refl eq_refl).
Defined.

Lemma frame_cmds_wt_witness :
  Editor.inv (Editor.setHoveredCell (Some (3%Z, 4%Z)) Editor.mounted) /\
  Forall (wt_cmd Viewport.CANVAS_SIZE Viewport.CANVAS_SIZE) (renderHoverPreview true (Editor.setHoveredCell (Some (3%Z, 4%Z)) Editor.mounted)) /\
  Forall (wt_cmd Viewport.CANVAS_SIZE Viewport.CANVAS_SIZE) (drawPixelCmds true (Editor.setHoveredCell (Some (3%Z, 4%Z)) Editor.mounted) 3 4).
Proof.
  assert (Hi : Editor.inv (Editor.setHoveredCell (Some (3%Z, 4%Z)) Editor.mounted)) by (apply Editor.inv_setHoveredCell, Editor.inv_mounted).
  split; [exact Hi|]. exact (frame_cmds_wt (Editor.setHoveredCell (Some (3%Z, 4%Z)) Editor.mounted) 3 4 Hi).
Defined.

Lemma last_grid_line_outside_witness :
  (0 < 32)%Z /\ exists x, In (MoveTo x 0) (drawGridLines true 32 32) /\ x - (1 # 2) == Viewport.CANVAS_SIZE.
Proof. split; [lia|]. apply last_grid_line_outside. lia. Defined.

End Renderer.
