(* ===== verification/View.v ===== *)
(** * View: what the template shows

    The <template> block of App.vue renders the state: the four tool
    buttons with the [active] class on the current tool, the five brush
    buttons, the current colour, the palette of recent colours (a
    [v-for] keyed by the colour), the zoom controls with their [:disabled]
    bindings and the rounded percentage, the canvas cursor, the size line,
    and the dialog box when [dialogVisible] holds.  [view] is that render
    function, a pure function of the page state ([Session.Session]) and the
    zoom level: one field per binding, in the order of the markup.

    Theorems: in every reachable page state exactly one tool button and one
    brush button are active, the palette's [v-for] keys are distinct and at
    most 20, at most one swatch is selected, and a visible dialog always
    offers Cancel and labels its button Confirm (the alert variant of the
    box is dead markup); after any zoom sequence the percentage lies in
    25..400 and each zoom button is disabled exactly at its bound.

    Not modelled: element structure, classes without bindings, icons,
    styles; the [transform: scale(...)] string, which only prints the zoom
    level the mapper already reads through the bounding rectangle. *)

From Stdlib Require Import QArith Qround Lqa.
From stdpp Require Import pretty.
From S2P Require Import Prelude Grid History ColorHistory Brush Bresenham Connectivity FloodFill Editor Session Viewport.

Module View.
Import Editor Session.

(** ** The bindings *)

(** The four tool buttons: [:class="{ active: currentTool === t }"]. *)
Definition toolButtons (st : EditorState) : list (Tool * bool) :=
  map (fun t => (t, bool_decide (currentTool st = t))) [pencil; eraser; fill; eyedropper].

(** [v-for="size in [1, 2, 3, 4, 5]"]: the label [{{ size }}x{{ size }}]
    and [:class="{ active: brushSize === size }"]. *)
Definition brushButtons (st : EditorState) : list (string * bool) :=
  map (fun size => (pretty size +:+ "x" +:+ pretty size, bool_decide (brushSize st = size)))
    [1; 2; 3; 4; 5].

(** [v-for="color in colorHistory" :key="color"] with
    [:class="{ selected: currentColor === color }"]: each swatch as its key
    and its [selected] flag. *)
Definition palette (st : EditorState) : list (Grid.color * bool) :=
  map (fun c => (c, String.eqb (currentColor st) c)) (colorHistory st).

(** [Math.round(x)]: the nearest integer, halves rounded up. *)
Definition jsRound (x : Q) : Z := Qfloor (x + (1 # 2)).

Record ZoomControls := mkZoomControls {
  zoomOutDisabled : bool;
  zoomPercent : Z;
  zoomInDisabled : bool
}.

(** [:disabled="zoomLevel <= MIN_ZOOM"], [{{ Math.round(zoomLevel * 100) }}%],
    [:disabled="zoomLevel >= MAX_ZOOM"]. *)
Definition zoomControls (zoomLevel : Q) : ZoomControls :=
  mkZoomControls (Qle_bool zoomLevel Viewport.MIN_ZOOM) (jsRound (zoomLevel * 100))
    (Qle_bool Viewport.MAX_ZOOM zoomLevel).

(** [cursor: currentTool === 'eyedropper' ? 'crosshair' : 'pointer']. *)
Definition canvasCursor (st : EditorState) : string :=
  if bool_decide (currentTool st = eyedropper) then "crosshair" else "pointer".

Record DialogBox := mkDialogBox {
  boxTitle : string;
  boxMessage : string;
  boxInput : option string;
  boxCancel : bool;
  boxConfirmLabel : string
}.

(** [v-if="dialogVisible"]: the title, the message, the input
    [v-if="dialogType === 'prompt'"], the Cancel button
    [v-if="dialogType !== 'alert'"] and the label
    [dialogType === 'alert' ? 'OK' : 'Confirm']. *)
Definition dialogBox (d : DialogState) : option DialogBox :=
  if dialogVisible d then
    Some (mkDialogBox (dialogTitle d) (dialogMessage d)
            (if bool_decide (dialogType d = prompt) then Some (dialogInput d) else None)
            (bool_decide (dialogType d <> alert))
            (if bool_decide (dialogType d = alert) then "OK" else "Confirm"))
  else None.

Record View := mkView {
  tools : list (Tool * bool);
  brushes : list (string * bool);
  colorValue : string;
  paletteItems : list (Grid.color * bool);
  zoom : ZoomControls;
  cursor : string;
  info : Z * Z;
  box : option DialogBox
}.

(** The whole template; [info] is [{{ gridWidth }} × {{ gridHeight }}]. *)
Definition view (s : Session) (zoomLevel : Q) : View :=
  let st := editor s in
  mkView (toolButtons st) (brushButtons st) (currentColor st) (palette st)
    (zoomControls zoomLevel) (canvasCursor st) (gridWidth st, gridHeight st) (dialogBox (dialog s)).

(** ** Lemmas *)

Lemma toolButtons_one st : length (List.filter snd (toolButtons st)) = 1%nat.
Proof. unfold toolButtons. by destruct (currentTool st). Qed.

Lemma brushButtons_one st : 1 <= brushSize st <= 5 -> length (List.filter snd (brushButtons st)) = 1%nat.
Proof.
  unfold brushButtons. intros Hb.
  assert (brushSize st = 1 \/ brushSize st = 2 \/ brushSize st = 3 \/ brushSize st = 4 \/ brushSize st = 5)
    as Hs by lia.
  by destruct Hs as [->|[->|[->|[->| ->]]]].
Qed.

Lemma palette_keys st : map fst (palette st) = colorHistory st.
Proof. unfold palette. rewrite map_map. apply map_id. Qed.

(** In a list without duplicates at most one element equals [x]. *)
Lemma NoDup_filter_eqb (x : string) (l : list string) :
  List.NoDup l -> (length (List.filter (fun c => String.eqb x c) l) <= 1)%nat.
Proof.
  induction 1 as [|c l Hc Hl IH]; [simpl; lia|]. cbn [List.filter].
  destruct (String.eqb_spec x c) as [<-|_]; [|exact IH].
  enough (List.filter (fun c => String.eqb x c) l = []) as -> by (simpl; lia).
  clear - Hc. induction l as [|y l IHl]; [done|]. cbn [List.filter].
  destruct (String.eqb_spec x y) as [->|_]; [by destruct Hc; left|].
  apply IHl. intros H. apply Hc. by right.
Qed.

Lemma palette_selected st :
  List.NoDup (colorHistory st) -> (length (List.filter snd (palette st)) <= 1)%nat.
Proof.
  intros Hnd. unfold palette. rewrite List.filter_map_swap. cbn [snd]. rewrite length_map.
  by apply NoDup_filter_eqb.
Qed.

Lemma dialogBox_not_alert d b :
  dialogType d <> alert -> dialogBox d = Some b -> boxCancel b = true /\ boxConfirmLabel b = "Confirm".
Proof.
  intros Ht. unfold dialogBox. destruct (dialogVisible d); [|done]. intros [= <-]. cbn [boxCancel boxConfirmLabel].
  rewrite bool_decide_true, bool_decide_false by done. done.
Qed.

(** [Math.round] keeps a value between two integers between them. *)
Lemma jsRound_bounds (x : Q) (a b : Z) : (inject_Z a <= x <= inject_Z b)%Q -> a <= jsRound x <= b.
Proof.
  intros [Ha Hb]. unfold jsRound. split.
  - rewrite <- (Qfloor_Z a). apply Qfloor_resp_le. lra.
  - assert (H : (inject_Z (Qfloor (x + (1 # 2))) < inject_Z (b + 1))%Q).
    { eapply Qle_lt_trans; [apply Qfloor_le|]. rewrite inject_Z_plus. change (inject_Z 1) with (1 # 1). lra. }
    rewrite <- Zlt_Qlt in H. lia.
Qed.

(** Within the bounds, a [<=] test against a bound holds exactly at it. *)
Lemma Qle_bool_at_bounds (lo hi x : Q) :
  (lo <= x <= hi)%Q -> (Qle_bool x lo = true <-> (x == lo)%Q) /\ (Qle_bool hi x = true <-> (x == hi)%Q).
Proof. intros Hx. rewrite !Qle_bool_iff. split; split; intros H; try rewrite H; lra. Qed.

(** C24: what the template shows is consistent in every state the page can
    reach: exactly one tool button and one brush-size button carry the
    [active] class, the palette's [v-for] keys are distinct (as Vue
    requires of [:key]) and at most 20, at most one swatch is [selected],
    and a visible dialog always shows a Cancel button and the label
    Confirm, never the alert's lone OK. *)
Theorem view_consistent s zoomLevel :
  reachable s ->
  let v := view s zoomLevel in
  length (List.filter snd (tools v)) = 1%nat /\
  length (List.filter snd (brushes v)) = 1%nat /\
  List.NoDup (map fst (paletteItems v)) /\ (length (paletteItems v) <= 20)%nat /\
  (length (List.filter snd (paletteItems v)) <= 1)%nat /\
  (forall b, box v = Some b -> boxCancel b = true /\ boxConfirmLabel b = "Confirm").
Proof.
  intros Hr v. subst v. cbn [view tools brushes paletteItems box].
  pose proof (reachable_editor_inv s Hr) as Hinv. destruct (Editor.inv_colors _ Hinv) as [Hnd Hlen].
  split; [apply toolButtons_one|]. split; [apply brushButtons_one, (Editor.inv_brush _ Hinv)|].
  rewrite palette_keys. split; [exact Hnd|]. split; [unfold palette; rewrite length_map; exact Hlen|].
  split; [by apply palette_selected|]. intros b.
  destruct (reachable_dialogOk s Hr) as [(_ & Ht & _)|[Hv _]]; [by apply dialogBox_not_alert|].
  unfold dialogBox. by rewrite Hv.
Qed.

(** C38: the zoom controls after any sequence of zoom buttons and wheel steps
    from 100%: the percentage shown, [Math.round(zoomLevel * 100)], lies in
    25..400, and each button is disabled exactly when the level is at its
    bound. *)
Theorem zoom_view es :
  let zc := zoomControls (Viewport.zoomAfter es) in
  25 <= zoomPercent zc <= 400 /\
  (zoomOutDisabled zc = true <-> (Viewport.zoomAfter es == Viewport.MIN_ZOOM)%Q) /\
  (zoomInDisabled zc = true <-> (Viewport.zoomAfter es == Viewport.MAX_ZOOM)%Q).
Proof.
  intros zc. subst zc. pose proof (Viewport.zoom_bounds es) as Hb. cbn [zoomControls zoomPercent zoomOutDisabled zoomInDisabled].
  split; [apply jsRound_bounds; unfold Viewport.MIN_ZOOM, Viewport.MAX_ZOOM in Hb;
    change (inject_Z 25) with (25 # 1); change (inject_Z 400) with (400 # 1); lra|].
  apply Qle_bool_at_bounds, Hb.
Qed.

(** ** Witnesses *)

Lemma view_consistent_witness :
  reachable (step mountedSession ResizeButton) /\
  let v := view (step mountedSession ResizeButton) 1 in
  length (List.filter snd (tools v)) = 1%nat /\
  length (List.filter snd (brushes v)) = 1%nat /\
  List.NoDup (map fst (paletteItems v)) /\ (length (paletteItems v) <= 20)%nat /\
  (length (List.filter snd (paletteItems v)) <= 1)%nat /\
  (forall b, box v = Some b -> boxCancel b = true /\ boxConfirmLabel b = "Confirm").
Proof.
  assert (Hr : reachable (step mountedSession ResizeButton)) by (apply sreach_step; [constructor|reflexivity]).
  split; [exact Hr|]. exact (view_consistent _ 1 Hr).
Defined.

End View.
