(* ===== verification/PngExport.v ===== *)
(** * PNG export: the browser calls of [exportAsPNG]

    [exportAsPNG] creates a detached canvas, sizes it to the grid, draws
    one pixel per cell ([Renderer.exportAsPNG]), and then asks the canvas
    for a PNG with [toBlob(callback)].  The callback returns when the
    browser hands it no blob; otherwise it makes an object URL, an anchor
    with [href = url] and [download = 'pixel-art.png'], clicks it and
    revokes the URL.

    The calls are modelled as a trace of [DomCall]s, in program order, and
    the browser's answers (whether [getContext('2d')] succeeds, whether a
    blob arrives, the URL [createObjectURL] returns) are parameters, as an
    effect handler would supply them.  The callback runs later, from the
    event loop, but it only touches its own anchor and URL, so appending it
    to the trace loses no interleaving that matters.

    Three small interpreters read a trace: [snapshot], the canvas bitmap
    at the [toBlob] call (what the PNG encodes); [downloads], the files the
    clicks save (a click downloads only through a URL that is still
    live); [leaked], the object URLs never revoked.  The theorem: with a
    context, the PNG is a 1:1 image of the grid; exactly one file named
    [pixel-art.png] is saved when a blob arrives and none otherwise; no
    object URL leaks.  Encoding, the blob's bytes and the file system are
    not modelled. *)

From Stdlib Require Import QArith.
From S2P Require Import Prelude Grid History ColorHistory Brush Bresenham Connectivity FloodFill Editor Session Viewport Renderer.

Module PngExport.
Import Grid Renderer.

(** ** The calls *)

Inductive DomCall :=
  | CreateCanvas
  | Ctx (c : Cmd)
  | ToBlob
  | CreateObjectURL (url : string)
  | CreateAnchor
  | SetHref (url : string)
  | SetDownload (name : string)
  | Click
  | RevokeObjectURL (url : string).

(** The [toBlob] callback: nothing without a blob, else the download. *)
Definition toBlobCallback (blob : bool) (url : string) : list DomCall :=
  if negb blob then [] else
  [CreateObjectURL url; CreateAnchor; SetHref url; SetDownload "pixel-art.png"; Click;
   RevokeObjectURL url].

(** [exportAsPNG]: the canvas, its drawing (which returns early without a
    context), [toBlob] and its callback. *)
Definition exportAsPNGCalls (hasCtx blob : bool) (url : string) (gridWidth gridHeight : Z) (g : grid)
    : list DomCall :=
  [CreateCanvas] ++ map Ctx (exportAsPNG hasCtx gridWidth gridHeight g) ++
  if negb hasCtx then [] else [ToBlob] ++ toBlobCallback blob url.

(** ** Reading a trace *)

(** The bitmap at the first [toBlob], the canvas drawn from [cv]. *)
Fixpoint snapshot (cv : Canvas) (tr : list DomCall) : option Canvas :=
  match tr with
  | [] => None
  | Ctx c :: tr => snapshot (exec1 1 cv c) tr
  | ToBlob :: _ => Some cv
  | _ :: tr => snapshot cv tr
  end.

(** The document's side: the anchor's attributes, the live object URLs
    and the files saved so far (name, URL). *)
Record Dom := mkDom {
  href : option string;
  download : option string;
  live : list string;
  saved : list (string * string)
}.

Definition emptyDom : Dom := mkDom None None [] [].

Definition domStep (d : Dom) (call : DomCall) : Dom :=
  match call with
  | CreateObjectURL url => mkDom (href d) (download d) (url :: live d) (saved d)
  | CreateAnchor => mkDom None None (live d) (saved d)
  | SetHref url => mkDom (Some url) (download d) (live d) (saved d)
  | SetDownload name => mkDom (href d) (Some name) (live d) (saved d)
  | Click =>
      match href d, download d with
      | Some url, Some name =>
          if bool_decide (url ∈ live d) then mkDom (href d) (download d) (live d) (saved d ++ [(name, url)])
          else d
      | _, _ => d
      end
  | RevokeObjectURL url => mkDom (href d) (download d) (List.filter (fun u => negb (String.eqb u url)) (live d)) (saved d)
  | _ => d
  end.

Definition runDom (tr : list DomCall) : Dom := fold_left domStep tr emptyDom.

Definition downloads (tr : list DomCall) : list (string * string) := saved (runDom tr).
Definition leaked (tr : list DomCall) : list string := live (runDom tr).

(** ** Lemmas *)

Lemma snapshot_ctx cv cmds tr : snapshot cv (map Ctx cmds ++ tr) = snapshot (exec 1 cmds cv) tr.
Proof. revert cv. induction cmds as [|c cmds IH]; intros cv; [done|]. apply IH. Qed.

Lemma domStep_ctx d cmds : fold_left domStep (map Ctx cmds) d = d.
Proof. revert d. induction cmds as [|c cmds IH]; intros d; [done|]. apply IH. Qed.

Lemma runDom_calls hasCtx blob url w h g :
  runDom (exportAsPNGCalls hasCtx blob url w h g) =
  fold_left domStep (if negb hasCtx then [] else [ToBlob] ++ toBlobCallback blob url) emptyDom.
Proof. unfold runDom, exportAsPNGCalls. rewrite !fold_left_app, domStep_ctx. done. Qed.

(** C25: the PNG export is a faithful, clean download of the grid: with a
    2D context the bitmap [toBlob] encodes shows every cell of the grid at
    one pixel per cell; exactly one file, [pixel-art.png] at the created
    URL, is saved when a blob arrives and none otherwise (none without a
    context either); and the object URL is revoked, so none leaks. *)
Theorem exportAsPNG_download hasCtx blob url w h g :
  wf h w g ->
  let tr := exportAsPNGCalls hasCtx blob url w h g in
  (hasCtx = true -> exists cv, snapshot blank tr = Some cv /\ shows cv g) /\
  downloads tr = (if hasCtx && blob then [("pixel-art.png", url)] else []) /\
  leaked tr = [].
Proof.
  intros Hwf tr. subst tr. unfold downloads, leaked. rewrite runDom_calls. split.
  - intros ->. unfold exportAsPNGCalls. cbn [negb app snapshot]. rewrite snapshot_ctx.
    eexists. split; [reflexivity|]. by apply exportAsPNG_image.
  - destruct hasCtx, blob; cbn; try done.
    rewrite bool_decide_true by set_solver. cbn. by rewrite String.eqb_refl.
Qed.

(** ** Witness *)

Lemma exportAsPNG_download_witness :
  wf 2 2 (set (makeGrid 2 2) 0 1 "#FF0000") /\
  let tr := exportAsPNGCalls true true "blob:1" 2 2 (set (makeGrid 2 2) 0 1 "#FF0000") in
  (true = true -> exists cv, snapshot blank tr = Some cv /\ shows cv (set (makeGrid 2 2) 0 1 "#FF0000")) /\
  downloads tr = (if true && true then [("pixel-art.png", "blob:1")] else []) /\
  leaked tr = [].
Proof.
  assert (Hwf : wf 2 2 (set (makeGrid 2 2) 0 1 "#FF0000")) by (apply wf_set, wf_makeGrid).
  split; [exact Hwf|]. exact (exportAsPNG_download true true "blob:1" 2 2 _ Hwf).
Defined.

End PngExport.
